(** * vimeo-to-panda: the Vimeo -> Panda mirror scripts, embedded in Rocq

    Two scripts walk the Vimeo folder tree and record, in the MySQL table
    [vimeo_panda_videos], which Panda video corresponds to which Vimeo video:

    - [src/getVimeoPandaLinks.js]  (module [Links] below)
    - [src/index.js]               (module [Index] below)

    A third script, [src/unnamed/part_000] (module [Sync] below), fills in
    missing Panda ids from the titles already in the table.

    All are sequential [async] programs.  They are embedded as functions in
    a state-and-exception monad [M]: the state holds the table, the run-scoped
    folder cache, the folders that exist on Panda, a counter of HTTP attempts,
    a clock and the trace of effects; a thrown JavaScript value is the
    outcome [Throw].  Loops whose length depends on remote data ([do ... while
    (url)] over pages, recursion into sub-folders) take a [fuel] bound. *)

From Stdlib Require Import ZArith Lia Ascii String List Bool.
From stdpp Require Import base option list strings gmap.

Local Open Scope string_scope.
Local Open Scope Z_scope.

(** ** JavaScript values that the scripts inspect

    A string is a JavaScript string given by its UTF-8 encoding. *)

(** Truthiness of a string-or-null value: [null], [undefined] and [""] are
    falsy.  [truthy v] is what [v || null] evaluates to. *)
Definition truthy (v : option string) : option string :=
  match v with
  | Some s => if String.eqb s "" then None else Some s
  | None => None
  end.

(** [v || d] for a string-or-undefined [v] and a string default [d]. *)
Definition or_else (v : option string) (d : string) : string :=
  match truthy v with Some s => s | None => d end.

(** A member of a response body that a script only prints: it is missing,
    [null], a string, or any other value, which is given by the string it
    converts to (["5"] for [5], ["true"], ["[object Object]"]). *)
Inductive Value :=
| Undefined
| Null
| Str (s : string)
| Other (text : string).

(** [`${v}`]: the value inside a template literal. *)
Definition template (v : Value) : string :=
  match v with
  | Undefined => "undefined"
  | Null => "null"
  | Str s => s
  | Other text => text
  end.

(** *** [formatVimeoUrl]: the regular expression [/^\/videos\/(\d+)$/] *)

Definition is_digit (c : ascii) : bool :=
  (48 <=? nat_of_ascii c)%nat && (nat_of_ascii c <=? 57)%nat.

Fixpoint all_digits (s : string) : bool :=
  match s with
  | EmptyString => true
  | String c r => is_digit c && all_digits r
  end.

(** [strip_prefix p s] is [Some r] when [s = p ++ r]. *)
Fixpoint strip_prefix (p s : string) : option string :=
  match p with
  | EmptyString => Some s
  | String a p' =>
      match s with
      | String b s' => if Ascii.eqb a b then strip_prefix p' s' else None
      | EmptyString => None
      end
  end.

(** [path.match(/^\/videos\/(\d+)$/)]: the capture group, or [None] for a
    [null] match.  Without the [m] flag [$] matches at the very end only, and
    [\d] is [[0-9]]; [\d+] needs one digit at least. *)
Definition match_videos_path (path : string) : option string :=
  match strip_prefix "/videos/" path with
  | Some rest =>
      match rest with
      | EmptyString => None
      | String _ _ => if all_digits rest then Some rest else None
      end
  | None => None
  end.

(** *** Numbers

    A number is [NaN], an infinity or an integer: the numbers the scripts
    compute (delays) come from [parseInt] and from products of integers, and
    a double that is not an integer does not arise.  [Num z] is the double
    whose value is [z]; [to_double] gives the double nearest to an integer
    (ties to the even significand, beyond the largest double the
    infinity). *)
Inductive Number :=
| NaN
| Num (z : Z)
| Infinity (negative : bool).

Definition two53 : Z := 9007199254740992.

Definition two1024 : Z := Z.shiftl 1 1024.

(** The double nearest to [a], for [a] from 2^53 on: the 53 leading bits
    [q] of [a], one more when the rest [r] is over half a unit, or is half a
    unit and [q] is odd. *)
Definition round_even (a : Z) : Z :=
  let e := Z.log2 a - 52 in
  let q := Z.shiftr a e in
  let r := a - Z.shiftl q e in
  let half := Z.shiftl 1 (e - 1) in
  let q' := if (half <? r) || ((r =? half) && Z.odd q) then q + 1 else q in
  Z.shiftl q' e.

Definition to_double (z : Z) : Number :=
  let a := Z.abs z in
  if a <? two53 then Num z
  else
    let m := round_even a in
    if two1024 <=? m then Infinity (z <? 0)
    else Num (if z <? 0 then - m else m).

(** [a * b] for a number [a] and an integer [b]. *)
Definition nmul (a : Number) (b : Z) : Number :=
  match a with
  | NaN => NaN
  | Num x => to_double (x * b)
  | Infinity negative =>
      if b =? 0 then NaN else Infinity (xorb negative (b <? 0))
  end.

Arguments to_double : simpl never.
Arguments nmul : simpl never.

(** *** [parseInt(s, 10)] *)

(** The white space [parseInt] skips: TAB, LF, VT, FF, CR, SP, and beyond
    ASCII the code points U+00A0, U+1680, U+2000 to U+200A, U+2028, U+2029,
    U+202F, U+205F, U+3000 and U+FEFF, each by its UTF-8 bytes. *)
Definition is_space (c : ascii) : bool :=
  let n := nat_of_ascii c in
  (n =? 32)%nat || ((9 <=? n)%nat && (n <=? 13)%nat).

Definition is_space2 (c1 c2 : ascii) : bool :=
  (nat_of_ascii c1 =? 194)%nat && (nat_of_ascii c2 =? 160)%nat.

Definition is_space3 (c1 c2 c3 : ascii) : bool :=
  let a := nat_of_ascii c1 in
  let b := nat_of_ascii c2 in
  let c := nat_of_ascii c3 in
  ((a =? 225) && (b =? 154) && (c =? 128))%nat
  || ((a =? 226) && (b =? 128)
      && (((128 <=? c) && (c <=? 138)) || (c =? 168) || (c =? 169) || (c =? 175)))%nat
  || ((a =? 226) && (b =? 129) && (c =? 159))%nat
  || ((a =? 227) && (b =? 128) && (c =? 128))%nat
  || ((a =? 239) && (b =? 187) && (c =? 191))%nat.

Fixpoint skip_spaces (s : string) : string :=
  match s with
  | String c1 r1 =>
      if is_space c1 then skip_spaces r1
      else
        match r1 with
        | String c2 r2 =>
            if is_space2 c1 c2 then skip_spaces r2
            else
              match r2 with
              | String c3 r3 => if is_space3 c1 c2 c3 then skip_spaces r3 else s
              | EmptyString => s
              end
        | EmptyString => s
        end
  | EmptyString => s
  end.

(** The value of the longest prefix of decimal digits, with the count of
    digits read; [acc] is the value read so far. *)
Fixpoint read_digits (s : string) (acc : Z) (n : nat) : Z * nat :=
  match s with
  | String c r =>
      if is_digit c
      then read_digits r (10 * acc + (Z.of_nat (nat_of_ascii c) - 48)) (S n)
      else (acc, n)
  | EmptyString => (acc, n)
  end.

(** [parseInt(s, 10)]: white space is skipped, then a sign, then the
    digits are read up to the first character that is not one; without a
    digit the result is [NaN], otherwise the double nearest to the integer
    read. *)
Definition parseInt (s : string) : Number :=
  let s1 := skip_spaces s in
  let '(neg, s2) :=
    match s1 with
    | String "-" r => (true, r)
    | String "+" r => (false, r)
    | _ => (false, s1)
    end in
  match read_digits s2 0 0%nat with
  | (_, O) => NaN
  | (v, S _) => to_double (if neg then - v else v)
  end.

(** ** Remote data *)

(** One entry of [video.download]. *)
Record Download := {
  dl_width : option Z;       (* [width] *)
  dl_link : option string    (* [link] *)
}.

(** [item.folder] of an entry of a Vimeo listing, with the two connection
    URIs the scripts follow ([metadata.connections.videos.uri] and
    [metadata.connections.items.uri]) flattened. *)
Record Folder := {
  fo_name : option string;
  fo_uri : option string;
  fo_videos_uri : option string;
  fo_items_uri : option string
}.

(** An entry of the [data] array of a Vimeo page, a JSON object.  The same
    object is read as a folder entry by [processFolder] and as a video by
    [processVideosInFolder]; every member may be absent. *)
Record Item := {
  it_folder : option Folder;
  it_name : option string;
  it_uri : option string;
  it_description : option string;
  it_download : option (list Download)
}.

(** The [data] member of a page body: absent (or another falsy value), an
    array, a truthy value that cannot be iterated (an object, a number,
    [true]), or a string that is not empty, of [1 + more] characters. *)
Inductive PageData :=
| DataMissing
| DataArray (items : list Item)
| DataOther
| DataString (more : nat).

(** What [for (const x of data.data)] goes through, where no [Array.isArray]
    guards it.  The items of a string are its characters, one-character
    strings, which have none of the members the scripts read. *)
Definition blank_item : Item :=
  {| it_folder := None; it_name := None; it_uri := None; it_description := None;
     it_download := None |}.

Inductive Iteration :=
| NoData
| Items (items : list Item)
| NotIterable.

Definition iteration (d : PageData) : Iteration :=
  match d with
  | DataMissing => NoData
  | DataArray items => Items items
  | DataOther => NotIterable
  | DataString more => Items (List.repeat blank_item (S more))
  end.

(** The body of a Vimeo listing response: [data] and [paging.next]. *)
Record Page := {
  pg_data : PageData;
  pg_next : option string
}.

(** A folder of the Panda account, as [GET /folders] lists it. *)
Record PandaFolder := {
  pf_id : string;
  pf_name : string;
  pf_parent : option string    (* [parent_folder_id]; [None] is null *)
}.

(** An entry of the [videos] array of Panda's [GET /videos]. *)
Record PandaVideo := {
  pv_id : option string;
  pv_external_id : Value;             (* [video_external_id] *)
  pv_websocket_url : option string
}.

(** What axios rejects with: [e.response?.status], the [retry-after] header
    of [e.response], [e.code] and [e.message]. *)
Record AxiosError := {
  err_status : option Z;
  err_retry_after : option string;
  err_code : option string;
  err_message : string
}.

(** How one HTTP attempt ends at the transport level. *)
Inductive NetResult :=
| NetOk
| NetFail (e : AxiosError).

(** The world outside the process.  [source] is the Vimeo data, by URL;
    [panda_videos] is Panda's answer to a search by folder and title (the
    [videos] member of the body); [panda_new_id] is the id Panda gives a
    folder created when its folders are the given ones; [net] says how the
    n-th HTTP attempt of the run ends. *)
Record World := {
  vimeo_user_id : string;
  source : string -> Page;
  panda_videos : string -> string -> option (list PandaVideo);
  panda_new_id : list PandaFolder -> string;
  net : nat -> NetResult
}.

(** ** The mapping table [vimeo_panda_videos] *)

Record Row := {
  vimeo_video_id : string;
  panda_video_id : option string;
  panda_websocket_url : option string;
  title : option string;
  updated_at : Z
}.

(** ** Effects *)

Inductive Client := Vimeo | Panda.

Inductive Level := LLog | LWarn | LError.

(** A thrown value. *)
Inductive Exn :=
| AxiosExn (e : AxiosError) (url : string)   (* a rejected axios call *)
| ErrorExn (message : string)                (* [new Error(message)] *)
| RetriesExhausted (retries : nat) (url : string)
    (* [new Error(`Falha ao acessar Vimeo ... ${retries} tentativas: ${url}`)] *)
| ReferenceError (ident : string)            (* an unbound identifier *)
| TypeError (what : string).

(** What a run does that can be seen from outside, in order.  A console
    line is [ELog] with its level, a tag (the fixed start of the message, or a
    short name for it) and the item it names, or [ELogExn] when it prints a
    caught value.  The item is left empty where the line names none, or one
    that the model does not hold as the line prints it. *)
Inductive Event :=
| EGet (c : Client) (url : string) (params : list (string * string))
| EPost (c : Client) (url : string) (name : string) (parent : option string)
| ESleep (ms : Number)                       (* [setTimeout(r, ms)] *)
| ESelect (key : string)
| EUpsert (key : string) (panda_id ws ttl : option string)
| ELog (lvl : Level) (tag : string) (arg : string)
| ELogExn (tag : string) (e : Exn)
| EUnbound (ident : string)                  (* an unbound identifier is evaluated *)
| EPoolEnd.

Record State := {
  db : list Row;                     (* the table *)
  folderMap : gmap string string;    (* [const folderMap = new Map()] *)
  target : list PandaFolder;         (* the folders on Panda *)
  tick : nat;                        (* HTTP attempts made so far *)
  clock : Z;                         (* milliseconds slept so far *)
  trace : list Event
}.

Inductive Outcome (A : Type) :=
| Ret (a : A)
| Throw (e : Exn)
| OutOfFuel.
Arguments Ret {A} a.
Arguments Throw {A} e.
Arguments OutOfFuel {A}.

Definition M (A : Type) : Type := State -> Outcome A * State.

Definition ret {A} (a : A) : M A := fun s => (Ret a, s).

Definition throw {A} (e : Exn) : M A := fun s => (Throw e, s).

Definition out_of_fuel {A} : M A := fun s => (OutOfFuel, s).

Definition bind {A B} (c : M A) (k : A -> M B) : M B :=
  fun s =>
    match c s with
    | (Ret a, s') => k a s'
    | (Throw e, s') => (Throw e, s')
    | (OutOfFuel, s') => (OutOfFuel, s')
    end.

(** [try { c } catch (e) { h e }] *)
Definition try_catch {A} (c : M A) (h : Exn -> M A) : M A :=
  fun s =>
    match c s with
    | (Throw e, s') => h e s'
    | r => r
    end.

Notation "'do' x <- c ; k" := (bind c (fun x => k))
  (at level 10, x name, c at level 100, k at level 200,
   format "'[v' 'do'  x  <-  c ; '/' k ']'").

(** [for (const x of l) { body x }]; [continue] is the body returning. *)
Fixpoint for_of {A} (body : A -> M unit) (l : list A) : M unit :=
  match l with
  | [] => ret tt
  | x :: r => do _ <- body x; for_of body r
  end.

Definition emit (e : Event) : M unit :=
  fun s => (Ret tt,
            {| db := db s; folderMap := folderMap s; target := target s;
               tick := tick s; clock := clock s; trace := trace s ++ [e] |}).

Definition log (lvl : Level) (tag arg : string) : M unit := emit (ELog lvl tag arg).

(** The delay Node gives a timer asked for [ms]: [ms] itself from 1 to
    2^31 - 1, and 1 ms for every other value (0, a negative number, [NaN], a
    number over 2^31 - 1, an infinity). *)
Definition timer (ms : Number) : Z :=
  match ms with
  | Num z => if (1 <=? z) && (z <=? 2147483647) then z else 1
  | _ => 1
  end.

(** [await new Promise(r => setTimeout(r, ms))].  The warning Node prints
    of its own accord for a delay over 2^31 - 1 is not part of the trace. *)
Definition sleep (ms : Number) : M unit :=
  fun s => (Ret tt,
            {| db := db s; folderMap := folderMap s; target := target s;
               tick := tick s;
               clock := clock s + timer ms;
               trace := trace s ++ [ESleep ms] |}).

(** ** The table's statements *)

Definition has_key (k : string) (r : Row) : bool := String.eqb (vimeo_video_id r) k.

(** [SELECT 1 FROM vimeo_panda_videos WHERE vimeo_video_id = ? LIMIT 1],
    then [rows.length > 0]. *)
Definition key_exists (k : string) (t : list Row) : bool := existsb (has_key k) t.

(** Modelled from the spec: the schema of [vimeo_panda_videos], which is not
    in the repository.  The spec gives the table one row per [vimeo_video_id]
    (a unique key), which is what [INSERT ... ON DUPLICATE KEY UPDATE ...]
    works on: the row with the key is updated where it stands ([upd]);
    without one, the row [fresh] is added.  In [fresh] a column that the
    [INSERT] does not name has its default, taken to be NULL for
    [panda_websocket_url] and the current timestamp for [updated_at]. *)
Fixpoint upsert (k : string) (fresh : Row) (upd : Row -> Row) (t : list Row) : list Row :=
  match t with
  | [] => [fresh]
  | r :: t' => if has_key k r then upd r :: t' else r :: upsert k fresh upd t'
  end.

(** The rows with key [k]. *)
Definition rows_of (k : string) (t : list Row) : list Row := List.filter (has_key k) t.

Definition keys (t : list Row) : list string := List.map vimeo_video_id t.

(** The upserts recorded in a trace. *)
Definition is_write (e : Event) : bool :=
  match e with EUpsert _ _ _ _ => true | _ => false end.

Definition writes (tr : list Event) : list Event := List.filter is_write tr.

(** The HTTP attempts recorded in a trace. *)
Definition is_remote (e : Event) : bool :=
  match e with EGet _ _ _ | EPost _ _ _ _ => true | _ => false end.

Definition remote_calls (tr : list Event) : list Event := List.filter is_remote tr.

(** ** One HTTP attempt

    The attempt is recorded and counted; [net] decides whether it fails; when
    it does not, the server acts ([serve]) and its body is the result. *)
Definition attempt {B} (W : World) (ev : Event) (serve : State -> B * State)
  : M (AxiosError + B) :=
  fun s =>
    let s1 := {| db := db s; folderMap := folderMap s; target := target s;
                 tick := S (tick s); clock := clock s; trace := trace s ++ [ev] |} in
    match net W (tick s) with
    | NetOk => let '(b, s2) := serve s1 in (Ret (inr b), s2)
    | NetFail e => (Ret (inl e), s1)
    end.

(** A request that only reads. *)
Definition reading {B} (body : State -> B) : State -> B * State :=
  fun s => (body s, s).

(** [axiosVimeo.get(url)]: the page at [url]. *)
Definition vimeo_get (W : World) (url : string) : M (AxiosError + Page) :=
  attempt W (EGet Vimeo url []) (reading (fun _ => source W url)).

(** [GET /folders] on Panda: the [folders] member of the body. *)
Definition panda_get_folders (W : World) : M (AxiosError + option (list PandaFolder)) :=
  attempt W (EGet Panda "/folders" []) (reading (fun s => Some (target s))).

(** [GET /videos] on Panda with [params: { folder_id, title }]: the [videos]
    member of the body. *)
Definition panda_get_videos (W : World) (folderId ttl : string)
  : M (AxiosError + option (list PandaVideo)) :=
  attempt W (EGet Panda "/videos" [("folder_id", folderId); ("title", ttl)])
    (reading (fun _ => panda_videos W folderId ttl)).

(** An await on an axios call outside any [try]: the rejection is thrown. *)
Definition awaited {B} (url : string) (c : M (AxiosError + B)) : M B :=
  do r <- c;
  match r with
  | inr b => ret b
  | inl e => throw (AxiosExn e url)
  end.

(** [a === b] on string-or-null values, and [a == null]. *)
Definition strict_eq (a b : option string) : bool :=
  match a, b with
  | Some x, Some y => String.eqb x y
  | None, None => true
  | _, _ => false
  end.

Definition is_null (a : option string) : bool :=
  match a with None => true | Some _ => false end.

(** The predicate both [findPandaFolder]s give to [Array.prototype.find]. *)
Definition folder_matches (name : string) (parentFolderId : option string)
  (f : PandaFolder) : bool :=
  String.eqb (pf_name f) name
  && (strict_eq (pf_parent f) parentFolderId
      || (is_null (pf_parent f) && is_null parentFolderId)).

(** [https://player-vz-4cab7bf9-47f.tv.pandavideo.com.br/embed/?v=${videoId}] *)
Definition formatPandaIdToUrl (videoId : Value) : string :=
  "https://player-vz-4cab7bf9-47f.tv.pandavideo.com.br/embed/?v=" +:+ template videoId.

(** The root listing both [run]s start from; [fields] is the query suffix
    [index.js] adds. *)
Definition root_uri (W : World) (fields : string) : string :=
  "/users/" +:+ vimeo_user_id W
  +:+ "/folders/root?direction=asc&exclude_personal_team_folder=true&exclude_shared_videos=false&no_padding=true&sort=alphabetical&responsive=true"
  +:+ fields.

(** [e.response?.status === n] and [e.code === c]. *)
Definition status_is (n : Z) (e : AxiosError) : bool :=
  match err_status e with Some m => Z.eqb m n | None => false end.

Definition code_is (c : string) (e : AxiosError) : bool :=
  match err_code e with Some d => String.eqb d c | None => false end.

(** [pool.execute] of an upsert: the statement [stmt] runs at the current
    time and the call is recorded as [ev]. *)
Definition execute (stmt : Z -> list Row -> list Row) (ev : Event) : M unit :=
  fun s => (Ret tt,
            {| db := stmt (clock s) (db s); folderMap := folderMap s;
               target := target s; tick := tick s; clock := clock s;
               trace := trace s ++ [ev] |}).

(** [SELECT 1 ... WHERE vimeo_video_id = ? LIMIT 1] through [pool.execute]. *)
Definition select_exists (k : string) : M bool :=
  do _ <- emit (ESelect k);
  fun s => (Ret (key_exists k (db s)), s).

(** * getVimeoPandaLinks.js

    [getDbConnection] only builds the pool; the statements that go through
    the pool are [select_exists] and [execute].  In this script and in
    index.js the store executes every statement it is given; a store that
    rejects a call is modelled for the sync script, in [Sync]. *)
Module Links.

(** [formatVimeoUrl]: [null] is [None]. *)
Definition formatVimeoUrl (path : string) : option string :=
  match match_videos_path path with
  | None => None
  | Some id => Some ("https://player.vimeo.com/video/" +:+ id)
  end.

(** The statement of [processVideosInFolder]:
    [INSERT INTO vimeo_panda_videos (vimeo_video_id, panda_video_id, title)
     VALUES (?, ?, ?) ON DUPLICATE KEY UPDATE panda_video_id = VALUES(panda_video_id),
     title = VALUES(title), updated_at = CURRENT_TIMESTAMP]. *)
Definition insert_mapping (vimeoVideoUrl pandaVideoUrl ttl : string) (now : Z)
  (t : list Row) : list Row :=
  upsert vimeoVideoUrl
    {| vimeo_video_id := vimeoVideoUrl; panda_video_id := Some pandaVideoUrl;
       panda_websocket_url := None; title := Some ttl; updated_at := now |}
    (fun r =>
       {| vimeo_video_id := vimeo_video_id r; panda_video_id := Some pandaVideoUrl;
          panda_websocket_url := panda_websocket_url r; title := Some ttl;
          updated_at := now |})
    t.

Section Program.
Variable W : World.

Definition vimeoVideoExists (vimeoVideoUrl : string) : M bool :=
  select_exists vimeoVideoUrl.

(** The wait of [axiosVimeoRetry] after a 429 at loop index [attempt]:
    [parseInt(headers['retry-after'] || '5', 10) * 1000 * (attempt + 1)]. *)
Definition rate_limit_wait (err : AxiosError) (attempt : nat) : Number :=
  let retryAfter := parseInt (or_else (err_retry_after err) "5") in
  nmul (nmul retryAfter 1000) (Z.of_nat attempt + 1).

(** The loop of [axiosVimeoRetry]: [attempt] is the loop variable and [left]
    is [retries - attempt], the iterations that remain. *)
Fixpoint retry_loop (url : string) (retries left attempt : nat) : M Page :=
  match left with
  | O => throw (RetriesExhausted retries url)
  | S left' =>
      do r <- vimeo_get W url;
      match r with
      | inr page => ret page
      | inl err =>
          if status_is 429 err then
            let waitTime := rate_limit_wait err attempt in
            do _ <- log LWarn "[RATE LIMIT]" "";
            do _ <- sleep waitTime;
            retry_loop url retries left' (S attempt)
          else if code_is "ECONNRESET" err || code_is "ETIMEDOUT" err then
            let waitTime := nmul (Num 2000) (Z.of_nat attempt + 1) in
            do _ <- log LWarn "[CONN RESET]" "";
            do _ <- sleep waitTime;
            retry_loop url retries left' (S attempt)
          else throw (AxiosExn err url)
      end
  end.

Definition axiosVimeoRetry (url : string) (retries : nat) : M Page :=
  retry_loop url retries retries 0.

(** [findPandaFolder]: the id of the first folder that matches, or [None]
    for [null]. *)
Definition findPandaFolder (name : string) (parentFolderId : option string)
  : M (option string) :=
  do folders <- awaited "/folders" (panda_get_folders W);
  let found :=
    match folders with
    | Some fs => List.find (folder_matches name parentFolderId) fs
    | None => None
    end in
  ret (match found with Some f => Some (pf_id f) | None => None end).

(** [findPandaVideoByTitle]: [res.data?.videos?.[0] || null]. *)
Definition findPandaVideoByTitle (folderId ttl : string) : M (option PandaVideo) :=
  do videos <- awaited "/videos" (panda_get_videos W folderId ttl);
  ret (match videos with Some (v :: _) => Some v | _ => None end).

(** The body of the [for (const video of data.data)] loop. *)
Definition video_step (pandaFolderId : string) (video : Item) : M unit :=
  let ttl := or_else (it_name video) "sem título" in
  match it_uri video with
  | None => throw (TypeError "path.match")
  | Some uri =>
      match formatVimeoUrl uri with
      | None => ret tt
      | Some vimeoVideoUrl =>
          do exists_ <- vimeoVideoExists vimeoVideoUrl;
          if exists_ then log LLog "[SKIP]" ttl
          else
            do pandaVideo <- findPandaVideoByTitle pandaFolderId ttl;
            do _ <-
              match pandaVideo with
              | Some pv =>
                  let pandaVideoUrl := formatPandaIdToUrl (pv_external_id pv) in
                  do _ <- execute (insert_mapping vimeoVideoUrl pandaVideoUrl ttl)
                            (EUpsert vimeoVideoUrl (Some pandaVideoUrl) None (Some ttl));
                  log LLog "[MAP]" ttl
              | None => log LWarn "[MISS]" ttl
              end;
            sleep (Num 300)
      end
  end.

(** What follows the fetch of a page of videos; [next_page] is the loop
    taken again at a URL. *)
Definition videos_page (next_page : string -> M unit) (pandaFolderId : string)
  (data : Page) : M unit :=
  match iteration (pg_data data) with
  | NoData => ret tt
  | NotIterable => throw (TypeError "data.data is not iterable")
  | Items videos =>
      do _ <- for_of (video_step pandaFolderId) videos;
      match truthy (pg_next data) with
      | Some url => next_page url
      | None => ret tt
      end
  end.

(** The [do ... while (url)] loop of [processVideosInFolder]. *)
Fixpoint video_pages (fuel : nat) (pandaFolderId : string) (url : string) : M unit :=
  match fuel with
  | O => out_of_fuel
  | S fuel' =>
      do data <- axiosVimeoRetry url 5;
      videos_page (video_pages fuel' pandaFolderId) pandaFolderId data
  end.

Definition videos_uri (vimeoFolder : Item) : option string :=
  match it_folder vimeoFolder with
  | Some f => truthy (fo_videos_uri f)
  | None => None
  end.

Definition items_uri (vimeoFolder : Item) : option string :=
  match it_folder vimeoFolder with
  | Some f => truthy (fo_items_uri f)
  | None => None
  end.

Definition folder_uri (vimeoFolder : Item) : option string :=
  match it_folder vimeoFolder with
  | Some f => truthy (fo_uri f)
  | None => None
  end.

Definition folder_name (vimeoFolder : Item) : string :=
  match it_folder vimeoFolder with
  | Some f => or_else (fo_name f) "sem nome"
  | None => "sem nome"
  end.

Definition processVideosInFolder (fuel : nat) (vimeoFolder : Item)
  (pandaFolderId : string) : M unit :=
  match videos_uri vimeoFolder with
  | None => ret tt
  | Some videosUri => video_pages fuel pandaFolderId (videosUri +:+ "?per_page=50")
  end.

(** The body of the [for (const folder of data.data)] loop; [recurse] is
    [processFolder] one level down. *)
Definition folder_step (fuel : nat) (recurse : string -> option string -> M unit)
  (pandaParentId : option string) (folder : Item) : M unit :=
  let folderName := folder_name folder in
  match folder_uri folder with
  | None => ret tt
  | Some vimeoUri =>
      do found <- findPandaFolder folderName pandaParentId;
      match truthy found with
      | None => log LWarn "[Skip]" folderName
      | Some pandaFolderId =>
          do _ <- processVideosInFolder fuel folder pandaFolderId;
          do _ <-
            match items_uri folder with
            | Some subfoldersUri => recurse subfoldersUri (Some pandaFolderId)
            | None => ret tt
            end;
          sleep (Num 500)
      end
  end.

(** What follows the fetch of a page of folders. *)
Definition folders_page (fuel : nat) (recurse : string -> option string -> M unit)
  (next_page : string -> M unit) (pandaParentId : option string) (data : Page) : M unit :=
  match iteration (pg_data data) with
  | NoData => ret tt
  | NotIterable => throw (TypeError "data.data is not iterable")
  | Items folders =>
      do _ <- for_of (folder_step fuel recurse pandaParentId) folders;
      match truthy (pg_next data) with
      | Some url => next_page url
      | None => ret tt
      end
  end.

(** The [do ... while (url)] loop of [processFolder], from the URL [url]. *)
Fixpoint folder_pages (fuel : nat) (url : string) (pandaParentId : option string)
  : M unit :=
  match fuel with
  | O => out_of_fuel
  | S fuel' =>
      do data <- axiosVimeoRetry url 5;
      folders_page fuel'
        (fun uri parent => folder_pages fuel' (uri +:+ "?per_page=50") parent)
        (fun next => folder_pages fuel' next pandaParentId)
        pandaParentId data
  end.

Definition processFolder (fuel : nat) (vimeoFolderUri : string)
  (pandaParentId : option string) : M unit :=
  folder_pages fuel (vimeoFolderUri +:+ "?per_page=50") pandaParentId.

Definition run (fuel : nat) : M unit :=
  do _ <- processFolder fuel (root_uri W "") None;
  do _ <- emit EPoolEnd;
  log LLog "Processo concluído!" "".

(** [run().catch(err => console.error(err))] *)
Definition main (fuel : nat) : M unit :=
  try_catch (run fuel) (fun err => emit (ELogExn "" err)).

End Program.
End Links.

(** * index.js

    The only call of [uploadVideoToPanda], in [processVideosInFolder], is
    commented out; the function is embedded at the end of the module, with the
    request it makes as a parameter. *)
Module Index.

(** [formatVimeoUrl]: a mismatch throws
    [new Error("Formato inválido. Esperado: /videos/{id}")]. *)
Definition formatVimeoUrl (path : string) : Exn + string :=
  match match_videos_path path with
  | None => inl (ErrorExn "Formato inválido. Esperado: /videos/{id}")
  | Some videoId => inr ("https://player.vimeo.com/video/" +:+ videoId)
  end.

(** The statement of [saveVideoMapping]:
    [INSERT INTO vimeo_panda_videos (vimeo_video_id, panda_video_id,
     panda_websocket_url, title) VALUES (?, ?, ?, ?) ON DUPLICATE KEY UPDATE
     panda_video_id = VALUES(panda_video_id),
     panda_websocket_url = VALUES(panda_websocket_url), title = VALUES(title),
     updated_at = CURRENT_TIMESTAMP]. *)
Definition insert_mapping (key : string) (pandaVideoId pandaWebsocketUrl ttl : option string)
  (now : Z) (t : list Row) : list Row :=
  upsert key
    {| vimeo_video_id := key; panda_video_id := pandaVideoId;
       panda_websocket_url := pandaWebsocketUrl; title := ttl; updated_at := now |}
    (fun r =>
       {| vimeo_video_id := vimeo_video_id r; panda_video_id := pandaVideoId;
          panda_websocket_url := pandaWebsocketUrl; title := ttl; updated_at := now |})
    t.

(** [video.download.sort((a, b) => (b.width || 0) - (a.width || 0))]: a
    stable sort, widest first. *)
Definition width_of (d : Download) : Z := default 0 (dl_width d).

Fixpoint insert_by_width (d : Download) (l : list Download) : list Download :=
  match l with
  | [] => [d]
  | x :: r => if width_of d <? width_of x then x :: insert_by_width d r else d :: l
  end.

Definition sort_by_width (l : list Download) : list Download :=
  List.fold_right insert_by_width [] l.

(** [downloadUrl] as the loop of [processVideosInFolder] computes it. *)
Definition download_url (video : Item) : option string :=
  match it_download video with
  | Some (d :: ds) =>
      match sort_by_width (d :: ds) with
      | first :: _ => truthy (dl_link first)
      | [] => None
      end
  | _ => None
  end.

(** Evaluating an identifier that nothing in the module binds. *)
Definition unbound {A} (ident : string) : M A :=
  do _ <- emit (EUnbound ident);
  throw (ReferenceError ident).

Section Program.
Variable W : World.

(** The wait of [safeGet] and [safePost] after a 429 at attempt [attempt]:
    [headers?.['retry-after'] ? parseInt(headers['retry-after'], 10) * 1000
     : 2000 * attempt]. *)
Definition rate_limit_wait (e : AxiosError) (attempt : nat) : Number :=
  match truthy (err_retry_after e) with
  | Some h => nmul (parseInt h) 1000
  | None => nmul (Num 2000) (Z.of_nat attempt)
  end.

(** The loop shared by [safeGet] and [safePost] (the two differ in the call
    they make and in the log tag): [attempt] is the loop variable, from 1,
    and [left] is [retry - attempt + 1], the iterations that remain.  When
    the loop ends the function returns [undefined], [None] here. *)
Fixpoint safe_loop {B} (call : M (AxiosError + B)) (tag url : string)
  (retry left attempt : nat) : M (option B) :=
  match left with
  | O => ret None
  | S left' =>
      do r <- call;
      match r with
      | inr data => ret (Some data)
      | inl e =>
          do _ <- log LError tag url;
          if status_is 429 e then
            let wait := rate_limit_wait e attempt in
            do _ <- log LWarn "Rate limit (429)" "";
            do _ <- sleep wait;
            safe_loop call tag url retry left' (S attempt)
          else if (attempt =? retry)%nat then throw (AxiosExn e url)
          else
            do _ <- sleep (nmul (Num 1000) (Z.of_nat attempt));
            safe_loop call tag url retry left' (S attempt)
      end
  end.

Definition safeGet {B} (get : M (AxiosError + B)) (url : string) (retry : nat)
  : M (option B) :=
  safe_loop get "[GET][Attempt]" url retry retry 1.

Definition safePost {B} (post : M (AxiosError + B)) (url : string) (retry : nat)
  : M (option B) :=
  safe_loop post "[POST][Attempt]" url retry retry 1.

(** [POST /folders] on Panda: the folder is created and the [id] member of
    the body is its id. *)
Definition panda_post_folder (name : string) (parent : option string)
  : M (AxiosError + option string) :=
  attempt W (EPost Panda "/folders" name parent)
    (fun s =>
       let id := panda_new_id W (target s) in
       (Some id,
        {| db := db s; folderMap := folderMap s;
           target := target s ++ [{| pf_id := id; pf_name := name; pf_parent := parent |}];
           tick := tick s; clock := clock s; trace := trace s |})).

Definition findPandaFolder (name : string) (parentFolderId : option string)
  : M (option string) :=
  try_catch
    (do data <- safeGet (panda_get_folders W) "/folders" 3;
     match data with
     | Some (Some folders) =>
         match List.find (folder_matches name parentFolderId) folders with
         | Some found =>
             do _ <- log LLog "[Panda] Pasta encontrada" name;
             ret (Some (pf_id found))
         | None => ret None
         end
     | _ => ret None
     end)
    (fun e =>
       do _ <- log LError "[Panda] Erro ao buscar pasta" name;
       ret None).

Definition createPandaFolder (name : string) (parentFolderId : option string)
  : M (option string) :=
  try_catch
    (let payload_parent := truthy parentFolderId in
     do data <- safePost (panda_post_folder name payload_parent) "/folders" 3;
     match data with
     | Some body =>
         match truthy body with
         | Some id =>
             do _ <- log LLog "[Panda] Pasta criada" name;
             ret (Some id)
         | None =>
             do _ <- log LError "[Panda] Falha ao criar pasta" name;
             ret None
         end
     | None =>
         do _ <- log LError "[Panda] Falha ao criar pasta" name;
         ret None
     end)
    (fun e =>
       do _ <- log LError "[Panda] Erro ao criar pasta" name;
       ret None).

Definition saveVideoMapping (vimeoVideoId : option string)
  (pandaVideoId pandaWebsocketUrl ttl : option string) : M unit :=
  match vimeoVideoId with
  | None => throw (TypeError "path.match")
  | Some path =>
      match formatVimeoUrl path with
      | inl e => throw e
      | inr key =>
          do _ <- execute (insert_mapping key pandaVideoId pandaWebsocketUrl ttl)
                    (EUpsert key pandaVideoId pandaWebsocketUrl ttl);
          log LLog "[DB] Mapeamento salvo" path
      end
  end.


(** [findPandaVideoByVimeoUrl] is called by [processVideosInFolder] and
    defined nowhere. *)
Definition findPandaVideoByVimeoUrl (downloadUrl : string) : M (option PandaVideo) :=
  unbound "findPandaVideoByVimeoUrl".

(** The body of the [for (const video of data.data)] loop. *)
Definition video_step (pandaFolderId : string) (video : Item) : M unit :=
  let ttl := or_else (it_name video) "sem título" in
  match download_url video with
  | None => log LError "[Vimeo] sem link de download" ttl
  | Some downloadUrl =>
      do existingPandaVideo <- findPandaVideoByVimeoUrl downloadUrl;
      match existingPandaVideo with
      | Some pv =>
          do _ <- log LLog "[Match]" ttl;
          saveVideoMapping (it_uri video) (pv_id pv) (pv_websocket_url pv) (Some ttl)
      | None => log LWarn "[No Match]" ttl
      end
  end.

(** What follows the fetch of a page of videos: [data] is what [safeGet]
    returned. *)
Definition videos_page (next_page : string -> M unit) (pandaFolderId : string)
  (data : option Page) : M unit :=
  match data with
  | Some page =>
      match pg_data page with
      | DataArray videos =>
          do _ <- for_of (video_step pandaFolderId) videos;
          match truthy (pg_next page) with
          | Some url => next_page url
          | None => ret tt
          end
      | _ => ret tt
      end
  | None => ret tt
  end.

Fixpoint video_pages (fuel : nat) (pandaFolderId : string) (url : string) : M unit :=
  match fuel with
  | O => out_of_fuel
  | S fuel' =>
      do data <- safeGet (vimeo_get W url) url 3;
      videos_page (video_pages fuel' pandaFolderId) pandaFolderId data
  end.

Definition processVideosInFolder (fuel : nat) (vimeoFolder : Item)
  (pandaFolderId : string) : M unit :=
  match Links.videos_uri vimeoFolder with
  | None => log LLog "[Vimeo] Pasta sem videos" ""
  | Some videosUri => video_pages fuel pandaFolderId (videosUri +:+ "?per_page=100")
  end.

(** [folderMap.set(vimeoUri, pandaFolderId)] *)
Definition folderMap_set (vimeoUri pandaFolderId : string) : M unit :=
  fun s => (Ret tt,
            {| db := db s; folderMap := <[vimeoUri := pandaFolderId]> (folderMap s);
               target := target s; tick := tick s; clock := clock s;
               trace := trace s |}).

(** [folderMap.has(vimeoUri)] with [folderMap.get(vimeoUri)]. *)
Definition folderMap_get (vimeoUri : string) : M (option string) :=
  fun s => (Ret (folderMap s !! vimeoUri), s).

(** The videos of a folder, then its sub-folders. *)
Definition visit (fuel : nat) (recurse : string -> option string -> M unit)
  (folder : Item) (pandaFolderId : string) : M unit :=
  do _ <- processVideosInFolder fuel folder pandaFolderId;
  match Links.items_uri folder with
  | Some subfoldersUri => recurse subfoldersUri (Some pandaFolderId)
  | None => ret tt
  end.

(** The body of the [for (const folder of data.data)] loop. *)
Definition folder_step (fuel : nat) (recurse : string -> option string -> M unit)
  (pandaParentId : option string) (folder : Item) : M unit :=
  let folderName := Links.folder_name folder in
  match Links.folder_uri folder with
  | None => ret tt
  | Some vimeoUri =>
      do cached <- folderMap_get vimeoUri;
      match cached with
      | Some pandaFolderId =>
          do _ <- log LLog "[Cache]" folderName;
          visit fuel recurse folder pandaFolderId
      | None =>
          do found <- findPandaFolder folderName pandaParentId;
          do resolved <-
            match truthy found with
            | Some id => ret (Some id)
            | None =>
                do created <- createPandaFolder folderName pandaParentId;
                ret (truthy created)
            end;
          match resolved with
          | None => log LError "[Erro] Pulando" folderName
          | Some pandaFolderId =>
              do _ <- folderMap_set vimeoUri pandaFolderId;
              visit fuel recurse folder pandaFolderId
          end
      end
  end.

(** What follows the fetch of a page of folders. *)
Definition folders_page (fuel : nat) (recurse : string -> option string -> M unit)
  (next_page : string -> M unit) (pandaParentId : option string)
  (data : option Page) : M unit :=
  match data with
  | Some page =>
      match pg_data page with
      | DataArray folders =>
          do _ <- for_of (folder_step fuel recurse pandaParentId) folders;
          match truthy (pg_next page) with
          | Some url => next_page url
          | None => ret tt
          end
      | _ => ret tt
      end
  | None => ret tt
  end.

Fixpoint folder_pages (fuel : nat) (url : string) (pandaParentId : option string)
  : M unit :=
  match fuel with
  | O => out_of_fuel
  | S fuel' =>
      do data <- safeGet (vimeo_get W url) url 3;
      folders_page fuel'
        (fun uri parent => folder_pages fuel' (uri +:+ "?per_page=100") parent)
        (fun next => folder_pages fuel' next pandaParentId)
        pandaParentId data
  end.

Definition processFolder (fuel : nat) (vimeoFolderUri : string)
  (pandaParentId : option string) : M unit :=
  folder_pages fuel (vimeoFolderUri +:+ "?per_page=100") pandaParentId.

(** The [fields=...] suffix of the root listing. *)
Definition root_fields : string :=
  "&fields=video.allowed_privacies,video.app.uri,video.can_move_to_project,video.config_url,video.created_time,video.duration,video.download.link,video.download.type,video.download.width,video.download.height,video.download.quality,video.download.size,video.download.public_name,video.download.size_short,video.embed.html,video.files_size,video.last_user_action_event_date,video.link,video.manage_link,video.metadata.can_be_replaced,video.metadata.interactions.edit.uri,video.metadata.interactions.delete.uri,video.metadata.interactions.invite.uri,video.metadata.interactions.legal_hold.uri,video.modified_time,video.name,video.pictures.default_picture,video.pictures.uri,video.pictures.sizes,video.password,video.privacy,video.regional_privacies,video.release_time,video.review_page,video.status,video.uploader.pictures,video.uri,video.user.account,video.user.uri,folder.created_time,folder.last_user_action_event_date,folder.name,folder.uri,folder.privacy,folder.is_pinned,folder.is_private_to_user,folder.is_slack_notification_enabled,folder.metadata.connections.items.uri,folder.metadata.connections.items.total,folder.metadata.connections.parent_folder.uri,folder.metadata.connections.videos.uri,folder.metadata.connections.team_members.uri,folder.settings,folder.metadata.interactions.edit,folder.metadata.interactions.edit_settings,folder.metadata.interactions.delete,folder.metadata.interactions.invite,folder.metadata.interactions.move_video,folder.user.uri,folder.use_parent_slack_settings,folder.slack_incoming_webhooks_id,type".

Definition run (fuel : nat) : M unit :=
  try_catch
    (do _ <- processFolder fuel (root_uri W root_fields) None;
     log LLog "Processamento finalizado!" "")
    (fun e => emit (ELogExn "Erro fatal:" e)).

(** [PANDA_UPLOAD_URL] *)
Definition PANDA_UPLOAD_URL : string := "https://import.pandavideo.com:9443/videos".

(** One turn of the loop of [uploadVideoToPanda]: the [try] block and its
    [catch].  [post] is [axios.post(PANDA_UPLOAD_URL, payload, ...)]; its body
    is [res.data] ([None] when there is none).  [Some r] says that the
    function returns [r], [None] that the loop goes round. *)
Definition upload_turn (post : M (AxiosError + option PandaVideo)) (ttl : string)
  (vimeoVideoId : option string) (attempt : nat) : M (option (option PandaVideo)) :=
  try_catch
    (do data <- awaited PANDA_UPLOAD_URL post;
     do _ <- log LLog "[Panda] enviado com sucesso" ttl;
     let pandaVideoId :=
       match data with Some pv => truthy (pv_id pv) | None => None end in
     let pandaWebsocketUrl :=
       match data with Some pv => truthy (pv_websocket_url pv) | None => None end in
     do _ <- log LLog "{vimeoVideoId, pandaVideoId, pandaWebsocketUrl, title}" ttl;
     do _ <- saveVideoMapping vimeoVideoId pandaVideoId pandaWebsocketUrl (Some ttl);
     ret (Some data))
    (fun e =>
       do _ <- log LError "[Panda] Erro upload" ttl;
       if (attempt =? 3)%nat then
         do _ <- log LError "[Panda] Falha definitiva no upload" ttl;
         ret (Some None)
       else
         do _ <- sleep (nmul (Num 1000) (Z.of_nat attempt));
         ret None).

(** The loop of [uploadVideoToPanda]: [attempt] runs from 1 to 3 and [left]
    is [3 - attempt + 1].  The result is [res.data], or [None] for [null]
    (and for the [undefined] after the loop, which no turn leaves to). *)
Fixpoint upload_loop (post : M (AxiosError + option PandaVideo)) (ttl : string)
  (vimeoVideoId : option string) (left attempt : nat) : M (option PandaVideo) :=
  match left with
  | O => ret None
  | S left' =>
      do r <- upload_turn post ttl vimeoVideoId attempt;
      match r with
      | Some result => ret result
      | None => upload_loop post ttl vimeoVideoId left' (S attempt)
      end
  end.

(** [uploadVideoToPanda(folderId, title, description, videoUrl, vimeoVideoId)];
    [folderId], [description] and [videoUrl] only go into the payload of
    [post]. *)
Definition uploadVideoToPanda (post : M (AxiosError + option PandaVideo)) (ttl : string)
  (vimeoVideoId : option string) : M (option PandaVideo) :=
  upload_loop post ttl vimeoVideoId 3 1.

End Program.
End Index.

(** * The sync script (part_000)

    The updates of [syncPandaVideoIds] act on the table of the state; they
    are not recorded in the trace, whose statements are the upserts of the
    other two scripts.  [EPoolEnd] says that the connection has been
    closed. *)
Module Sync.

(** [... WHERE panda_video_id IS NULL] *)
Definition pending (r : Row) : bool := is_null (panda_video_id r).

(** [UPDATE vimeo_panda_videos SET panda_video_id = ? WHERE vimeo_video_id = ?].
    The schema is not in the repository: what an update does to [updated_at]
    is left to [stamp], which gives the new value from the old one and the
    time of the statement. *)
Definition update_panda_id (stamp : Z -> Z -> Z) (pandaId key : string) (now : Z)
  (t : list Row) : list Row :=
  List.map
    (fun r =>
       if has_key key r then
         {| vimeo_video_id := vimeo_video_id r; panda_video_id := Some pandaId;
            panda_websocket_url := panda_websocket_url r; title := title r;
            updated_at := stamp (updated_at r) now |}
       else r)
    t.

(** [`${row.title}`] for a column that can be [NULL]. *)
Definition shown (ttl : option string) : string :=
  match ttl with Some t => t | None => "null" end.

Section Program.
Variable W : World.

(** What Panda answers to [GET /videos] with the title alone: the rows come
    from a select that has no [folder_id] column, so [row.folder_id] is
    [undefined] and axios leaves the parameter out, as it leaves out a
    [null] title.  The [videos] member of the body. *)
Variable search : option string -> option (list PandaVideo).

Variable stamp : Z -> Z -> Z.

(** Whether the store rejects a call the script makes to it, with the
    message of the error: call 0 opens the connection, call 1 is the select,
    call [2 + i] is the update for the [i]-th selected row, and the call
    after those closes the connection. *)
Variable store : nat -> option string.

(** A call to the store.  A rejection is thrown: no [try] of the script
    encloses a call, and [syncPandaVideoIds()] is started without a
    [catch]. *)
Definition store_call (n : nat) : M unit :=
  match store n with
  | Some message => throw (ErrorExn message)
  | None => ret tt
  end.

(** [mysql.createConnection(...)] *)
Definition getDbConnection : M unit := store_call 0.

(** [conn.execute] of the select: the rows as they are at that moment. *)
Definition select_pending : M (list Row) :=
  do _ <- store_call 1;
  fun s => (Ret (List.filter pending (db s)), s).

(** [conn.execute] of the update, as call [n]. *)
Definition execute_update (n : nat) (stmt : Z -> list Row -> list Row) : M unit :=
  do _ <- store_call n;
  fun s => (Ret tt,
            {| db := stmt (clock s) (db s); folderMap := folderMap s;
               target := target s; tick := tick s; clock := clock s;
               trace := trace s |}).

(** [conn.end()], as call [n]. *)
Definition conn_end (n : nat) : M unit :=
  do _ <- store_call n;
  emit EPoolEnd.

Definition title_params (ttl : option string) : list (string * string) :=
  match ttl with Some t => [("title", t)] | None => [] end.

Definition panda_get_by_title (ttl : option string)
  : M (AxiosError + option (list PandaVideo)) :=
  attempt W (EGet Panda "/videos" (title_params ttl)) (reading (fun _ => search ttl)).

(** [findPandaVideoByTitle(row.folder_id, row.title)]: one request, no
    retry; an error is logged and gives [null]. *)
Definition findPandaVideoByTitle (ttl : option string) : M (option PandaVideo) :=
  try_catch
    (do videos <- awaited "/videos" (panda_get_by_title ttl);
     ret (match videos with Some (v :: _) => Some v | _ => None end))
    (fun e =>
       do _ <- log LError "[Panda] Erro ao buscar vídeo" (shown ttl);
       ret None).

(** The body of the [for (const row of rows)] loop; the update is call
    [n] to the store. *)
Definition row_step (n : nat) (row : Row) : M unit :=
  do _ <- log LLog "[Sync] Buscando vídeo" (shown (title row));
  do pandaVideo <- findPandaVideoByTitle (title row);
  do _ <-
    match pandaVideo with
    | Some pv =>
        let formatedPandaId := formatPandaIdToUrl (pv_external_id pv) in
        do _ <- execute_update n
                  (update_panda_id stamp formatedPandaId (vimeo_video_id row));
        log LLog "[Sync] Atualizado com panda_video_id" ""
    | None => log LLog "[Sync] ainda não encontrado no Panda" (shown (title row))
    end;
  sleep (Num 500).

(** The loop over the selected rows; the update of the first one is call
    [n]. *)
Fixpoint for_rows (n : nat) (rows : list Row) : M unit :=
  match rows with
  | [] => ret tt
  | row :: rest => do _ <- row_step n row; for_rows (S n) rest
  end.

Definition syncPandaVideoIds : M unit :=
  do _ <- getDbConnection;
  do rows <- select_pending;
  match rows with
  | [] =>
      do _ <- log LLog "Nenhum vídeo pendente de sincronização." "";
      conn_end 2
  | _ =>
      do _ <- log LLog "[Sync] Encontrados" "";
      do _ <- for_rows 2 rows;
      do _ <- conn_end (2 + length rows);
      log LLog "[Sync] Processo concluído." ""
  end.

End Program.
End Sync.

(** * A small account, used to run the scripts *)
Module Demo.

Definition empty_page : Page := {| pg_data := DataMissing; pg_next := None |}.

Definition video (name uri : string) (links : list Download) : Item :=
  {| it_folder := None; it_name := Some name; it_uri := Some uri;
     it_description := None; it_download := Some links |}.

Definition folder (name uri : string) (videos items : option string) : Item :=
  {| it_folder := Some {| fo_name := Some name; fo_uri := Some uri;
                          fo_videos_uri := videos; fo_items_uri := items |};
     it_name := None; it_uri := None; it_description := None; it_download := None |}.

Definition hd_link (l : string) : list Download :=
  [{| dl_width := Some 1920; dl_link := Some l |}].

(** Vimeo: the root holds the folders A and B; A holds the videos 10 and 11,
    B holds the video 20.  The page size in the query does not change the
    answer.  A third listing, which the root does not reach, has an empty
    first page and the video 30 on its second page. *)
Definition is_root (url : string) : bool :=
  match strip_prefix "/users/42/folders/root?" url with Some _ => true | None => false end.

Definition is_listing (uri url : string) : bool :=
  String.eqb url (uri +:+ "?per_page=50") || String.eqb url (uri +:+ "?per_page=100").

Definition vimeo_data (url : string) : Page :=
  if is_root url then
    {| pg_data := DataArray [folder "A" "/folders/1" (Some "/folders/1/videos") None;
                             folder "B" "/folders/2" (Some "/folders/2/videos") None];
       pg_next := None |}
  else if is_listing "/folders/1/videos" url then
    {| pg_data := DataArray [video "intro" "/videos/10" (hd_link "https://cdn/10.mp4");
                             video "outro" "/videos/11" []];
       pg_next := None |}
  else if is_listing "/folders/2/videos" url then
    {| pg_data := DataArray [video "extra" "/videos/20" []]; pg_next := None |}
  else if is_listing "/folders/3/videos" url then
    {| pg_data := DataArray []; pg_next := Some "/folders/3/videos?page=2" |}
  else if String.eqb url "/folders/3/videos?page=2" then
    {| pg_data := DataArray [video "late" "/videos/30" []]; pg_next := None |}
  else empty_page.

(** Panda: the folders A and B exist at the root; in A there is a video
    titled "intro". *)
Definition panda_folders : list PandaFolder :=
  [{| pf_id := "pa"; pf_name := "A"; pf_parent := None |};
   {| pf_id := "pb"; pf_name := "B"; pf_parent := None |}].

Definition panda_search (folderId ttl : string) : option (list PandaVideo) :=
  if String.eqb folderId "pa" && String.eqb ttl "intro"
  then Some [{| pv_id := Some "p10"; pv_external_id := Str "x10";
                pv_websocket_url := Some "wss://p10" |}]
  else Some [].

Definition fresh_id (fs : list PandaFolder) : string :=
  match length fs with
  | 0%nat => "new0" | 1%nat => "new1" | 2%nat => "new2" | _ => "newN"
  end.

(** The world in which every HTTP attempt that [fails] does not select
    succeeds. *)
Definition world (fails : nat -> NetResult) : World :=
  {| vimeo_user_id := "42"; source := vimeo_data; panda_videos := panda_search;
     panda_new_id := fresh_id; net := fails |}.

Definition always_ok : nat -> NetResult := fun _ => NetOk.

Definition http_error (status : Z) (retry_after : option string) : AxiosError :=
  {| err_status := Some status; err_retry_after := retry_after; err_code := None;
     err_message := "Request failed" |}.

(** Every attempt is answered 429, with [retry-after: 2]. *)
Definition always_limited : nat -> NetResult :=
  fun _ => NetFail (http_error 429 (Some "2")).

(** The first two attempts are answered 429, with [retry-after: 2]. *)
Definition limited_twice : nat -> NetResult :=
  fun n => if (n <? 2)%nat then NetFail (http_error 429 (Some "2")) else NetOk.

(** The attempts from [a] to [b] are answered with an HTTP error. *)
Definition failing (status : Z) (a b : nat) : nat -> NetResult :=
  fun n => if (a <=? n)%nat && (n <=? b)%nat then NetFail (http_error status None)
           else NetOk.

(** The state a run starts in: an empty cache and trace, the given table
    and Panda folders. *)
Definition start (table : list Row) (folders : list PandaFolder) : State :=
  {| db := table; folderMap := ∅; target := folders; tick := 0; clock := 0;
     trace := [] |}.

(** The table after a first run of getVimeoPandaLinks.js on this account. *)
Definition mapped : list Row :=
  [{| vimeo_video_id := "https://player.vimeo.com/video/10";
      panda_video_id :=
        Some "https://player-vz-4cab7bf9-47f.tv.pandavideo.com.br/embed/?v=x10";
      panda_websocket_url := None; title := Some "intro"; updated_at := 0 |}].

Definition reset_error : AxiosError :=
  {| err_status := None; err_retry_after := None; err_code := Some "ECONNRESET";
     err_message := "socket hang up" |}.

(** The connection is dropped on the first [n] attempts. *)
Definition resets (n : nat) : nat -> NetResult :=
  fun i => if (i <? n)%nat then NetFail reset_error else NetOk.

(** The import endpoint of Panda accepting a video: the request is recorded
    with the title and the folder, and the body carries the new video. *)
Definition uploaded : PandaVideo :=
  {| pv_id := Some "p30"; pv_external_id := Str "x30";
     pv_websocket_url := Some "wss://p30" |}.

Definition upload (W : World) (folderId ttl : string) : M (AxiosError + option PandaVideo) :=
  attempt W (EPost Panda Index.PANDA_UPLOAD_URL ttl (Some folderId))
    (reading (fun _ => Some uploaded)).

(** The table with one more row, which has no Panda id yet, and what Panda
    answers to a search by title alone. *)
Definition half_mapped : list Row :=
  mapped ++ [{| vimeo_video_id := "https://player.vimeo.com/video/11";
                panda_video_id := None; panda_websocket_url := None;
                title := Some "outro"; updated_at := 0 |}].

Definition by_title (ttl : option string) : option (list PandaVideo) :=
  match ttl with
  | Some t =>
      if String.eqb t "outro"
      then Some [{| pv_id := Some "p11"; pv_external_id := Str "x11";
                    pv_websocket_url := None |}]
      else Some []
  | None => Some []
  end.

(** A table that leaves [updated_at] alone on an update. *)
Definition keep_stamp (old now : Z) : Z := old.



(** A store that rejects no call. *)
Definition store_ok : nat -> option string := fun _ => None.

(** A Vimeo whose listings carry an object where the array should be. *)
Definition odd_world : World :=
  {| vimeo_user_id := "42";
     source := fun _ => {| pg_data := DataOther; pg_next := None |};
     panda_videos := panda_search; panda_new_id := fresh_id; net := always_ok |}.

End Demo.

(** * Vocabulary of the statements *)

Definition preserves (R : relation State) {A} (c : M A) : Prop :=
  forall s, R s (snd (c s)).

(** A computation that never returns normally. *)
Definition never_returns {A} (c : M A) : Prop :=
  forall s a s', c s <> (Ret a, s').

(** The state differs from [s] only in what requests, logs and waits
    change: the attempt counter, the clock and the trace. *)
Definition same_data (s s' : State) : Prop :=
  db s' = db s /\ target s' = target s /\ folderMap s' = folderMap s.


(** [s] after [ticks] more HTTP attempts, [ms] more milliseconds of waiting
    and the events [evs]. *)
Definition after (s : State) (ticks : nat) (ms : Z) (evs : list Event) : State :=
  {| db := db s; folderMap := folderMap s; target := target s;
     tick := (ticks + tick s)%nat; clock := clock s + ms;
     trace := (trace s ++ evs)%list |}.

(** The waits recorded in a trace. *)
Definition is_sleep (e : Event) : bool :=
  match e with ESleep _ => true | _ => false end.

Definition sleeps (tr : list Event) : list Event := List.filter is_sleep tr.

(** The computation needs no fuel: it ends by returning or throwing. *)
Definition total {A} (c : M A) : Prop := forall s, fst (c s) <> OutOfFuel.

(** The folders of the account named [name] under [parent]. *)
Definition folders_named (name : string) (parent : option string)
  (fs : list PandaFolder) : list PandaFolder :=
  List.filter (folder_matches name parent) fs.

(** Whether the trace has a request to Vimeo for [url]. *)
Definition requested (url : string) (tr : list Event) : bool :=
  existsb (fun e => match e with
                    | EGet Vimeo u _ => String.eqb u url
                    | _ => false
                    end) tr.

Definition is_unbound (e : Event) : bool :=
  match e with EUnbound _ => true | _ => false end.

(** No unbound identifier is evaluated in [evs]. *)
Definition calm (evs : list Event) : Prop :=
  forallb (fun e => negb (is_unbound e)) evs = true.

Definition is_reference_error {A} (r : Outcome A) : Prop :=
  exists x, r = Throw (ReferenceError x).

(** The computation evaluates no unbound identifier and throws no
    [ReferenceError]. *)
Definition clean {A} (c : M A) : Prop :=
  forall s, exists evs,
    trace (snd (c s)) = (trace s ++ evs)%list /\ calm evs
    /\ ~ is_reference_error (fst (c s)).

(** If the computation evaluates an unbound identifier, that is the last
    thing it does, and it ends by throwing the [ReferenceError]; the
    identifier is [findPandaVideoByVimeoUrl]. *)
Definition raises_last {A} (c : M A) : Prop :=
  forall s, exists evs,
    trace (snd (c s)) = (trace s ++ evs)%list
    /\ ((calm evs /\ ~ is_reference_error (fst (c s)))
        \/ (exists evs0,
              evs = (evs0 ++ [EUnbound "findPandaVideoByVimeoUrl"])%list /\ calm evs0
              /\ fst (c s) = Throw (ReferenceError "findPandaVideoByVimeoUrl"))).

(** The table and the Panda folders are as they were and no statement has
    been added to the trace. *)
Definition still (s s' : State) : Prop :=
  db s' = db s /\ target s' = target s /\ writes (trace s') = writes (trace s).

(** The table is as it was and no statement has been added to the trace. *)
Definition readonly (s s' : State) : Prop :=
  db s' = db s /\ writes (trace s') = writes (trace s).

(** The keys of the table are still there and the Panda folders are as they
    were. *)
Definition grows (s s' : State) : Prop :=
  (forall k, key_exists k (db s) = true -> key_exists k (db s') = true)
  /\ target s' = target s.

(** The computation leaves table, folders and statements alone, and what
    it returns is [f] of the Panda folders. *)
Definition reads {A} (c : M A) (f : list PandaFolder -> A) : Prop :=
  forall s, still s (snd (c s)) /\ forall v, fst (c s) = Ret v -> v = f (target s).

Definition found_folder (name : string) (parent : option string)
  (fs : list PandaFolder) : option string :=
  match List.find (folder_matches name parent) fs with
  | Some f => Some (pf_id f)
  | None => None
  end.

Definition first_video (vs : option (list PandaVideo)) : option PandaVideo :=
  match vs with Some (v :: _) => Some v | _ => None end.

(** What is left of the step for a video whose key is not in the table. *)
Definition reconcile_new (W : World) (pandaFolderId ttl vimeoVideoUrl : string) : M unit :=
  do pandaVideo <- Links.findPandaVideoByTitle W pandaFolderId ttl;
  do _ <-
    match pandaVideo with
    | Some pv =>
        let pandaVideoUrl := formatPandaIdToUrl (pv_external_id pv) in
        do _ <- execute (Links.insert_mapping vimeoVideoUrl pandaVideoUrl ttl)
                  (EUpsert vimeoVideoUrl (Some pandaVideoUrl) None (Some ttl));
        log LLog "[MAP]" ttl
    | None => log LWarn "[MISS]" ttl
    end;
  sleep (Num 300).

(** [c1] is what the first run does and [c2] what the second run does at
    the same place, in a state whose table has the keys the first run ended
    with: the second run leaves the table alone, and when it returns it
    returns what the first returned. *)
Definition sim {A} (c1 c2 : M A) : Prop :=
  forall s1 v s1' s2,
    c1 s1 = (Ret v, s1') -> grows s1' s2 ->
    still s2 (snd (c2 s2)) /\ forall v', fst (c2 s2) = Ret v' -> v' = v.

(** The error is one that [axiosVimeoRetry] answers with its 2 s backoff: a
    connection reset or timed out, and not a 429. *)
Definition is_reset (e : AxiosError) : bool :=
  negb (status_is 429 e) && (code_is "ECONNRESET" e || code_is "ETIMEDOUT" e).

(** The error is not a 429. *)
Definition not_429 (e : AxiosError) : bool := negb (status_is 429 e).

(** The [k] HTTP attempts from the [t]-th of the run on all fail, each with
    an error that [p] accepts. *)
Definition failing_from (W : World) (p : AxiosError -> bool) (t k : nat) : Prop :=
  forall i, (i < k)%nat -> exists e, net W (t + i)%nat = NetFail e /\ p e = true.

(** A row as getVimeoPandaLinks.js writes it: the key is the player URL of
    some reference, the Panda id is an embed URL, there is no streaming
    reference and the title is not empty. *)
Definition mapped_row (r : Row) : Prop :=
  (exists uri, Links.formatVimeoUrl uri = Some (vimeo_video_id r))
  /\ (exists videoId, panda_video_id r = Some (formatPandaIdToUrl videoId))
  /\ panda_websocket_url r = None
  /\ (exists ttl, title r = Some ttl /\ ttl <> "").

(** The statement that writes the row. *)
Definition statement_of (r : Row) : Event :=
  EUpsert (vimeo_video_id r) (panda_video_id r) (panda_websocket_url r) (title r).

(** The table has only been added to, at its end, one statement for each
    new row, under keys that were not there; the Panda folders are as they
    were. *)
Definition appends (s s' : State) : Prop :=
  exists added,
    db s' = (db s ++ added)%list
    /\ Forall mapped_row added
    /\ (forall r, In r added -> key_exists (vimeo_video_id r) (db s) = false)
    /\ List.NoDup (keys added)
    /\ writes (trace s') = (writes (trace s) ++ List.map statement_of added)%list
    /\ target s' = target s.

(** The cache of index.js is as it was, and the folders of Panda are the
    ones there were, followed by new ones. *)
Definition keeps_cache (s s' : State) : Prop :=
  folderMap s' = folderMap s /\ exists created, target s' = (target s ++ created)%list.

(** The cache of index.js has kept its entries; an entry it has gained is
    not the empty id; the folders of Panda are the ones there were, followed
    by new ones. *)
Definition caches (s s' : State) : Prop :=
  folderMap s ⊆ folderMap s'
  /\ (forall uri id, folderMap s' !! uri = Some id -> folderMap s !! uri = None -> id <> "")
  /\ exists created, target s' = (target s ++ created)%list.

(** What the sync script may do to a row of the table [t0] it started from:
    leave it, or give it an embed URL as Panda id when a row of [t0] under
    the same key had none; key, streaming reference and title stay. *)
Definition touched (t0 : list Row) (r r' : Row) : Prop :=
  r' = r
  \/ (vimeo_video_id r' = vimeo_video_id r
      /\ (exists videoId, panda_video_id r' = Some (formatPandaIdToUrl videoId))
      /\ panda_websocket_url r' = panda_websocket_url r
      /\ title r' = title r
      /\ exists p, In p t0 /\ Sync.pending p = true
                   /\ vimeo_video_id p = vimeo_video_id r).

(** The keys of the rows without a Panda id. *)
Definition pending_keys (t : list Row) : list string := keys (List.filter Sync.pending t).

(** The number [x] is the integer [n] as the scripts' arithmetic holds it:
    [n] itself, or, from 2^53 on, where a double need not be [n], a number
    or infinity on the same side and also at least 2^53 away from 0. *)
Definition near (x : Number) (n : Z) : Prop :=
  x = Num n
  \/ (two53 <= n /\ (x = Infinity false \/ exists y, x = Num y /\ two53 <= y))
  \/ (n <= - two53 /\ (x = Infinity true \/ exists y, x = Num y /\ y <= - two53)).

(** The time the timers of the first [k] turns of a loop take, when the
    delay asked at turn [i] is [delay i]. *)
Fixpoint total_wait (delay : nat -> Number) (k : nat) : Z :=
  match k with
  | O => 0
  | S k' => total_wait delay k' + timer (delay k')
  end.

(** What a run of the sync script, or a part of it, can have done when it
    ends, by returning or by a rejection of the store: [n] requests at most,
    the table only filled in; and exactly [n] requests with 500 ms after each
    when the store rejects nothing. *)
Definition filled (store : nat -> option string) (t0 : list Row) (n : nat) (s : State)
  (r : Outcome unit * State) : Prop :=
  Forall2 (touched t0) (db s) (db (snd r))
  /\ (tick (snd r) <= n + tick s)%nat
  /\ target (snd r) = target s /\ folderMap (snd r) = folderMap s
  /\ (fst r = Ret tt \/ exists i message, store i = Some message
                                          /\ fst r = Throw (ErrorExn message))
  /\ ((forall i, store i = None) ->
      fst r = Ret tt /\ tick (snd r) = (n + tick s)%nat
      /\ clock (snd r) = clock s + 500 * Z.of_nat n).

(** [first] is the entry of [links] that [sort_by_width] puts in front: no
    entry is wider, and the entries before it are narrower. *)
Definition widest_first (links : list Download) (first : Download) : Prop :=
  exists before after,
    links = (before ++ first :: after)%list
    /\ (forall d, In d before -> Index.width_of d < Index.width_of first)
    /\ (forall d, In d after -> Index.width_of d <= Index.width_of first).

(** * Properties *)

(** ** The monad *)

Lemma bind_Ret_inv {A B} (c : M A) (k : A -> M B) s b s' :
  bind c k s = (Ret b, s') ->
  exists a sm, c s = (Ret a, sm) /\ k a sm = (Ret b, s').
Proof.
  unfold bind. destruct (c s) as [[a | e |] sm]; intros H; try discriminate.
  exists a, sm. split; [reflexivity | exact H].
Qed.

Lemma bind_Ret {A B} (c : M A) (k : A -> M B) s a sm :
  c s = (Ret a, sm) -> bind c k s = k a sm.
Proof. unfold bind. intros ->. reflexivity. Qed.

Lemma bind_Throw {A B} (c : M A) (k : A -> M B) s e sm :
  c s = (Throw e, sm) -> bind c k s = (Throw e, sm).
Proof. unfold bind. intros ->. reflexivity. Qed.

Lemma bind_OutOfFuel {A B} (c : M A) (k : A -> M B) s sm :
  c s = (OutOfFuel, sm) -> bind c k s = (OutOfFuel, sm).
Proof. unfold bind. intros ->. reflexivity. Qed.

(** A loop over [pre ++ x :: post] whose body throws at [x], after [pre]
    went through, throws there: [post] is not run. *)
Lemma for_of_throws {A} (body : A -> M unit) pre x post s s1 e s2 :
  for_of body pre s = (Ret tt, s1) ->
  body x s1 = (Throw e, s2) ->
  for_of body (pre ++ x :: post) s = (Throw e, s2).
Proof.
  revert s. induction pre as [| y pre IH]; intros s Hpre Hx; simpl in *.
  - injection Hpre as <-. apply bind_Throw. exact Hx.
  - apply bind_Ret_inv in Hpre as ([] & sm & Hy & Hrest).
    rewrite (bind_Ret _ _ _ _ _ Hy). apply IH; assumption.
Qed.

(** *** Relations between the state before and after a computation *)

Section Preserves.
Context (R : relation State) `{!PreOrder R}.

Lemma preserves_ret {A} (a : A) : preserves R (ret a).
Proof. intros s. simpl. reflexivity. Qed.

Lemma preserves_throw {A} e : preserves R (@throw A e).
Proof. intros s. simpl. reflexivity. Qed.

Lemma preserves_out_of_fuel {A} : preserves R (@out_of_fuel A).
Proof. intros s. simpl. reflexivity. Qed.

Lemma preserves_bind {A B} (c : M A) (k : A -> M B) :
  preserves R c -> (forall a, preserves R (k a)) -> preserves R (bind c k).
Proof.
  intros Hc Hk s. unfold bind. specialize (Hc s).
  destruct (c s) as [[a | e |] sm]; simpl in *; try exact Hc.
  etransitivity; [exact Hc | apply Hk].
Qed.

Lemma preserves_try_catch {A} (c : M A) (h : Exn -> M A) :
  preserves R c -> (forall e, preserves R (h e)) -> preserves R (try_catch c h).
Proof.
  intros Hc Hh s. unfold try_catch. specialize (Hc s).
  destruct (c s) as [[a | e |] sm]; simpl in *; try exact Hc.
  etransitivity; [exact Hc | apply Hh].
Qed.

Lemma preserves_for_of {A} (body : A -> M unit) (l : list A) :
  (forall x, preserves R (body x)) -> preserves R (for_of body l).
Proof.
  intros Hb. induction l as [| x l IH]; simpl.
  - apply preserves_ret.
  - apply preserves_bind; [apply Hb | intros _; exact IH].
Qed.

End Preserves.

Lemma preserves_bind_never (R : relation State) {A B} (c : M A) (k : A -> M B) :
  never_returns c -> preserves R c -> preserves R (bind c k).
Proof.
  intros Hn Hc s. unfold bind. specialize (Hc s). specialize (Hn s).
  destruct (c s) as [[a | e |] sm]; simpl in *; try exact Hc.
  exfalso. exact (Hn a sm eq_refl).
Qed.

(** ** Strings *)


Lemma strip_prefix_Some (p s r : string) : strip_prefix p s = Some r -> s = p +:+ r.
Proof.
  revert s. induction p as [| a p IH]; intros s; simpl.
  - intros [= ->]. reflexivity.
  - destruct s as [| b s]; [discriminate |].
    destruct (Ascii.eqb a b) eqn:E; [| discriminate].
    apply Ascii.eqb_eq in E as ->. intros H.
    change (String b s = String b (p +:+ r)). f_equal. apply IH. exact H.
Qed.



(** ** Numbers and timers *)

Lemma round_even_big a : two53 <= a -> two53 <= round_even a.
Proof.
  intros Ha. unfold round_even.
  assert (H53 : 53 <= Z.log2 a).
  { change 53 with (Z.log2 two53). apply Z.log2_le_mono. exact Ha. }
  assert (Hpos : 0 < a) by (unfold two53 in Ha; lia).
  destruct (Z.log2_spec a Hpos) as [Hlo _].
  set (e := Z.log2 a - 52) in *.
  assert (He : 1 <= e) by (unfold e; lia).
  replace (Z.log2 a) with (52 + e) in Hlo by (unfold e; lia).
  rewrite Z.pow_add_r in Hlo by lia.
  rewrite Z.shiftr_div_pow2 by lia.
  assert (H2e : 2 <= 2 ^ e).
  { change 2 with (2 ^ 1) at 1. apply Z.pow_le_mono_r; lia. }
  assert (Hq : 2 ^ 52 <= a / 2 ^ e).
  { apply Z.div_le_lower_bound; lia. }
  set (q := a / 2 ^ e) in *.
  match goal with |- _ <= Z.shiftl ?q' e => assert (Hq' : q <= q') end.
  { destruct (_ || _); lia. }
  match goal with |- _ <= Z.shiftl ?q' e => generalize dependent q' end.
  intros q' Hq'. rewrite Z.shiftl_mul_pow2 by lia.
  change two53 with (2 ^ 52 * 2). nia.
Qed.

Lemma to_double_small z : Z.abs z < two53 -> to_double z = Num z.
Proof. intros H. unfold to_double. apply Z.ltb_lt in H. rewrite H. reflexivity. Qed.

Lemma to_double_near n : near (to_double n) n.
Proof.
  unfold to_double. destruct (Z.abs n <? two53) eqn:E; [left; reflexivity |].
  apply Z.ltb_ge in E. pose proof (round_even_big (Z.abs n) E) as Hm.
  destruct (n <? 0) eqn:Hn.
  - apply Z.ltb_lt in Hn. right. right. split; [lia |].
    destruct (two1024 <=? round_even (Z.abs n)); [left; reflexivity |].
    right. eexists. split; [reflexivity | lia].
  - apply Z.ltb_ge in Hn. right. left. split; [lia |].
    destruct (two1024 <=? round_even (Z.abs n)); [left; reflexivity |].
    right. eexists. split; [reflexivity | lia].
Qed.

Lemma nmul_near x n b : 1 <= b -> near x n -> near (nmul x b) (n * b).
Proof.
  intros Hb [-> | [(Hn & Hx) | (Hn & Hx)]].
  - apply to_double_near.
  - right. left. unfold two53 in *. split; [nia |].
    destruct Hx as [-> | (y & -> & Hy)]; unfold nmul.
    + replace (b =? 0) with false by (symmetry; apply Z.eqb_neq; lia).
      replace (b <? 0) with false by (symmetry; apply Z.ltb_ge; lia).
      left. reflexivity.
    + destruct (to_double_near (y * b)) as [E | [(_ & E) | (Hneg & _)]].
      * right. exists (y * b). split; [exact E | fold two53; unfold two53; nia].
      * exact E.
      * unfold two53 in Hneg. nia.
  - right. right. unfold two53 in *. split; [nia |].
    destruct Hx as [-> | (y & -> & Hy)]; unfold nmul.
    + replace (b =? 0) with false by (symmetry; apply Z.eqb_neq; lia).
      replace (b <? 0) with false by (symmetry; apply Z.ltb_ge; lia).
      left. reflexivity.
    + destruct (to_double_near (y * b)) as [E | [(Hpos & _) | (_ & E)]].
      * right. exists (y * b). split; [exact E | fold two53; unfold two53; nia].
      * unfold two53 in Hpos. nia.
      * exact E.
Qed.

Lemma timer_near x n : near x n -> timer x = timer (Num n).
Proof.
  intros [-> | [(Hn & Hx) | (Hn & Hx)]]; [reflexivity | |]; unfold two53 in *.
  - assert (E : timer (Num n) = 1).
    { simpl. destruct (1 <=? n) eqn:E1, (n <=? 2147483647) eqn:E2; simpl; try reflexivity.
      apply Z.leb_le in E2. lia. }
    rewrite E. destruct Hx as [-> | (y & -> & Hy)]; [reflexivity |]. simpl.
    destruct (1 <=? y) eqn:E1, (y <=? 2147483647) eqn:E2; simpl; try reflexivity.
    apply Z.leb_le in E2. lia.
  - assert (E : timer (Num n) = 1).
    { simpl. destruct (1 <=? n) eqn:E1; simpl; [| reflexivity].
      apply Z.leb_le in E1. lia. }
    rewrite E. destruct Hx as [-> | (y & -> & Hy)]; [reflexivity |]. simpl.
    destruct (1 <=? y) eqn:E1; simpl; [| reflexivity].
    apply Z.leb_le in E1. lia.
Qed.

Lemma near_small x n : near x n -> Z.abs n < two53 -> x = Num n.
Proof. intros [-> | [(Hn & _) | (Hn & _)]] H; [reflexivity | lia | lia]. Qed.

Lemma timer_in_range z : 1 <= z <= 2147483647 -> timer (Num z) = z.
Proof.
  intros [H1 H2]. simpl. apply Z.leb_le in H1, H2. rewrite H1, H2. reflexivity.
Qed.

Lemma timer_nmul x b : timer (nmul (Num x) b) = timer (Num (x * b)).
Proof. apply timer_near. unfold nmul. apply to_double_near. Qed.

(** ** The retry loops, seen from the data they return *)

#[local] Instance same_data_preorder : PreOrder same_data.
Proof.
  split.
  - intros s. repeat split.
  - intros a b c (H1 & H2 & H3) (H4 & H5 & H6). unfold same_data.
    rewrite H4, H5, H6. auto.
Qed.

Lemma same_data_emit e : preserves same_data (emit e).
Proof. intros s. repeat split. Qed.

Lemma same_data_log lvl tag arg : preserves same_data (log lvl tag arg).
Proof. apply same_data_emit. Qed.

Lemma same_data_sleep ms : preserves same_data (sleep ms).
Proof. intros s. repeat split. Qed.

(** An attempt of a reading request returns the body computed at a state
    with the data of the state it started in. *)
Lemma attempt_reading {B} W ev (body : State -> B) s r s' :
  attempt W ev (reading body) s = (r, s') ->
  same_data s s' /\ tick s' = S (tick s)
  /\ (forall b, r = Ret (inr b) -> exists s0, same_data s s0 /\ b = body s0).
Proof.
  unfold attempt, reading. destruct (net W (tick s)); intros [= <- <-].
  - repeat split. intros b [= <-]. eexists. split; [| reflexivity]. repeat split.
  - repeat split. intros b [=].
Qed.

Lemma safe_loop_reading {B} W ev (body : State -> B) tag url retry left attempt_ s b s' :
  Index.safe_loop (attempt W ev (reading body)) tag url retry left attempt_ s
    = (Ret (Some b), s') ->
  exists s0, same_data s s0 /\ b = body s0.
Proof.
  revert attempt_ s. induction left as [| left IH]; intros attempt_ s; simpl.
  - intros [=].
  - unfold bind at 1.
    destruct (attempt W ev (reading body) s) as [r s1] eqn:E.
    apply attempt_reading in E as (Hd & _ & Hb).
    destruct r as [[e | b1] | e |]; try (intros [=]; fail).
    + unfold bind at 1. simpl.
      destruct (status_is 429 e).
      * unfold bind at 1. simpl. unfold bind at 1. simpl. intros H.
        apply IH in H as (s0 & Hs0 & ->). exists s0. split; [| reflexivity].
        etransitivity; [exact Hd |].
        etransitivity; [| exact Hs0]. repeat split.
      * destruct (attempt_ =? retry)%nat; [intros [=] |].
        unfold bind at 1. simpl. intros H.
        apply IH in H as (s0 & Hs0 & ->). exists s0. split; [| reflexivity].
        etransitivity; [exact Hd |].
        etransitivity; [| exact Hs0]. repeat split.
    + intros [= <- <-]. destruct (Hb b1 eq_refl) as (s0 & Hs0 & ->).
      exists s0. split; [exact Hs0 | reflexivity].
Qed.

(** ** C8: folder resolution *)

Lemma strict_or_null_eq (a b : option string) :
  strict_eq a b || (is_null a && is_null b) = true <-> a = b.
Proof.
  destruct a as [x |], b as [y |]; simpl; split; try discriminate; try reflexivity.
  - rewrite orb_false_r. intros H. apply String.eqb_eq in H as ->. reflexivity.
  - intros [= ->]. rewrite String.eqb_refl. reflexivity.
Qed.

Lemma folder_matches_spec name parent f :
  folder_matches name parent f = true <-> pf_name f = name /\ pf_parent f = parent.
Proof.
  unfold folder_matches. rewrite andb_true_iff, String.eqb_eq, strict_or_null_eq.
  reflexivity.
Qed.

Lemma find_folder_matches name parent fs f :
  List.find (folder_matches name parent) fs = Some f ->
  In f fs /\ pf_name f = name /\ pf_parent f = parent.
Proof.
  intros H. apply List.find_some in H as [Hin Hm].
  apply folder_matches_spec in Hm. tauto.
Qed.

(** C8. When [findPandaFolder] (either script) answers with an id, that id
    belongs to a folder of the Panda account whose name is [name] exactly and
    whose parent is [parent] exactly ([None], the null parent, only equals
    [None]); a folder with any other parent, named alike or not, is rejected
    by the search. *)
Theorem findPandaFolder_exact (W : World) (name : string) (parent : option string)
  (s s' : State) (id : string) :
  Links.findPandaFolder W name parent s = (Ret (Some id), s')
  \/ Index.findPandaFolder W name parent s = (Ret (Some id), s') ->
  (exists f, In f (target s) /\ pf_id f = id /\ pf_name f = name /\ pf_parent f = parent)
  /\ (forall g, pf_parent g <> parent -> folder_matches name parent g = false).
Proof.
  intros H. split.
  - destruct H as [H | H].
    + unfold Links.findPandaFolder, awaited, panda_get_folders in H.
      apply bind_Ret_inv in H as (folders & sm & H1 & H2).
      apply bind_Ret_inv in H1 as (r & s1 & H1 & H3).
      apply attempt_reading in H1 as (_ & _ & Hb).
      destruct r as [e | b]; [discriminate H3 |].
      injection H3 as -> <-.
      destruct (Hb folders eq_refl) as (s0 & (_ & Ht & _) & ->).
      rewrite Ht in H2.
      destruct (List.find (folder_matches name parent) (target s)) as [f |] eqn:E;
        [| discriminate H2].
      injection H2 as <- _. apply find_folder_matches in E. exists f. tauto.
    + unfold Index.findPandaFolder, try_catch in H.
      destruct (bind _ _ s) as [[a | e |] sm] eqn:E in H; try discriminate H.
      injection H as -> ->.
      apply bind_Ret_inv in E as (data & s1 & H1 & H2).
      unfold Index.safeGet, panda_get_folders in H1.
      destruct data as [[folders |] |]; try discriminate H2.
      apply safe_loop_reading in H1 as (s0 & (_ & Ht & _) & [= ->]).
      rewrite Ht in H2.
      destruct (List.find (folder_matches name parent) (target s)) as [f |] eqn:Ef;
        [| discriminate H2].
      apply bind_Ret_inv in H2 as (_ & _ & _ & [= <- _]).
      apply find_folder_matches in Ef. exists f. tauto.
  - intros g Hg. destruct (folder_matches name parent g) eqn:E; [| reflexivity].
    apply folder_matches_spec in E as [_ E]. contradiction.
Qed.

Lemma findPandaFolder_exact_witness :
  (exists f, In f Demo.panda_folders /\ pf_id f = "pa" /\ pf_name f = "A"
             /\ pf_parent f = None)
  /\ (forall g, pf_parent g <> None -> folder_matches "A" None g = false).
Proof.
  refine (findPandaFolder_exact (Demo.world Demo.always_ok) "A" None
            (Demo.start [] Demo.panda_folders) _ "pa" (or_introl _)).
  vm_compute. reflexivity.
Defined.

(** ** C2: the upsert *)



Section Upsert.
Variables (k : string) (fresh : Row) (upd : Row -> Row).
Hypothesis fresh_key : vimeo_video_id fresh = k.
Hypothesis upd_key : forall r, vimeo_video_id (upd r) = vimeo_video_id r.


Lemma has_key_upd k' r : has_key k' (upd r) = has_key k' r.
Proof. unfold has_key. rewrite upd_key. reflexivity. Qed.


Lemma keys_upsert t :
  keys (upsert k fresh upd t) = if key_exists k t then keys t else (keys t ++ [k])%list.
Proof.
  unfold key_exists. induction t as [| r t IH]; simpl.
  - rewrite fresh_key. reflexivity.
  - destruct (has_key k r) eqn:E; simpl.
    + rewrite upd_key. reflexivity.
    + rewrite IH. destruct (existsb (has_key k) t); reflexivity.
Qed.

Lemma key_exists_spec k' t : key_exists k' t = true <-> In k' (keys t).
Proof.
  unfold key_exists, keys. rewrite existsb_exists, in_map_iff. unfold has_key.
  split; intros (r & H1 & H2); exists r.
  - apply String.eqb_eq in H2. tauto.
  - rewrite String.eqb_eq. tauto.
Qed.



(** A statement on another key leaves the rows under [k'] alone. *)
Lemma rows_of_upsert_other k' t : k' <> k -> rows_of k' (upsert k fresh upd t) = rows_of k' t.
Proof.
  intros Hne. induction t as [| r t IH]; simpl.
  - unfold has_key. rewrite fresh_key.
    destruct (String.eqb k k') eqn:E; [| reflexivity].
    apply String.eqb_eq in E. congruence.
  - destruct (has_key k r) eqn:E; simpl.
    + rewrite has_key_upd.
      assert (Hr : has_key k' r = false).
      { unfold has_key in *. apply String.eqb_eq in E. rewrite E.
        apply String.eqb_neq. congruence. }
      rewrite Hr. reflexivity.
    + rewrite IH. reflexivity.
Qed.

End Upsert.

(** ** The retry loops, step by step *)

Lemma attempt_fails {B} W ev (serve : State -> B * State) s e :
  net W (tick s) = NetFail e ->
  attempt W ev serve s = (Ret (inl e), after s 1 0 [ev]).
Proof.
  intros H. unfold attempt, after. rewrite H. simpl. rewrite Z.add_0_r. reflexivity.
Qed.

Lemma after_after s a1 m1 e1 a2 m2 e2 :
  after (after s a1 m1 e1) a2 m2 e2 = after s (a2 + a1) (m1 + m2) (e1 ++ e2)%list.
Proof.
  unfold after. simpl. f_equal; [lia | lia | apply eq_sym, app_assoc].
Qed.

Lemma log_after lvl tag arg s : log lvl tag arg s = (Ret tt, after s 0 0 [ELog lvl tag arg]).
Proof. unfold log, emit, after. simpl. rewrite Z.add_0_r. reflexivity. Qed.

Lemma sleep_after ms s : sleep ms s = (Ret tt, after s 0 (timer ms) [ESleep ms]).
Proof. reflexivity. Qed.

(** A 429 in [axiosVimeoRetry]: warn, wait [rate_limit_wait], go round. *)
Lemma retry_loop_429 W url retries left attempt_ s err :
  net W (tick s) = NetFail err -> status_is 429 err = true ->
  Links.retry_loop W url retries (S left) attempt_ s
  = Links.retry_loop W url retries left (S attempt_)
      (after s 1 (timer (Links.rate_limit_wait err attempt_))
         [EGet Vimeo url []; ELog LWarn "[RATE LIMIT]" "";
          ESleep (Links.rate_limit_wait err attempt_)]).
Proof.
  intros Hnet H429. simpl. unfold vimeo_get.
  rewrite (bind_Ret _ _ _ _ _ (attempt_fails W _ _ s err Hnet)).
  rewrite H429.
  rewrite (bind_Ret _ _ _ _ _ (log_after _ _ _ _)).
  rewrite (bind_Ret _ _ _ _ _ (sleep_after _ _)).
  rewrite !after_after. reflexivity.
Qed.

(** A 429 in [safeGet] and [safePost]. *)
Lemma safe_loop_429 {B} W ev (serve : State -> B * State) tag url retry left attempt_ s err :
  net W (tick s) = NetFail err -> status_is 429 err = true ->
  Index.safe_loop (attempt W ev serve) tag url retry (S left) attempt_ s
  = Index.safe_loop (attempt W ev serve) tag url retry left (S attempt_)
      (after s 1 (timer (Index.rate_limit_wait err attempt_))
         [ev; ELog LError tag url; ELog LWarn "Rate limit (429)" "";
          ESleep (Index.rate_limit_wait err attempt_)]).
Proof.
  intros Hnet H429. simpl.
  rewrite (bind_Ret _ _ _ _ _ (attempt_fails W _ _ s err Hnet)).
  rewrite (bind_Ret _ _ _ _ _ (log_after _ _ _ _)).
  rewrite H429.
  rewrite (bind_Ret _ _ _ _ _ (log_after _ _ _ _)).
  rewrite (bind_Ret _ _ _ _ _ (sleep_after _ _)).
  rewrite !after_after. reflexivity.
Qed.

(** Every turn of either loop makes one attempt, whatever branch it takes:
    the attempts of a call are at most [retries]. *)
Lemma retry_loop_attempts W url retries left attempt_ s :
  (tick (snd (Links.retry_loop W url retries left attempt_ s)) <= tick s + left)%nat.
Proof.
  revert attempt_ s. induction left as [| left IH]; intros attempt_ s; simpl; [lia |].
  unfold vimeo_get, attempt, reading, bind at 1.
  destruct (net W (tick s)) as [| e]; simpl; [lia |].
  destruct (status_is 429 e).
  - unfold bind at 1. simpl. unfold bind at 1. simpl.
    etransitivity; [apply IH |]. simpl. lia.
  - destruct (code_is "ECONNRESET" e || code_is "ETIMEDOUT" e); simpl; [| lia].
    unfold bind at 1. simpl. unfold bind at 1. simpl.
    etransitivity; [apply IH |]. simpl. lia.
Qed.

Lemma safe_loop_attempts {B} W ev (body : State -> B) tag url retry left attempt_ s :
  (tick (snd (Index.safe_loop (attempt W ev (reading body)) tag url retry left attempt_ s))
   <= tick s + left)%nat.
Proof.
  revert attempt_ s. induction left as [| left IH]; intros attempt_ s; simpl; [lia |].
  unfold attempt, reading, bind at 1.
  destruct (net W (tick s)) as [| e]; simpl; [lia |].
  unfold bind at 1. simpl.
  destruct (status_is 429 e).
  - unfold bind at 1. simpl. unfold bind at 1. simpl.
    etransitivity; [apply IH |]. simpl. lia.
  - destruct (attempt_ =? retry)%nat; simpl; [lia |].
    unfold bind at 1. simpl.
    etransitivity; [apply IH |]. simpl. lia.
Qed.

(** ** C5: the wait after a 429 *)

(** C5, as the spec has it, fails on [safeGet]: with [retry-after: 2] the
    wait before the third attempt is 2000 ms, the same as before the second;
    2 s times the attempt index would be 4000 ms. *)
Lemma safeGet_wait_not_escalated :
  let W := Demo.world Demo.limited_twice in
  let url := "/folders/1/videos?per_page=100" in
  let r := Index.safeGet (vimeo_get W url) url 3 (Demo.start [] []) in
  fst r = Ret (Some (Demo.vimeo_data url))
  /\ sleeps (trace (snd r)) = [ESleep (Num 2000); ESleep (Num 2000)]
  /\ 2000 < 2 * 1000 * 2.
Proof. vm_compute. repeat split. Qed.

(** C5, amended.  After an attempt answered 429, both loops wait and take
    the next turn of the same loop, so a 429 uses up an attempt like any
    other failure and a call makes at most [retries] attempts.  The delay
    asked of the timer is, in [axiosVimeoRetry], what [parseInt] reads in the
    [retry-after] header (in ["5"] without the header) times 1000 times the
    attempt index [attempt + 1]; in [safeGet] and [safePost] it is what
    [parseInt] reads in the header times 1000, not multiplied by the attempt
    index, and 2000 times the attempt index without the header.  When the
    header reads as the integer [n], the wait is the product of [n] by those
    factors in milliseconds if that lies between 1 and 2^31 - 1, and 1 ms
    otherwise (for [n] at most 0 and for a product too large for a timer);
    it is 1 ms too when the header does not start with an integer. *)
Theorem rate_limit_waits (W : World) (url : string) (err : AxiosError) (s : State) :
  net W (tick s) = NetFail err -> status_is 429 err = true ->
  (forall retries left attempt_,
     Links.retry_loop W url retries (S left) attempt_ s
     = Links.retry_loop W url retries left (S attempt_)
         (after s 1 (timer (Links.rate_limit_wait err attempt_))
            [EGet Vimeo url []; ELog LWarn "[RATE LIMIT]" "";
             ESleep (Links.rate_limit_wait err attempt_)]))
  /\ (forall B ev (serve : State -> B * State) tag retry left attempt_,
        Index.safe_loop (attempt W ev serve) tag url retry (S left) attempt_ s
        = Index.safe_loop (attempt W ev serve) tag url retry left (S attempt_)
            (after s 1 (timer (Index.rate_limit_wait err attempt_))
               [ev; ELog LError tag url; ELog LWarn "Rate limit (429)" "";
                ESleep (Index.rate_limit_wait err attempt_)]))
  /\ (forall attempt_ h n,
        truthy (err_retry_after err) = Some h -> parseInt h = Num n ->
        let in_axiosVimeoRetry := n * 1000 * (Z.of_nat attempt_ + 1) in
        let in_safeGet := n * 1000 in
        timer (Links.rate_limit_wait err attempt_) = timer (Num in_axiosVimeoRetry)
        /\ timer (Index.rate_limit_wait err attempt_) = timer (Num in_safeGet)
        /\ (1 <= in_axiosVimeoRetry <= 2147483647 ->
            Links.rate_limit_wait err attempt_ = Num in_axiosVimeoRetry)
        /\ (1 <= in_safeGet <= 2147483647 ->
            Index.rate_limit_wait err attempt_ = Num in_safeGet))
  /\ (forall attempt_ h,
        truthy (err_retry_after err) = Some h -> (forall n, parseInt h <> Num n) ->
        timer (Links.rate_limit_wait err attempt_) = 1
        /\ timer (Index.rate_limit_wait err attempt_) = 1)
  /\ (forall attempt_,
        truthy (err_retry_after err) = None ->
        let in_axiosVimeoRetry := 5 * 1000 * (Z.of_nat attempt_ + 1) in
        let in_safeGet := 2000 * Z.of_nat attempt_ in
        timer (Links.rate_limit_wait err attempt_) = timer (Num in_axiosVimeoRetry)
        /\ timer (Index.rate_limit_wait err attempt_) = timer (Num in_safeGet)
        /\ (in_axiosVimeoRetry <= 2147483647 ->
            Links.rate_limit_wait err attempt_ = Num in_axiosVimeoRetry)
        /\ (in_safeGet <= 2147483647 ->
            Index.rate_limit_wait err attempt_ = Num in_safeGet))
  /\ (forall retries s0,
        (tick (snd (Links.axiosVimeoRetry W url retries s0)) <= tick s0 + retries)%nat)
  /\ (forall retry s0,
        (tick (snd (Index.safeGet (vimeo_get W url) url retry s0)) <= tick s0 + retry)%nat).
Proof.
  intros Hnet H429. repeat apply conj.
  - intros. apply retry_loop_429; assumption.
  - intros. apply safe_loop_429; assumption.
  - intros attempt_ h n Hh Hn p q.
    assert (Hl : near (Links.rate_limit_wait err attempt_) p).
    { unfold Links.rate_limit_wait, or_else. rewrite Hh, Hn.
      apply nmul_near; [lia |]. apply nmul_near; [lia |]. left. reflexivity. }
    assert (Hi : near (Index.rate_limit_wait err attempt_) q).
    { unfold Index.rate_limit_wait. rewrite Hh, Hn.
      apply nmul_near; [lia |]. left. reflexivity. }
    repeat apply conj.
    + apply timer_near, Hl.
    + apply timer_near, Hi.
    + intros Hp. apply (near_small _ _ Hl). unfold two53. lia.
    + intros Hq. apply (near_small _ _ Hi). unfold two53. lia.
  - intros attempt_ h Hh Hn.
    unfold Links.rate_limit_wait, Index.rate_limit_wait, or_else. rewrite Hh.
    destruct (parseInt h) as [| n | negative]; [| destruct (Hn n eq_refl) |].
    + split; reflexivity.
    + unfold nmul. cbn [Z.eqb].
      replace (Z.of_nat attempt_ + 1 =? 0) with false by (symmetry; apply Z.eqb_neq; lia).
      split; reflexivity.
  - intros attempt_ Hh p q.
    assert (Hl : near (Links.rate_limit_wait err attempt_) p).
    { unfold Links.rate_limit_wait, or_else. rewrite Hh.
      change (parseInt "5") with (Num 5).
      apply nmul_near; [lia |]. apply nmul_near; [lia |]. left. reflexivity. }
    assert (Hi : near (Index.rate_limit_wait err attempt_) q).
    { unfold Index.rate_limit_wait. rewrite Hh. apply to_double_near. }
    repeat apply conj.
    + apply timer_near, Hl.
    + apply timer_near, Hi.
    + intros Hp. apply (near_small _ _ Hl). unfold two53. subst p. lia.
    + intros Hq. apply (near_small _ _ Hi). unfold two53. subst q. lia.
  - intros. apply retry_loop_attempts.
  - intros. apply safe_loop_attempts.
Qed.

Lemma rate_limit_waits_witness :
  timer (Links.rate_limit_wait (Demo.http_error 429 (Some "2")) 1) = timer (Num 4000)
  /\ timer (Index.rate_limit_wait (Demo.http_error 429 (Some "2")) 1) = timer (Num 2000)
  /\ (1 <= 4000 <= 2147483647 ->
      Links.rate_limit_wait (Demo.http_error 429 (Some "2")) 1 = Num 4000)
  /\ (1 <= 2000 <= 2147483647 ->
      Index.rate_limit_wait (Demo.http_error 429 (Some "2")) 1 = Num 2000).
Proof.
  refine (proj1 (proj2 (proj2 (rate_limit_waits (Demo.world Demo.always_limited) "/u"
            (Demo.http_error 429 (Some "2")) (Demo.start [] []) _ _))) 1%nat "2" 2 _ _);
    reflexivity.
Defined.

(** ** C3: what a call through the retry layer ends with *)

(** C3 at the input on which index.js breaks it.  When every attempt is
    answered 429, [safeGet] and [safePost] leave their loop through
    [continue] on the last turn too and return [undefined]: no body and no
    error.  [axiosVimeoRetry] throws in the same situation. *)
Theorem safeGet_completes_silently {B} (W : World) (ev : Event)
  (serve : State -> B * State) (url : string) (retry : nat) (s : State) :
  (forall i, (i < retry)%nat ->
     exists e, net W (tick s + i) = NetFail e /\ status_is 429 e = true) ->
  fst (Index.safeGet (attempt W ev serve) url retry s) = Ret None
  /\ fst (Index.safePost (attempt W ev serve) url retry s) = Ret None
  /\ fst (Links.axiosVimeoRetry W url retry s) = Throw (RetriesExhausted retry url).
Proof.
  intros H.
  assert (Hsafe : forall tag left attempt_ s0,
             (forall i, (i < left)%nat ->
                exists e, net W (tick s0 + i) = NetFail e /\ status_is 429 e = true) ->
             fst (Index.safe_loop (attempt W ev serve) tag url retry left attempt_ s0)
             = Ret None).
  { intros tag left. induction left as [| left IH]; intros attempt_ s0 H0; [reflexivity |].
    destruct (H0 0%nat ltac:(lia)) as (e & Hnet & H429).
    rewrite Nat.add_0_r in Hnet.
    rewrite (safe_loop_429 W ev serve tag url retry left attempt_ s0 e Hnet H429).
    apply IH. intros i Hi. simpl.
    destruct (H0 (S i) ltac:(lia)) as (e' & Hnet' & H429').
    exists e'. rewrite <- Nat.add_succ_r. auto. }
  split; [apply Hsafe; exact H | split; [apply Hsafe; exact H |]].
  clear Hsafe. unfold Links.axiosVimeoRetry. generalize 0%nat. generalize retry at 1 3.
  revert s H. induction retry as [| left IH]; intros s H retries attempt_; [reflexivity |].
  destruct (H 0%nat ltac:(lia)) as (e & Hnet & H429).
  rewrite Nat.add_0_r in Hnet.
  rewrite (retry_loop_429 W url retries left attempt_ s e Hnet H429).
  apply IH. intros i Hi. simpl.
  destruct (H (S i) ltac:(lia)) as (e' & Hnet' & H429').
  exists e'. rewrite <- Nat.add_succ_r. auto.
Qed.

Lemma safeGet_completes_silently_witness :
  fst (Index.safeGet (vimeo_get (Demo.world Demo.always_limited) "/folders/1/videos")
         "/folders/1/videos" 3 (Demo.start [] []))
  = Ret None.
Proof.
  refine (proj1 (safeGet_completes_silently (Demo.world Demo.always_limited) _ _
                   "/folders/1/videos" 3 (Demo.start [] []) _)).
  intros i _. exists (Demo.http_error 429 (Some "2")). split; reflexivity.
Defined.

(** ** C7: the pages of a listing *)

Lemma bind_ret_tt (c : M unit) s : bind c (fun _ => ret tt) s = c s.
Proof. unfold bind, ret. destruct (c s) as [[[] | e |] s']; reflexivity. Qed.

Lemma video_step_blank W pandaFolderId n s :
  for_of (Links.video_step W pandaFolderId) (List.repeat blank_item (S n)) s
  = (Throw (TypeError "path.match"), s).
Proof. reflexivity. Qed.

Lemma folder_step_blank W fuel recurse pandaParentId n s :
  for_of (Links.folder_step W fuel recurse pandaParentId) (List.repeat blank_item n) s
  = (Ret tt, s).
Proof. induction n as [| n IH]; [reflexivity |]. simpl. unfold bind. simpl. exact IH. Qed.

(** C7, with the pages on which getVimeoPandaLinks.js breaks it.  Once a
    page has been fetched, the loops over pages ([video_pages] is the loop of
    [processVideosInFolder], [folder_pages] that of [processFolder], in both
    scripts) go on as follows.  A page with its [data] array and without a
    next reference is the last one: its entries are processed and the loop is
    over.  A page with an empty [data] array and a next reference takes the
    loop to that reference.  A page whose [data] is absent ends the loop at
    once, normally, whatever its next reference.  A page whose [data] is there
    but is not an array does the same in index.js only.  In
    getVimeoPandaLinks.js such a page ends the loop with a [TypeError]: from
    [for ... of] when [data] cannot be iterated (an object, a number,
    [true]), and, in the loop over videos, from [formatVimeoUrl] at the first
    character when [data] is a string; only the loop over folders gets through
    a string, skipping its characters, and then follows the next reference
    like after an array. *)
Theorem pagination (W : World) (fuel : nat) (url : string) (page : Page) (s s1 : State)
  (pandaFolderId : string) (pandaParentId : option string) :
  (Links.axiosVimeoRetry W url 5 s = (Ret page, s1) ->
   (forall entries,
      pg_data page = DataArray entries -> truthy (pg_next page) = None ->
      Links.video_pages W (S fuel) pandaFolderId url s
      = for_of (Links.video_step W pandaFolderId) entries s1
      /\ Links.folder_pages W (S fuel) url pandaParentId s
         = for_of (Links.folder_step W fuel
                     (fun uri parent =>
                        Links.folder_pages W fuel (uri +:+ "?per_page=50") parent)
                     pandaParentId) entries s1)
   /\ (pg_data page = DataMissing ->
       Links.video_pages W (S fuel) pandaFolderId url s = (Ret tt, s1)
       /\ Links.folder_pages W (S fuel) url pandaParentId s = (Ret tt, s1))
   /\ (forall next,
         pg_data page = DataArray [] -> truthy (pg_next page) = Some next ->
         Links.video_pages W (S fuel) pandaFolderId url s
         = Links.video_pages W fuel pandaFolderId next s1
         /\ Links.folder_pages W (S fuel) url pandaParentId s
            = Links.folder_pages W fuel next pandaParentId s1)
   /\ (pg_data page = DataOther ->
       Links.video_pages W (S fuel) pandaFolderId url s
       = (Throw (TypeError "data.data is not iterable"), s1)
       /\ Links.folder_pages W (S fuel) url pandaParentId s
          = (Throw (TypeError "data.data is not iterable"), s1))
   /\ (forall more,
         pg_data page = DataString more ->
         Links.video_pages W (S fuel) pandaFolderId url s
         = (Throw (TypeError "path.match"), s1)
         /\ Links.folder_pages W (S fuel) url pandaParentId s
            = match truthy (pg_next page) with
              | Some next => Links.folder_pages W fuel next pandaParentId s1
              | None => (Ret tt, s1)
              end))
  /\ (Index.safeGet (vimeo_get W url) url 3 s = (Ret (Some page), s1) ->
      (forall entries,
         pg_data page = DataArray entries -> truthy (pg_next page) = None ->
         Index.video_pages W (S fuel) pandaFolderId url s
         = for_of (Index.video_step pandaFolderId) entries s1
         /\ Index.folder_pages W (S fuel) url pandaParentId s
            = for_of (Index.folder_step W fuel
                        (fun uri parent =>
                           Index.folder_pages W fuel (uri +:+ "?per_page=100") parent)
                        pandaParentId) entries s1)
      /\ ((forall entries, pg_data page <> DataArray entries) ->
          Index.video_pages W (S fuel) pandaFolderId url s = (Ret tt, s1)
          /\ Index.folder_pages W (S fuel) url pandaParentId s = (Ret tt, s1))
      /\ (forall next,
            pg_data page = DataArray [] -> truthy (pg_next page) = Some next ->
            Index.video_pages W (S fuel) pandaFolderId url s
            = Index.video_pages W fuel pandaFolderId next s1
            /\ Index.folder_pages W (S fuel) url pandaParentId s
               = Index.folder_pages W fuel next pandaParentId s1)).
Proof.
  split; intros Hget.
  - repeat apply conj.
    + intros entries Hd Hn. simpl.
      rewrite !(bind_Ret _ _ _ _ _ Hget).
      unfold Links.videos_page, Links.folders_page. rewrite Hd, Hn.
      split; apply bind_ret_tt.
    + intros Hd. simpl. rewrite !(bind_Ret _ _ _ _ _ Hget).
      unfold Links.videos_page, Links.folders_page. rewrite Hd. split; reflexivity.
    + intros next Hd Hn. simpl. rewrite !(bind_Ret _ _ _ _ _ Hget).
      unfold Links.videos_page, Links.folders_page. rewrite Hd, Hn. split; reflexivity.
    + intros Hd. simpl. rewrite !(bind_Ret _ _ _ _ _ Hget).
      unfold Links.videos_page, Links.folders_page. rewrite Hd. split; reflexivity.
    + intros more Hd. simpl. rewrite !(bind_Ret _ _ _ _ _ Hget).
      unfold Links.videos_page, Links.folders_page. rewrite Hd. cbn [iteration].
      split.
      * unfold bind at 1. rewrite video_step_blank. reflexivity.
      * unfold bind at 1. rewrite folder_step_blank.
        destruct (truthy (pg_next page)); reflexivity.
  - repeat apply conj.
    + intros entries Hd Hn. simpl.
      rewrite !(bind_Ret _ _ _ _ _ Hget).
      unfold Index.videos_page, Index.folders_page. rewrite Hd, Hn.
      split; apply bind_ret_tt.
    + intros Hd. simpl. rewrite !(bind_Ret _ _ _ _ _ Hget).
      unfold Index.videos_page, Index.folders_page.
      destruct (pg_data page) as [| entries | |];
        [| destruct (Hd entries eq_refl) | |]; split; reflexivity.
    + intros next Hd Hn. simpl. rewrite !(bind_Ret _ _ _ _ _ Hget).
      unfold Index.videos_page, Index.folders_page. rewrite Hd, Hn. split; reflexivity.
Qed.

Lemma pagination_witness :
  Links.video_pages Demo.odd_world 1 "pa" "/folders/1/videos?per_page=50"
    (Demo.start [] Demo.panda_folders)
  = (Throw (TypeError "data.data is not iterable"),
     after (Demo.start [] Demo.panda_folders) 1 0
       [EGet Vimeo "/folders/1/videos?per_page=50" []])
  /\ Links.folder_pages Demo.odd_world 1 "/folders/1/videos?per_page=50" None
       (Demo.start [] Demo.panda_folders)
     = (Throw (TypeError "data.data is not iterable"),
        after (Demo.start [] Demo.panda_folders) 1 0
          [EGet Vimeo "/folders/1/videos?per_page=50" []]).
Proof.
  refine (proj1 (proj2 (proj2 (proj2 (proj1 (pagination Demo.odd_world 0
            "/folders/1/videos?per_page=50"
            {| pg_data := DataOther; pg_next := None |}
            (Demo.start [] Demo.panda_folders) _ "pa" None) _)))) _);
    reflexivity.
Defined.

(** ** C10: errors swallowed by the folder helpers of index.js *)

Lemma total_ret {A} (a : A) : total (ret a).
Proof. intros s. discriminate. Qed.

Lemma total_throw {A} e : total (@throw A e).
Proof. intros s. discriminate. Qed.

Lemma total_emit e : total (emit e).
Proof. intros s. discriminate. Qed.

Lemma total_sleep ms : total (sleep ms).
Proof. intros s. discriminate. Qed.

Lemma total_attempt {B} W ev (serve : State -> B * State) : total (attempt W ev serve).
Proof.
  intros s. unfold attempt. destruct (net W (tick s)); [| discriminate].
  destruct (serve _). discriminate.
Qed.

Lemma total_bind {A B} (c : M A) (k : A -> M B) :
  total c -> (forall a, total (k a)) -> total (bind c k).
Proof.
  intros Hc Hk s. unfold bind. specialize (Hc s).
  destruct (c s) as [[a | e |] sm]; simpl in *;
    [apply Hk | discriminate | contradiction].
Qed.

Lemma total_safe_loop {B} (call : M (AxiosError + B)) tag url retry left attempt_ :
  total call -> total (Index.safe_loop call tag url retry left attempt_).
Proof.
  intros Hc. revert attempt_. induction left as [| left IH]; intros attempt_; simpl.
  - apply total_ret.
  - apply total_bind; [exact Hc |]. intros [e | b]; [| apply total_ret].
    apply total_bind; [apply total_emit |]. intros _.
    destruct (status_is 429 e).
    + apply total_bind; [apply total_emit |]. intros _.
      apply total_bind; [apply total_sleep |]. intros _. apply IH.
    + destruct (attempt_ =? retry)%nat; [apply total_throw |].
      apply total_bind; [apply total_sleep |]. intros _. apply IH.
Qed.

(** A [try] whose handler returns always returns. *)
Lemma try_catch_returns {A} (c : M A) (h : Exn -> M A) :
  total c -> (forall e s, exists a s', h e s = (Ret a, s')) ->
  forall s, exists a s', try_catch c h s = (Ret a, s').
Proof.
  intros Hc Hh s. unfold try_catch. specialize (Hc s).
  destruct (c s) as [[a | e |] sm]; simpl in *.
  - eauto.
  - apply Hh.
  - contradiction.
Qed.

Lemma try_catch_Throw {A} (c : M A) (h : Exn -> M A) s e s1 :
  c s = (Throw e, s1) -> try_catch c h s = h e s1.
Proof. unfold try_catch. intros ->. reflexivity. Qed.

Lemma findPandaFolder_returns W name parent s :
  exists r s', Index.findPandaFolder W name parent s = (Ret r, s').
Proof.
  apply try_catch_returns.
  - apply total_bind; [apply total_safe_loop, total_attempt |].
    intros [[folders |] |]; try apply total_ret.
    destruct (List.find _ folders); [| apply total_ret].
    apply total_bind; [apply total_emit | intros _; apply total_ret].
  - intros e s0. eexists _, _. reflexivity.
Qed.

Lemma createPandaFolder_returns W name parent s :
  exists r s', Index.createPandaFolder W name parent s = (Ret r, s').
Proof.
  apply try_catch_returns.
  - apply total_bind; [apply total_safe_loop, total_attempt |].
    intros [body |].
    + destruct (truthy body);
        (apply total_bind; [apply total_emit | intros _; apply total_ret]).
    + apply total_bind; [apply total_emit | intros _; apply total_ret].
  - intros e s0. eexists _, _. reflexivity.
Qed.

(** C10. In index.js [findPandaFolder] and [createPandaFolder] never throw:
    whatever the request layer throws is logged and turned into [null].
    [processFolder] takes the [null] of [findPandaFolder] for "no such
    folder" and goes on to create one.  So there is a run, with the listing
    of the folders failing three times (HTTP 500) while folder A exists on
    Panda, that ends with two folders A at the root of Panda, the error of
    the listing logged by [findPandaFolder] only. *)
Theorem folder_errors_swallowed (W : World) (name : string) (parent : option string) :
  (forall s,
     (exists r s', Index.findPandaFolder W name parent s = (Ret r, s'))
     /\ (exists r s', Index.createPandaFolder W name parent s = (Ret r, s'))
     /\ (forall e s1,
           Index.safeGet (panda_get_folders W) "/folders" 3 s = (Throw e, s1) ->
           Index.findPandaFolder W name parent s
           = (Ret None, after s1 0 0 [ELog LError "[Panda] Erro ao buscar pasta" name]))
     /\ (forall e s1,
           Index.safePost (Index.panda_post_folder W name (truthy parent)) "/folders" 3 s
           = (Throw e, s1) ->
           Index.createPandaFolder W name parent s
           = (Ret None, after s1 0 0 [ELog LError "[Panda] Erro ao criar pasta" name])))
  /\ (forall fuel recurse folder uri s s1 found,
        Links.folder_uri folder = Some uri -> folderMap s !! uri = None ->
        Links.folder_name folder = name ->
        Index.findPandaFolder W name parent s = (Ret found, s1) -> truthy found = None ->
        Index.folder_step W fuel recurse parent folder s
        = (do created <- Index.createPandaFolder W name parent;
           match truthy created with
           | None => log LError "[Erro] Pulando" name
           | Some pandaFolderId =>
               do _ <- Index.folderMap_set uri pandaFolderId;
               Index.visit W fuel recurse folder pandaFolderId
           end) s1)
  /\ (exists W0 fuel s0,
        let s' := snd (Index.run W0 fuel s0) in
        folders_named "A" None (target s0)
        = [{| pf_id := "pa"; pf_name := "A"; pf_parent := None |}]
        /\ net W0 1%nat = NetFail (Demo.http_error 500 None)
        /\ folders_named "A" None (target s')
           = [{| pf_id := "pa"; pf_name := "A"; pf_parent := None |};
              {| pf_id := "new2"; pf_name := "A"; pf_parent := None |}]
        /\ In (ELog LError "[Panda] Erro ao buscar pasta" "A") (trace s')
        /\ In (EPost Panda "/folders" "A" None) (trace s')).
Proof.
  repeat apply conj.
  - intros s. repeat apply conj.
    + apply findPandaFolder_returns.
    + apply createPandaFolder_returns.
    + intros e s1 H. unfold Index.findPandaFolder.
      erewrite try_catch_Throw; [| apply bind_Throw; exact H].
      rewrite (bind_Ret _ _ _ _ _ (log_after _ _ _ _)). reflexivity.
    + intros e s1 H. unfold Index.createPandaFolder.
      erewrite try_catch_Throw; [| apply bind_Throw; exact H].
      rewrite (bind_Ret _ _ _ _ _ (log_after _ _ _ _)). reflexivity.
  - intros fuel recurse folder uri s s1 found Hu Hc Hn Hf Hnull.
    unfold Index.folder_step. rewrite Hu, Hn.
    unfold Index.folderMap_get at 1. unfold bind at 1. rewrite Hc.
    unfold bind at 1. rewrite Hf, Hnull.
    unfold bind, ret.
    destruct (Index.createPandaFolder W name parent s1) as [[created | e |] s2];
      reflexivity.
  - exists (Demo.world (Demo.failing 500 1 3)), 5%nat, (Demo.start [] Demo.panda_folders).
    vm_compute. repeat split; auto 20.
Qed.

Lemma folder_errors_swallowed_witness :
  Index.findPandaFolder (Demo.world (Demo.failing 500 0 2)) "A" None
    (Demo.start [] Demo.panda_folders)
  = (Ret None,
     after (snd (Index.safeGet (panda_get_folders (Demo.world (Demo.failing 500 0 2)))
                   "/folders" 3 (Demo.start [] Demo.panda_folders)))
       0 0 [ELog LError "[Panda] Erro ao buscar pasta" "A"]).
Proof.
  refine (proj1 (proj2 (proj2 (proj1
            (folder_errors_swallowed (Demo.world (Demo.failing 500 0 2)) "A" None)
            (Demo.start [] Demo.panda_folders))))
            (AxiosExn (Demo.http_error 500 None) "/folders") _ _).
  reflexivity.
Defined.

(** ** C4: a request error during the walk *)

(** C4, as the spec has it, fails on both scripts.  The root holds the
    folders A and B.  When the listing of the videos of A is answered HTTP 500,
    the error reaches the top-level handler, which logs it, and the videos of B
    are never listed; without the failure getVimeoPandaLinks.js lists them. *)
Lemma one_failure_ends_traversal :
  let start := Demo.start [] Demo.panda_folders in
  let ok := Links.main (Demo.world Demo.always_ok) 5 start in
  let ko := Links.main (Demo.world (Demo.failing 500 2 2)) 5 start in
  let ki := Index.run (Demo.world (Demo.failing 500 2 4)) 5 start in
  requested "/folders/2/videos?per_page=50" (trace (snd ok)) = true
  /\ requested "/folders/2/videos?per_page=50" (trace (snd ko)) = false
  /\ List.last (trace (snd ko)) EPoolEnd
     = ELogExn "" (AxiosExn (Demo.http_error 500 None) "/folders/1/videos?per_page=50")
  /\ requested "/folders/2/videos?per_page=100" (trace (snd ki)) = false
  /\ List.last (trace (snd ki)) EPoolEnd
     = ELogExn "Erro fatal:"
         (AxiosExn (Demo.http_error 500 None) "/folders/1/videos?per_page=100").
Proof. vm_compute. repeat split. Qed.

(** C4, amended.  In index.js, when the lookup of the Panda folder and then
    its creation both come back [null] (which is what their request errors are
    turned into, see C10), the folder is logged and skipped, and the loop goes
    on with its siblings.  Any error thrown while a folder entry is processed
    (a listing of Vimeo that fails, in either script, or a request to Panda in
    getVimeoPandaLinks.js) is not caught per entry: the loop over the page
    throws it, the siblings after the entry are not processed, and the
    top-level handler logs it, which ends the walk. *)
Theorem walk_on_request_error (W : World) (fuel : nat) (pandaParentId : option string)
  (e : Exn) :
  (forall recurse folder rest uri s s1 s2 found created,
     Links.folder_uri folder = Some uri -> folderMap s !! uri = None ->
     Index.findPandaFolder W (Links.folder_name folder) pandaParentId s = (Ret found, s1) ->
     truthy found = None ->
     Index.createPandaFolder W (Links.folder_name folder) pandaParentId s1
       = (Ret created, s2) ->
     truthy created = None ->
     for_of (Index.folder_step W fuel recurse pandaParentId) (folder :: rest) s
     = for_of (Index.folder_step W fuel recurse pandaParentId) rest
         (after s2 0 0 [ELog LError "[Erro] Pulando" (Links.folder_name folder)]))
  /\ (forall folder uri videosUri pandaFolderId recurse found s s1 s2,
        Links.folder_uri folder = Some uri ->
        Links.findPandaFolder W (Links.folder_name folder) pandaParentId s = (Ret found, s1) ->
        truthy found = Some pandaFolderId ->
        Links.videos_uri folder = Some videosUri ->
        Links.axiosVimeoRetry W (videosUri +:+ "?per_page=50") 5 s1 = (Throw e, s2) ->
        Links.folder_step W (S fuel) recurse pandaParentId folder s = (Throw e, s2))
  /\ (forall url page pre folder post s s0 s1 s2,
        Links.axiosVimeoRetry W url 5 s = (Ret page, s0) ->
        pg_data page = DataArray (pre ++ folder :: post) ->
        for_of (Links.folder_step W fuel
                  (fun uri parent => Links.folder_pages W fuel (uri +:+ "?per_page=50") parent)
                  pandaParentId) pre s0 = (Ret tt, s1) ->
        Links.folder_step W fuel
          (fun uri parent => Links.folder_pages W fuel (uri +:+ "?per_page=50") parent)
          pandaParentId folder s1 = (Throw e, s2) ->
        Links.folder_pages W (S fuel) url pandaParentId s = (Throw e, s2))
  /\ (forall s s2,
        Links.processFolder W fuel (root_uri W "") None s = (Throw e, s2) ->
        Links.main W fuel s = (Ret tt, after s2 0 0 [ELogExn "" e]))
  /\ (forall url page pre folder post s s0 s1 s2,
        Index.safeGet (vimeo_get W url) url 3 s = (Ret (Some page), s0) ->
        pg_data page = DataArray (pre ++ folder :: post) ->
        for_of (Index.folder_step W fuel
                  (fun uri parent => Index.folder_pages W fuel (uri +:+ "?per_page=100") parent)
                  pandaParentId) pre s0 = (Ret tt, s1) ->
        Index.folder_step W fuel
          (fun uri parent => Index.folder_pages W fuel (uri +:+ "?per_page=100") parent)
          pandaParentId folder s1 = (Throw e, s2) ->
        Index.folder_pages W (S fuel) url pandaParentId s = (Throw e, s2))
  /\ (forall s s2,
        Index.processFolder W fuel (root_uri W Index.root_fields) None s = (Throw e, s2) ->
        Index.run W fuel s = (Ret tt, after s2 0 0 [ELogExn "Erro fatal:" e])).
Proof.
  repeat apply conj.
  - intros recurse folder rest uri s s1 s2 found created Hu Hc Hf Hnull Hcr Hnull'.
    assert (Hstep : Index.folder_step W fuel recurse pandaParentId folder s
                    = (Ret tt, after s2 0 0
                                 [ELog LError "[Erro] Pulando" (Links.folder_name folder)])).
    { unfold Index.folder_step. rewrite Hu.
      unfold Index.folderMap_get at 1. unfold bind at 1. rewrite Hc.
      unfold bind at 1. rewrite Hf, Hnull.
      unfold bind at 1. unfold bind at 1. rewrite Hcr. unfold ret at 1.
      rewrite Hnull'. apply log_after. }
    simpl. rewrite (bind_Ret _ _ _ _ _ Hstep). reflexivity.
  - intros folder uri videosUri pandaFolderId recurse found s s1 s2 Hu Hf Ht Hv Hx.
    unfold Links.folder_step. rewrite Hu.
    rewrite (bind_Ret _ _ _ _ _ Hf). rewrite Ht.
    apply bind_Throw. unfold Links.processVideosInFolder. rewrite Hv.
    simpl. apply bind_Throw. exact Hx.
  - intros url page pre folder post s s0 s1 s2 Hget Hd Hpre Hx. simpl.
    rewrite (bind_Ret _ _ _ _ _ Hget). unfold Links.folders_page. rewrite Hd.
    apply bind_Throw. eapply for_of_throws; eassumption.
  - intros s s2 H. unfold Links.main, Links.run.
    erewrite try_catch_Throw; [| apply bind_Throw; exact H].
    unfold emit, after. simpl. rewrite Z.add_0_r. reflexivity.
  - intros url page pre folder post s s0 s1 s2 Hget Hd Hpre Hx. simpl.
    rewrite (bind_Ret _ _ _ _ _ Hget). unfold Index.folders_page. rewrite Hd.
    apply bind_Throw. eapply for_of_throws; eassumption.
  - intros s s2 H. unfold Index.run.
    erewrite try_catch_Throw; [| apply bind_Throw; exact H].
    unfold emit, after. simpl. rewrite Z.add_0_r. reflexivity.
Qed.

Lemma walk_on_request_error_witness :
  Links.main (Demo.world (Demo.failing 500 2 2)) 5 (Demo.start [] Demo.panda_folders)
  = (Ret tt,
     after (snd (Links.processFolder (Demo.world (Demo.failing 500 2 2)) 5
                   (root_uri (Demo.world (Demo.failing 500 2 2)) "") None
                   (Demo.start [] Demo.panda_folders)))
       0 0 [ELogExn "" (AxiosExn (Demo.http_error 500 None) "/folders/1/videos?per_page=50")]).
Proof.
  refine (proj1 (proj2 (proj2 (proj2
            (walk_on_request_error (Demo.world (Demo.failing 500 2 2)) 5 None
               (AxiosExn (Demo.http_error 500 None) "/folders/1/videos?per_page=50")))))
            (Demo.start [] Demo.panda_folders) _ _).
  reflexivity.
Defined.

(** ** C9: the unbound [findPandaVideoByVimeoUrl] *)

Lemma calm_app l1 l2 : calm (l1 ++ l2)%list <-> calm l1 /\ calm l2.
Proof. unfold calm. rewrite forallb_app, andb_true_iff. reflexivity. Qed.

Lemma clean_raises {A} (c : M A) : clean c -> raises_last c.
Proof. intros H s. destruct (H s) as (evs & H1 & H2 & H3). exists evs. auto. Qed.

Lemma clean_ret {A} (a : A) : clean (ret a).
Proof.
  intros s. exists []. simpl. rewrite app_nil_r.
  repeat split. intros [x [=]].
Qed.

Lemma clean_out_of_fuel {A} : clean (@out_of_fuel A).
Proof.
  intros s. exists []. simpl. rewrite app_nil_r.
  repeat split. intros [x [=]].
Qed.

Lemma clean_throw {A} e : (forall x, e <> ReferenceError x) -> clean (@throw A e).
Proof.
  intros He s. exists []. simpl. rewrite app_nil_r.
  repeat split. intros [x [= ->]]. exact (He x eq_refl).
Qed.

Lemma clean_emit e : is_unbound e = false -> clean (emit e).
Proof.
  intros He s. exists [e]. simpl. repeat split.
  - unfold calm. simpl. rewrite He. reflexivity.
  - intros [x [=]].
Qed.

Lemma clean_log lvl tag arg : clean (log lvl tag arg).
Proof. apply clean_emit. reflexivity. Qed.

Lemma clean_sleep ms : clean (sleep ms).
Proof. intros s. exists [ESleep ms]. simpl. repeat split. intros [x [=]]. Qed.

Lemma clean_execute stmt ev : is_unbound ev = false -> clean (execute stmt ev).
Proof.
  intros He s. exists [ev]. simpl. repeat split.
  - unfold calm. simpl. rewrite He. reflexivity.
  - intros [x [=]].
Qed.

Lemma clean_attempt {B} W ev (serve : State -> B * State) :
  is_unbound ev = false -> (forall s, trace (snd (serve s)) = trace s) ->
  clean (attempt W ev serve).
Proof.
  intros He Hs s. exists [ev]. unfold attempt.
  destruct (net W (tick s)).
  - match goal with |- context [serve ?s1] =>
      specialize (Hs s1); destruct (serve s1) as [b s2] end.
    simpl in *. rewrite Hs. repeat split.
    + unfold calm. simpl. rewrite He. reflexivity.
    + intros [x [=]].
  - simpl. repeat split.
    + unfold calm. simpl. rewrite He. reflexivity.
    + intros [x [=]].
Qed.

Lemma clean_bind {A B} (c : M A) (k : A -> M B) :
  clean c -> (forall a, clean (k a)) -> clean (bind c k).
Proof.
  intros Hc Hk s. unfold bind. destruct (Hc s) as (evs & H1 & H2 & H3).
  destruct (c s) as [[a | e |] sm]; simpl in *.
  - destruct (Hk a sm) as (evs' & H1' & H2' & H3').
    exists (evs ++ evs')%list. rewrite H1', H1, app_assoc.
    repeat split; [| exact H3']. apply calm_app. auto.
  - exists evs. repeat split; auto.
    intros [x [= ->]]. apply H3. exists x. reflexivity.
  - exists evs. repeat split; auto. intros [x [=]].
Qed.

Lemma clean_try_catch {A} (c : M A) (h : Exn -> M A) :
  clean c -> (forall e, clean (h e)) -> clean (try_catch c h).
Proof.
  intros Hc Hh s. unfold try_catch. destruct (Hc s) as (evs & H1 & H2 & H3).
  destruct (c s) as [[a | e |] sm]; simpl in *.
  - exists evs. repeat split; auto.
  - destruct (Hh e sm) as (evs' & H1' & H2' & H3').
    exists (evs ++ evs')%list. rewrite H1', H1, app_assoc.
    repeat split; [| exact H3']. apply calm_app. auto.
  - exists evs. repeat split; auto.
Qed.

Lemma raises_bind {A B} (c : M A) (k : A -> M B) :
  raises_last c -> (forall a, raises_last (k a)) -> raises_last (bind c k).
Proof.
  intros Hc Hk s. unfold bind. destruct (Hc s) as (evs & H1 & H2).
  destruct (c s) as [[a | e |] sm]; simpl in *.
  - destruct H2 as [[H2 _] | (evs0 & _ & _ & [=])].
    destruct (Hk a sm) as (evs' & H1' & H2').
    exists (evs ++ evs')%list. rewrite H1', H1, app_assoc. split; [reflexivity |].
    destruct H2' as [[H2' H3'] | (evs0 & -> & H2' & H3')].
    + left. split; [apply calm_app; auto | exact H3'].
    + right. exists (evs ++ evs0)%list. rewrite app_assoc.
      repeat split; [apply calm_app; auto | exact H3'].
  - exists evs. split; [exact H1 |].
    destruct H2 as [[H2 H3] | (evs0 & -> & H2 & [= ->])].
    + left. split; [exact H2 |]. intros [x [= ->]]. apply H3. exists x. reflexivity.
    + right. exists evs0. auto.
  - exists evs. split; [exact H1 |].
    destruct H2 as [[H2 H3] | (evs0 & _ & _ & [=])].
    left. split; [exact H2 |]. intros [x [=]].
Qed.

Lemma raises_for_of {A} (body : A -> M unit) l :
  (forall x, raises_last (body x)) -> raises_last (for_of body l).
Proof.
  intros Hb. induction l as [| x l IH]; simpl.
  - apply clean_raises, clean_ret.
  - apply raises_bind; [apply Hb | intros _; exact IH].
Qed.

Lemma raises_unbound {A} : raises_last (@Index.unbound A "findPandaVideoByVimeoUrl").
Proof.
  intros s. exists [EUnbound "findPandaVideoByVimeoUrl"]. split; [reflexivity |].
  right. exists []. repeat split.
Qed.

Ltac clean_step :=
  first
    [ apply clean_ret | apply clean_out_of_fuel | apply clean_log | apply clean_sleep
    | apply clean_throw; intros ?; discriminate
    | apply clean_emit; reflexivity
    | apply clean_execute; reflexivity
    | apply clean_attempt; [reflexivity | intros ?; reflexivity]
    | apply clean_bind; [| intros ?]
    | apply clean_try_catch; [| intros ?]
    | match goal with
      | |- clean (match ?x with _ => _ end) => destruct x
      end ].

Lemma clean_safe_loop {B} (call : M (AxiosError + B)) tag url retry left attempt_ :
  clean call -> clean (Index.safe_loop call tag url retry left attempt_).
Proof.
  intros Hc. revert attempt_. induction left as [| left IH]; intros attempt_; simpl.
  - apply clean_ret.
  - apply clean_bind; [exact Hc |]. intros [e | b]; [| apply clean_ret].
    repeat first [apply IH | clean_step].
Qed.

Lemma clean_findPandaFolder W name parent : clean (Index.findPandaFolder W name parent).
Proof.
  unfold Index.findPandaFolder, Index.safeGet, panda_get_folders.
  repeat first [apply clean_safe_loop | clean_step].
Qed.

Lemma clean_createPandaFolder W name parent : clean (Index.createPandaFolder W name parent).
Proof.
  unfold Index.createPandaFolder, Index.safePost, Index.panda_post_folder.
  repeat first [apply clean_safe_loop | clean_step].
Qed.

Lemma clean_saveVideoMapping id pid ws ttl : clean (Index.saveVideoMapping id pid ws ttl).
Proof.
  unfold Index.saveVideoMapping, Index.formatVimeoUrl.
  destruct id as [path |]; [| clean_step].
  destruct (match_videos_path path); repeat clean_step.
Qed.

Lemma raises_video_step pandaFolderId video :
  raises_last (Index.video_step pandaFolderId video).
Proof.
  unfold Index.video_step. cbv zeta.
  destruct (Index.download_url video) as [downloadUrl |].
  - apply raises_bind; [apply raises_unbound |].
    intros [pv |]; apply clean_raises.
    + apply clean_bind; [apply clean_log | intros _; apply clean_saveVideoMapping].
    + apply clean_log.
  - apply clean_raises, clean_log.
Qed.

Lemma raises_videos_page next_page pandaFolderId data :
  (forall url, raises_last (next_page url)) ->
  raises_last (Index.videos_page next_page pandaFolderId data).
Proof.
  intros Hn. unfold Index.videos_page.
  destruct data as [page |]; [| apply clean_raises, clean_ret].
  destruct (pg_data page); try apply clean_raises, clean_ret.
  apply raises_bind; [apply raises_for_of; intros x; apply raises_video_step |].
  intros _. destruct (truthy (pg_next page)); [apply Hn | apply clean_raises, clean_ret].
Qed.

Lemma clean_safeGet_vimeo W url : clean (Index.safeGet (vimeo_get W url) url 3).
Proof.
  unfold Index.safeGet, vimeo_get. apply clean_safe_loop. clean_step.
Qed.

Lemma raises_video_pages W fuel pandaFolderId url :
  raises_last (Index.video_pages W fuel pandaFolderId url).
Proof.
  revert url. induction fuel as [| fuel IH]; intros url; simpl.
  - apply clean_raises, clean_out_of_fuel.
  - apply raises_bind; [apply clean_raises, clean_safeGet_vimeo |].
    intros data. apply raises_videos_page. exact IH.
Qed.

Lemma raises_processVideosInFolder W fuel folder pandaFolderId :
  raises_last (Index.processVideosInFolder W fuel folder pandaFolderId).
Proof.
  unfold Index.processVideosInFolder.
  destruct (Links.videos_uri folder); [apply raises_video_pages |].
  apply clean_raises, clean_log.
Qed.

Lemma raises_visit W fuel recurse folder pandaFolderId :
  (forall uri parent, raises_last (recurse uri parent)) ->
  raises_last (Index.visit W fuel recurse folder pandaFolderId).
Proof.
  intros Hr. unfold Index.visit.
  apply raises_bind; [apply raises_processVideosInFolder |]. intros _.
  destruct (Links.items_uri folder); [apply Hr | apply clean_raises, clean_ret].
Qed.

Lemma raises_folder_step W fuel recurse pandaParentId folder :
  (forall uri parent, raises_last (recurse uri parent)) ->
  raises_last (Index.folder_step W fuel recurse pandaParentId folder).
Proof.
  intros Hr. unfold Index.folder_step. cbv zeta.
  destruct (Links.folder_uri folder) as [vimeoUri |]; [| apply clean_raises, clean_ret].
  apply raises_bind.
  { apply clean_raises. intros s. exists []. simpl. rewrite app_nil_r.
    repeat split. intros [x [=]]. }
  intros [pandaFolderId |].
  - apply raises_bind; [apply clean_raises, clean_log |]. intros _.
    apply raises_visit. exact Hr.
  - apply raises_bind; [apply clean_raises, clean_findPandaFolder |]. intros found.
    apply raises_bind.
    { apply clean_raises. destruct (truthy found); [apply clean_ret |].
      apply clean_bind; [apply clean_createPandaFolder | intros ?; apply clean_ret]. }
    intros [pandaFolderId |]; [| apply clean_raises, clean_log].
    apply raises_bind; [| intros _; apply raises_visit; exact Hr].
    apply clean_raises. intros s. exists []. simpl. rewrite app_nil_r.
    repeat split. intros [x [=]].
Qed.

Lemma raises_folder_pages W fuel url pandaParentId :
  raises_last (Index.folder_pages W fuel url pandaParentId).
Proof.
  revert url pandaParentId. induction fuel as [| fuel IH]; intros url pandaParentId; simpl.
  - apply clean_raises, clean_out_of_fuel.
  - apply raises_bind; [apply clean_raises, clean_safeGet_vimeo |].
    intros data. unfold Index.folders_page.
    destruct data as [page |]; [| apply clean_raises, clean_ret].
    destruct (pg_data page); try apply clean_raises, clean_ret.
    apply raises_bind.
    + apply raises_for_of. intros x. apply raises_folder_step.
      intros uri parent. apply IH.
    + intros _. destruct (truthy (pg_next page)); [apply IH | apply clean_raises, clean_ret].
Qed.

(** In a list that is calm up to one event, that event is found in one
    place only. *)
Lemma unbound_position evs0 x tail pre y post :
  calm evs0 -> calm tail ->
  (evs0 ++ EUnbound x :: tail = pre ++ EUnbound y :: post)%list ->
  pre = evs0 /\ y = x /\ post = tail.
Proof.
  intros H0 Ht. revert pre. induction evs0 as [| a l IH]; intros pre E; simpl in E.
  - destruct pre as [| b pre]; simpl in E.
    + injection E as Hx Hp. subst. auto.
    + injection E as Hb Hp. subst. apply calm_app in Ht as [_ Ht]. discriminate Ht.
  - destruct pre as [| b pre]; simpl in E.
    + injection E as Ha _. subst. discriminate H0.
    + injection E as Ha E. subst. unfold calm in H0. simpl in H0.
      apply andb_true_iff in H0 as [_ H0].
      destruct (IH H0 pre E) as (Hp & Hy & Hpost). subst. auto.
Qed.

Lemma sort_by_width_In d l : In d (Index.sort_by_width l) -> In d l.
Proof.
  revert d. induction l as [| x l IH]; intros d; simpl; [auto |].
  assert (Hins : forall y m, In d (Index.insert_by_width y m) -> d = y \/ In d m).
  { intros y m. induction m as [| z m IHm]; simpl.
    - intros [-> | []]. auto.
    - destruct (Index.width_of y <? Index.width_of z); simpl.
      + intros [-> | H]; [auto | destruct (IHm H); auto].
      + intros [-> | [-> | H]]; auto. }
  intros H. apply Hins in H as [-> | H]; [left; reflexivity | right; apply IH; exact H].
Qed.

Lemma sort_by_width_nonempty d l : Index.sort_by_width (d :: l) <> [].
Proof.
  simpl. destruct (Index.sort_by_width l) as [| x m]; simpl; [discriminate |].
  destruct (Index.width_of d <? Index.width_of x); discriminate.
Qed.

Lemma sort_by_width_first links first :
  widest_first links first -> exists rest, Index.sort_by_width links = first :: rest.
Proof.
  intros (before & after_ & -> & Hb & Ha).
  induction before as [| b before IH].
  - simpl. exists (Index.sort_by_width after_).
    destruct (Index.sort_by_width after_) as [| x l] eqn:E; [reflexivity |]. simpl.
    assert (Hx : Index.width_of x <= Index.width_of first).
    { apply Ha. apply sort_by_width_In. rewrite E. left. reflexivity. }
    apply Z.ltb_ge in Hx. rewrite Hx. reflexivity.
  - destruct IH as (rest & E); [intros d Hd; apply Hb; right; exact Hd |].
    simpl. rewrite E. simpl.
    assert (Hlt : Index.width_of b < Index.width_of first) by (apply Hb; left; reflexivity).
    apply Z.ltb_lt in Hlt. rewrite Hlt. eauto.
Qed.

Lemma widest_first_exists links : links <> [] -> exists first, widest_first links first.
Proof.
  induction links as [| x l IH]; [contradiction |]. intros _.
  destruct l as [| y l].
  - exists x, [], []. repeat split; intros d [].
  - destruct IH as (first & before & after_ & E & Hb & Ha); [discriminate |].
    destruct (Index.width_of x <? Index.width_of first) eqn:C.
    + apply Z.ltb_lt in C. exists first, (x :: before), after_.
      split; [rewrite E; reflexivity |]. split; [| exact Ha].
      intros d [<- | Hd]; [exact C | apply Hb, Hd].
    + apply Z.ltb_ge in C. exists x, [], (y :: l).
      split; [reflexivity |]. split; [intros d [] |].
      intros d Hd. rewrite E in Hd. apply in_app_iff in Hd as [Hd | [<- | Hd]].
      * specialize (Hb d Hd). lia.
      * exact C.
      * specialize (Ha d Hd). lia.
Qed.

(** C9, as the claim has it, fails on a video whose widest entry has no
    link while a narrower one has: the video has a download link, and the
    loop skips it with an error line, without the [ReferenceError]. *)
Lemma narrower_link_is_not_used :
  let video :=
    Demo.video "intro" "/videos/10"
      [{| dl_width := Some 640; dl_link := Some "https://cdn/sd.mp4" |};
       {| dl_width := Some 1920; dl_link := None |}] in
  Index.video_step "pa" video (Demo.start [] Demo.panda_folders)
  = (Ret tt,
     after (Demo.start [] Demo.panda_folders) 0 0
       [ELog LError "[Vimeo] sem link de download" "intro"]).
Proof. reflexivity. Qed.

(** C9, amended.  In index.js the loop of [processVideosInFolder] evaluates
    the unbound [findPandaVideoByVimeoUrl] for a video exactly when the entry
    of [video.download] that the sort puts in front, the widest one (the first
    of them among equals), has a link that is not empty: the step then throws
    a [ReferenceError] and does nothing else.  A video whose widest entry has
    no link, like one without entries, is passed over with an error line,
    whatever links its other entries carry.  In any run, once the unbound
    identifier has been evaluated the only thing that still happens is the log
    of the error by the handler of [run]: the error has left the loops, and
    the rest of the tree is not walked. *)
Theorem reference_error_ends_run (W : World) :
  (forall pandaFolderId video links first s,
     it_download video = Some links -> widest_first links first ->
     Index.video_step pandaFolderId video s
     = match truthy (dl_link first) with
       | Some _ =>
           (Throw (ReferenceError "findPandaVideoByVimeoUrl"),
            after s 0 0 [EUnbound "findPandaVideoByVimeoUrl"])
       | None =>
           (Ret tt,
            after s 0 0 [ELog LError "[Vimeo] sem link de download"
                           (or_else (it_name video) "sem título")])
       end)
  /\ (forall links, links <> [] -> exists first, widest_first links first)
  /\ (forall pandaFolderId video s,
        it_download video = None \/ it_download video = Some [] ->
        Index.video_step pandaFolderId video s
        = (Ret tt,
           after s 0 0 [ELog LError "[Vimeo] sem link de download"
                          (or_else (it_name video) "sem título")]))
  /\ (forall fuel s pre x post,
        trace (snd (Index.run W fuel s)) = (trace s ++ pre ++ EUnbound x :: post)%list ->
        x = "findPandaVideoByVimeoUrl"
        /\ post = [ELogExn "Erro fatal:" (ReferenceError "findPandaVideoByVimeoUrl")]
        /\ calm pre
        /\ fst (Index.run W fuel s) = Ret tt).
Proof.
  repeat apply conj.
  - intros pandaFolderId video links first s Hl Hw.
    destruct (sort_by_width_first links first Hw) as (rest & E).
    assert (Hne : exists d ds, links = d :: ds).
    { destruct links as [| d ds]; [discriminate E | eauto]. }
    destruct Hne as (d & ds & ->).
    unfold Index.video_step, Index.download_url. rewrite Hl, E. cbv zeta.
    destruct (truthy (dl_link first)) as [u |].
    + unfold Index.findPandaVideoByVimeoUrl, Index.unbound, bind, emit, throw, after.
      simpl. rewrite Z.add_0_r. reflexivity.
    + unfold log, emit, after. simpl. rewrite Z.add_0_r. reflexivity.
  - apply widest_first_exists.
  - intros pandaFolderId video s [Hl | Hl];
      unfold Index.video_step, Index.download_url; rewrite Hl; cbv zeta;
      unfold log, emit, after; simpl; rewrite Z.add_0_r; reflexivity.
  - intros fuel s pre x post Htr.
    unfold Index.run, try_catch, Index.processFolder in *.
    unfold bind at 1 in Htr. unfold bind at 1.
    destruct (raises_folder_pages W fuel
                (root_uri W Index.root_fields +:+ "?per_page=100") None s)
      as (evs & H1 & H2).
    destruct (Index.folder_pages W fuel _ None s) as [[[] | e |] s1]; simpl in *.
    + destruct H2 as [[H2 _] | (evs0 & _ & _ & [=])].
      rewrite H1, <- app_assoc in Htr. apply app_inv_head in Htr.
      assert (Hc : calm (pre ++ EUnbound x :: post)%list).
      { rewrite <- Htr. apply calm_app. split; [exact H2 | reflexivity]. }
      apply calm_app in Hc as [_ Hc]. discriminate Hc.
    + rewrite H1, <- app_assoc in Htr. apply app_inv_head in Htr.
      destruct H2 as [[H2 _] | (evs0 & -> & H2 & [= ->])].
      * assert (Hc : calm (pre ++ EUnbound x :: post)%list).
        { rewrite <- Htr. apply calm_app. split; [exact H2 | reflexivity]. }
        apply calm_app in Hc as [_ Hc]. discriminate Hc.
      * rewrite <- app_assoc in Htr. simpl in Htr.
        apply unbound_position in Htr as (-> & -> & ->);
          [auto | exact H2 | reflexivity].
    + destruct H2 as [[H2 _] | (evs0 & _ & _ & [=])].
      rewrite H1 in Htr. apply app_inv_head in Htr.
      rewrite Htr in H2. apply calm_app in H2 as [_ Hc]. discriminate Hc.
Qed.

Lemma reference_error_ends_run_witness :
  Index.video_step "pa"
    (Demo.video "intro" "/videos/10"
       [{| dl_width := Some 640; dl_link := None |};
        {| dl_width := Some 1920; dl_link := Some "https://cdn/hd.mp4" |}])
    (Demo.start [] Demo.panda_folders)
  = (Throw (ReferenceError "findPandaVideoByVimeoUrl"),
     after (Demo.start [] Demo.panda_folders) 0 0 [EUnbound "findPandaVideoByVimeoUrl"])
  /\ List.skipn 5 (trace (snd (Index.run (Demo.world Demo.always_ok) 5
                                 (Demo.start [] Demo.panda_folders))))
     = [ELogExn "Erro fatal:" (ReferenceError "findPandaVideoByVimeoUrl")].
Proof.
  split.
  - refine (proj1 (reference_error_ends_run (Demo.world Demo.always_ok))
              "pa"
              (Demo.video "intro" "/videos/10"
                 [{| dl_width := Some 640; dl_link := None |};
                  {| dl_width := Some 1920; dl_link := Some "https://cdn/hd.mp4" |}])
              [{| dl_width := Some 640; dl_link := None |};
               {| dl_width := Some 1920; dl_link := Some "https://cdn/hd.mp4" |}]
              {| dl_width := Some 1920; dl_link := Some "https://cdn/hd.mp4" |}
              (Demo.start [] Demo.panda_folders) eq_refl _).
    exists [{| dl_width := Some 640; dl_link := None |}], [].
    split; [reflexivity |]. split.
    + intros d [<- | []]. vm_compute. reflexivity.
    + intros d [].
  - refine (proj1 (proj2 (proj2 (proj2 (proj2 (reference_error_ends_run
              (Demo.world Demo.always_ok))))
              5%nat (Demo.start [] Demo.panda_folders)
              (List.firstn 4 (trace (snd (Index.run (Demo.world Demo.always_ok) 5
                                            (Demo.start [] Demo.panda_folders)))))
              "findPandaVideoByVimeoUrl"
              (List.skipn 5 (trace (snd (Index.run (Demo.world Demo.always_ok) 5
                                           (Demo.start [] Demo.panda_folders)))))
              _))).
    vm_compute. reflexivity.
Defined.

(** ** C1: the fast path, and a second run *)

#[local] Instance still_preorder : PreOrder still.
Proof.
  split.
  - intros s. repeat split.
  - intros a b c (H1 & H2 & H3) (H4 & H5 & H6). unfold still.
    rewrite H4, H5, H6. auto.
Qed.

#[local] Instance readonly_preorder : PreOrder readonly.
Proof.
  split.
  - intros s. repeat split.
  - intros a b c (H1 & H2) (H3 & H4). unfold readonly. rewrite H3, H4. auto.
Qed.

#[local] Instance grows_preorder : PreOrder grows.
Proof.
  split.
  - intros s. split; auto.
  - intros a b c (H1 & H2) (H3 & H4). split; [auto | congruence].
Qed.

Lemma still_readonly s s' : still s s' -> readonly s s'.
Proof. intros (H1 & _ & H2). split; assumption. Qed.

Lemma still_grows s s' : still s s' -> grows s s'.
Proof. intros (H1 & H2 & _). split; [rewrite H1; auto | exact H2]. Qed.

Lemma preserves_weaken (R R' : relation State) {A} (c : M A) :
  (forall s s', R s s' -> R' s s') -> preserves R c -> preserves R' c.
Proof. intros H Hc s. apply H, Hc. Qed.

Lemma writes_snoc tr e : is_write e = false -> writes (tr ++ [e]) = writes tr.
Proof.
  intros H. unfold writes. rewrite List.filter_app. simpl. rewrite H. apply app_nil_r.
Qed.

Lemma still_emit e : is_write e = false -> preserves still (emit e).
Proof. intros He s. repeat split. simpl. apply writes_snoc. exact He. Qed.

Lemma still_log lvl tag arg : preserves still (log lvl tag arg).
Proof. apply still_emit. reflexivity. Qed.

Lemma still_sleep ms : preserves still (sleep ms).
Proof. intros s. repeat split. simpl. apply writes_snoc. reflexivity. Qed.

Lemma still_attempt {B} W ev (body : State -> B) :
  is_write ev = false -> preserves still (attempt W ev (reading body)).
Proof.
  intros He s. unfold attempt, reading.
  destruct (net W (tick s)); simpl; repeat split; simpl; apply writes_snoc; exact He.
Qed.

Lemma readonly_attempt {B} W ev (serve : State -> B * State) :
  is_write ev = false ->
  (forall s, db (snd (serve s)) = db s /\ trace (snd (serve s)) = trace s) ->
  preserves readonly (attempt W ev serve).
Proof.
  intros He Hs s. unfold attempt.
  destruct (net W (tick s)).
  - match goal with |- context [serve ?s1] =>
      destruct (Hs s1) as [H1 H2]; destruct (serve s1) as [b s2] end.
    simpl in *. split; [exact H1 |]. rewrite H2. apply writes_snoc. exact He.
  - simpl. split; [reflexivity |]. simpl. apply writes_snoc. exact He.
Qed.

Ltac pres_step :=
  lazymatch goal with
  | |- preserves ?R _ =>
      first
        [ apply (preserves_ret R) | apply (preserves_throw R)
        | apply (preserves_out_of_fuel R)
        | apply (preserves_weaken still);
          [first [exact still_readonly | exact still_grows] |];
          first [ apply still_log | apply still_sleep
                | apply still_emit; reflexivity
                | apply still_attempt; reflexivity ]
        | apply still_log | apply still_sleep
        | apply still_emit; reflexivity
        | apply still_attempt; reflexivity
        | apply (preserves_bind R); [| intros ?]
        | apply (preserves_try_catch R); [| intros ?]
        | apply (preserves_for_of R); intros ?
        | match goal with
          | |- preserves _ (match ?x with _ => _ end) => destruct x
          end ]
  end.

(** *** index.js never writes *)

Lemma readonly_safe_loop {B} (call : M (AxiosError + B)) tag url retry left attempt_ :
  preserves readonly call ->
  preserves readonly (Index.safe_loop call tag url retry left attempt_).
Proof.
  intros Hc. revert attempt_. induction left as [| left IH]; intros attempt_; simpl.
  - apply (preserves_ret readonly).
  - apply (preserves_bind readonly); [exact Hc |]. intros [e | b]; [| apply (preserves_ret readonly)].
    repeat first [apply IH | pres_step].
Qed.

Lemma readonly_findPandaFolder W name parent :
  preserves readonly (Index.findPandaFolder W name parent).
Proof.
  unfold Index.findPandaFolder, Index.safeGet, panda_get_folders.
  repeat first [apply readonly_safe_loop | pres_step].
Qed.

Lemma readonly_createPandaFolder W name parent :
  preserves readonly (Index.createPandaFolder W name parent).
Proof.
  unfold Index.createPandaFolder, Index.safePost, Index.panda_post_folder.
  repeat first [apply readonly_safe_loop | pres_step].
  apply readonly_attempt; [reflexivity | intros s; split; reflexivity].
Qed.

Lemma unbound_never_returns {A} ident : never_returns (@Index.unbound A ident).
Proof. intros s a s'. discriminate. Qed.

Lemma readonly_unbound {A} ident : preserves readonly (@Index.unbound A ident).
Proof. intros s. split; [reflexivity |]. simpl. apply writes_snoc. reflexivity. Qed.

Lemma readonly_video_step pandaFolderId video :
  preserves readonly (Index.video_step pandaFolderId video).
Proof.
  unfold Index.video_step. cbv zeta.
  destruct (Index.download_url video); [| pres_step].
  apply preserves_bind_never; [apply unbound_never_returns | apply readonly_unbound].
Qed.

Lemma readonly_video_pages W fuel pandaFolderId url :
  preserves readonly (Index.video_pages W fuel pandaFolderId url).
Proof.
  revert url. induction fuel as [| fuel IH]; intros url; simpl; [pres_step |].
  apply (preserves_bind readonly).
  { unfold Index.safeGet, vimeo_get. apply readonly_safe_loop. pres_step. }
  intros data. unfold Index.videos_page.
  repeat first [apply IH | apply readonly_video_step | pres_step].
Qed.

Lemma readonly_visit W fuel recurse folder pandaFolderId :
  (forall uri parent, preserves readonly (recurse uri parent)) ->
  preserves readonly (Index.visit W fuel recurse folder pandaFolderId).
Proof.
  intros Hr. unfold Index.visit, Index.processVideosInFolder.
  repeat first [apply Hr | apply readonly_video_pages | pres_step].
Qed.

Lemma readonly_folder_step W fuel recurse pandaParentId folder :
  (forall uri parent, preserves readonly (recurse uri parent)) ->
  preserves readonly (Index.folder_step W fuel recurse pandaParentId folder).
Proof.
  intros Hr. unfold Index.folder_step. cbv zeta.
  destruct (Links.folder_uri folder) as [vimeoUri |]; [| pres_step].
  apply (preserves_bind readonly); [intros s; split; reflexivity |].
  intros [pandaFolderId |].
  - apply (preserves_bind readonly); [pres_step | intros _; apply readonly_visit; exact Hr].
  - apply (preserves_bind readonly); [apply readonly_findPandaFolder |]. intros found.
    apply (preserves_bind readonly).
    { destruct (truthy found); [pres_step |].
      apply (preserves_bind readonly); [apply readonly_createPandaFolder | intros ?; pres_step]. }
    intros [pandaFolderId |]; [| pres_step].
    apply (preserves_bind readonly); [intros s; split; reflexivity |].
    intros _. apply readonly_visit. exact Hr.
Qed.

Lemma readonly_folder_pages W fuel url pandaParentId :
  preserves readonly (Index.folder_pages W fuel url pandaParentId).
Proof.
  revert url pandaParentId. induction fuel as [| fuel IH]; intros url pandaParentId; simpl;
    [pres_step |].
  apply (preserves_bind readonly).
  { unfold Index.safeGet, vimeo_get. apply readonly_safe_loop. pres_step. }
  intros data. unfold Index.folders_page.
  destruct data as [page |]; [| pres_step].
  destruct (pg_data page) as [| folders | |]; [pres_step | | pres_step | pres_step].
  apply (preserves_bind readonly).
  - apply (preserves_for_of readonly). intros x. apply readonly_folder_step.
    intros uri parent. apply IH.
  - intros _. destruct (truthy (pg_next page)); [apply IH | pres_step].
Qed.

Lemma readonly_run W fuel : preserves readonly (Index.run W fuel).
Proof.
  unfold Index.run, Index.processFolder.
  apply (preserves_try_catch readonly).
  - apply (preserves_bind readonly); [apply readonly_folder_pages | intros _; pres_step].
  - intros e. apply (preserves_weaken still); [exact still_readonly |].
    apply still_emit. reflexivity.
Qed.

(** *** getVimeoPandaLinks.js: what a request returns *)

Lemma reads_still {A} (c : M A) f : reads c f -> preserves still c.
Proof. intros H s. apply H. Qed.

Lemma reads_grows {A} (c : M A) f : reads c f -> preserves grows c.
Proof. intros H s. apply still_grows, H. Qed.

Lemma retry_loop_Ret W url retries left attempt_ s page s' :
  Links.retry_loop W url retries left attempt_ s = (Ret page, s') -> page = source W url.
Proof.
  revert attempt_ s. induction left as [| left IH]; intros attempt_ s; simpl; [discriminate |].
  unfold vimeo_get, attempt, reading, bind at 1.
  destruct (net W (tick s)) as [| e]; simpl.
  - intros [= <- _]. reflexivity.
  - destruct (status_is 429 e).
    + unfold bind at 1. simpl. unfold bind at 1. simpl. apply IH.
    + destruct (code_is "ECONNRESET" e || code_is "ETIMEDOUT" e); [| discriminate].
      unfold bind at 1. simpl. unfold bind at 1. simpl. apply IH.
Qed.

Lemma still_retry_loop W url retries left attempt_ :
  preserves still (Links.retry_loop W url retries left attempt_).
Proof.
  revert attempt_. induction left as [| left IH]; intros attempt_; simpl; [pres_step |].
  apply (preserves_bind still); [unfold vimeo_get; pres_step |].
  intros [e | page]; [| pres_step].
  repeat first [apply IH | pres_step].
Qed.

Lemma reads_axiosVimeoRetry W url retries :
  reads (Links.axiosVimeoRetry W url retries) (fun _ => source W url).
Proof.
  intros s. split; [apply still_retry_loop |].
  intros v H. unfold Links.axiosVimeoRetry in H.
  destruct (Links.retry_loop W url retries retries 0 s) as [r s'] eqn:E.
  simpl in H. subst r. eapply retry_loop_Ret. exact E.
Qed.

Lemma awaited_reading {B} W url ev (body : State -> B) s :
  is_write ev = false ->
  still s (snd (awaited url (attempt W ev (reading body)) s))
  /\ forall v, fst (awaited url (attempt W ev (reading body)) s) = Ret v ->
               exists s0, same_data s s0 /\ v = body s0.
Proof.
  intros He. split.
  - unfold awaited. revert s. change (preserves still
      (do r <- attempt W ev (reading body);
       match r with inr b => ret b | inl e => throw (AxiosExn e url) end)).
    apply (preserves_bind still); [apply still_attempt; exact He |].
    intros [e | b]; pres_step.
  - unfold awaited, bind.
    destruct (attempt W ev (reading body) s) as [r s1] eqn:E.
    apply attempt_reading in E as (_ & _ & Hb).
    destruct r as [[e | b] | e |]; simpl; intros v [=]. subst v.
    apply Hb. reflexivity.
Qed.

Lemma reads_findPandaFolder W name parent :
  reads (Links.findPandaFolder W name parent) (found_folder name parent).
Proof.
  intros s. unfold Links.findPandaFolder, panda_get_folders.
  destruct (awaited_reading W "/folders" (EGet Panda "/folders" [])
              (fun s => Some (target s)) s eq_refl) as [Hs Hv].
  unfold bind.
  destruct (awaited "/folders" _ s) as [[folders | e |] s1]; simpl in *;
    split; try exact Hs; try (intros v [=]; fail).
  intros v [= <-]. destruct (Hv folders eq_refl) as (s0 & (_ & Ht & _) & ->).
  rewrite Ht. reflexivity.
Qed.

Lemma reads_findPandaVideoByTitle W folderId ttl :
  reads (Links.findPandaVideoByTitle W folderId ttl)
    (fun _ => first_video (panda_videos W folderId ttl)).
Proof.
  intros s. unfold Links.findPandaVideoByTitle, panda_get_videos.
  destruct (awaited_reading W "/videos"
              (EGet Panda "/videos" [("folder_id", folderId); ("title", ttl)])
              (fun _ => panda_videos W folderId ttl) s eq_refl) as [Hs Hv].
  unfold bind.
  destruct (awaited "/videos" _ s) as [[videos | e |] s1]; simpl in *;
    split; try exact Hs; try (intros v [=]; fail).
  intros v [= <-]. destruct (Hv videos eq_refl) as (s0 & _ & ->). reflexivity.
Qed.

(** *** getVimeoPandaLinks.js: one video *)

Lemma emit_after e s : emit e s = (Ret tt, after s 0 0 [e]).
Proof. unfold emit, after. simpl. rewrite Z.add_0_r. reflexivity. Qed.

(** The step for a video whose key is in the table. *)
Lemma video_step_known W pandaFolderId video uri key s :
  it_uri video = Some uri -> Links.formatVimeoUrl uri = Some key ->
  key_exists key (db s) = true ->
  Links.video_step W pandaFolderId video s
  = (Ret tt, after s 0 0 [ESelect key;
                          ELog LLog "[SKIP]" (or_else (it_name video) "sem título")]).
Proof.
  intros Hu Hf Hk. unfold Links.video_step. rewrite Hu, Hf. cbv zeta.
  unfold Links.vimeoVideoExists, select_exists.
  unfold bind at 1. unfold bind at 1. rewrite emit_after.
  change (db (after s 0 0 [ESelect key])) with (db s). rewrite Hk.
  rewrite log_after, after_after. reflexivity.
Qed.

Lemma video_step_new W pandaFolderId video uri key s :
  it_uri video = Some uri -> Links.formatVimeoUrl uri = Some key ->
  key_exists key (db s) = false ->
  Links.video_step W pandaFolderId video s
  = reconcile_new W pandaFolderId (or_else (it_name video) "sem título") key
      (after s 0 0 [ESelect key]).
Proof.
  intros Hu Hf Hk. unfold Links.video_step. rewrite Hu, Hf. cbv zeta.
  unfold Links.vimeoVideoExists, select_exists.
  unfold bind at 1. unfold bind at 1. rewrite emit_after.
  change (db (after s 0 0 [ESelect key])) with (db s). rewrite Hk. reflexivity.
Qed.

Lemma key_exists_insert_mapping key pid ttl now t k :
  key_exists k (Links.insert_mapping key pid ttl now t)
  = key_exists k t || String.eqb k key.
Proof.
  unfold Links.insert_mapping.
  destruct (key_exists k (upsert _ _ _ t)) eqn:E.
  - apply key_exists_spec in E. rewrite keys_upsert in E by reflexivity.
    destruct (key_exists key t) eqn:Ek.
    + apply key_exists_spec in E. rewrite E. reflexivity.
    + apply in_app_iff in E as [E | [<- | []]].
      * apply key_exists_spec in E. rewrite E. reflexivity.
      * rewrite String.eqb_refl. apply eq_sym, orb_true_r.
  - apply eq_sym, orb_false_iff. split.
    + destruct (key_exists k t) eqn:Ek; [| reflexivity].
      rewrite <- E. apply eq_sym, key_exists_spec. rewrite keys_upsert by reflexivity.
      apply key_exists_spec in Ek.
      destruct (key_exists key t); [exact Ek | apply in_app_iff; auto].
    + destruct (String.eqb k key) eqn:Ek; [| reflexivity].
      apply String.eqb_eq in Ek as ->.
      rewrite <- E. apply eq_sym, key_exists_spec. rewrite keys_upsert by reflexivity.
      destruct (key_exists key t) eqn:Ek; [apply key_exists_spec; exact Ek |].
      apply in_app_iff. right. left. reflexivity.
Qed.

Lemma grows_execute_insert key pid ttl ev :
  preserves grows (execute (Links.insert_mapping key pid ttl) ev).
Proof.
  intros s. split; [| reflexivity]. intros k Hk. simpl.
  rewrite key_exists_insert_mapping, Hk. reflexivity.
Qed.

Lemma grows_reconcile_new W pandaFolderId ttl key :
  preserves grows (reconcile_new W pandaFolderId ttl key).
Proof.
  unfold reconcile_new.
  apply (preserves_bind grows).
  { eapply reads_grows, reads_findPandaVideoByTitle. }
  intros [pv |]; cbv zeta.
  - apply (preserves_bind grows); [| intros _; pres_step].
    apply (preserves_bind grows); [apply grows_execute_insert | intros _; pres_step].
  - repeat pres_step.
Qed.

Lemma grows_video_step W pandaFolderId video :
  preserves grows (Links.video_step W pandaFolderId video).
Proof.
  intros s. destruct (it_uri video) as [uri |] eqn:Hu.
  - destruct (Links.formatVimeoUrl uri) as [key |] eqn:Hf.
    + destruct (key_exists key (db s)) eqn:Hk.
      * rewrite (video_step_known W _ _ _ _ _ Hu Hf Hk). split; auto.
      * rewrite (video_step_new W _ _ _ _ _ Hu Hf Hk).
        etransitivity; [| apply grows_reconcile_new]. split; auto.
    + unfold Links.video_step. rewrite Hu, Hf. reflexivity.
  - unfold Links.video_step. rewrite Hu. reflexivity.
Qed.

Lemma still_after s ticks ms evs : writes evs = [] -> still s (after s ticks ms evs).
Proof.
  intros H. repeat split. simpl. unfold writes in *.
  rewrite List.filter_app, H. apply app_nil_r.
Qed.

(** *** Two runs, side by side *)

Lemma sim_ret {A} (a : A) : sim (ret a) (ret a).
Proof.
  intros s1 v s1' s2 [= <- <-] _. split; [reflexivity |]. intros v' [= <-]. reflexivity.
Qed.

Lemma sim_no_return {A} (c1 c2 : M A) : never_returns c1 -> sim c1 c2.
Proof. intros H s1 v s1' s2 E. exfalso. exact (H s1 v s1' E). Qed.

Lemma sim_reads {A} (c : M A) f : reads c f -> sim c c.
Proof.
  intros H s1 v s1' s2 E [_ Ht].
  destruct (H s1) as [(_ & Ht1 & _) Hv1]. rewrite E in Ht1, Hv1. simpl in *.
  destruct (H s2) as [Hs Hv2]. split; [exact Hs |].
  intros v' E'. rewrite (Hv2 v' E'), (Hv1 v eq_refl). congruence.
Qed.

Lemma sim_bind {A B} (c1 c2 : M A) (k1 k2 : A -> M B) :
  sim c1 c2 -> (forall a, sim (k1 a) (k2 a)) -> (forall a, preserves grows (k1 a)) ->
  sim (bind c1 k1) (bind c2 k2).
Proof.
  intros Hc Hk Hg s1 v s1' s2 E Hs.
  apply bind_Ret_inv in E as (a & sm & E1 & E2).
  assert (Hm : grows sm s1'). { specialize (Hg a sm). rewrite E2 in Hg. exact Hg. }
  destruct (Hc s1 a sm s2 E1) as [Hst Hv]; [etransitivity; eassumption |].
  unfold bind. destruct (c2 s2) as [[a' | e |] s2m]; simpl in *.
  - rewrite (Hv a' eq_refl).
    destruct (Hk a sm v s1' s2m E2) as [Hst' Hv'].
    { etransitivity; [exact Hs | apply still_grows; exact Hst]. }
    split; [etransitivity; eassumption | exact Hv'].
  - split; [exact Hst | intros v' [=]].
  - split; [exact Hst | intros v' [=]].
Qed.

Lemma sim_for_of {A} (body1 body2 : A -> M unit) l :
  (forall x, sim (body1 x) (body2 x)) -> (forall x, preserves grows (body1 x)) ->
  sim (for_of body1 l) (for_of body2 l).
Proof.
  intros Hb Hg. induction l as [| x l IH]; simpl.
  - apply sim_ret.
  - apply sim_bind; [apply Hb | intros _; exact IH |].
    intros _. apply (preserves_for_of grows). exact Hg.
Qed.

Lemma sim_video_step W pandaFolderId video :
  sim (Links.video_step W pandaFolderId video) (Links.video_step W pandaFolderId video).
Proof.
  intros s1 v s1' s2 E Hs.
  assert (H1 : grows s1 s1').
  { pose proof (grows_video_step W pandaFolderId video s1) as H. rewrite E in H. exact H. }
  assert (Hunit : forall v' : unit, fst (Links.video_step W pandaFolderId video s2) = Ret v'
                                    -> v' = v).
  { intros [] _. destruct v. reflexivity. }
  split; [| exact Hunit]. clear Hunit.
  destruct (it_uri video) as [uri |] eqn:Hu;
    [| unfold Links.video_step; rewrite Hu; reflexivity].
  destruct (Links.formatVimeoUrl uri) as [key |] eqn:Hf;
    [| unfold Links.video_step; rewrite Hu, Hf; reflexivity].
  destruct (key_exists key (db s2)) eqn:Hk2.
  { rewrite (video_step_known W _ _ _ _ _ Hu Hf Hk2). apply still_after. reflexivity. }
  assert (Hk1' : key_exists key (db s1') = false).
  { destruct (key_exists key (db s1')) eqn:Hk; [| reflexivity].
    apply Hs in Hk. congruence. }
  assert (Hk1 : key_exists key (db s1) = false).
  { destruct (key_exists key (db s1)) eqn:Hk; [| reflexivity].
    apply H1 in Hk. congruence. }
  rewrite (video_step_new W _ _ _ _ _ Hu Hf Hk1) in E.
  rewrite (video_step_new W _ _ _ _ _ Hu Hf Hk2).
  set (ttl := or_else (it_name video) "sem título") in *.
  unfold reconcile_new in E.
  apply bind_Ret_inv in E as (pv & sa & E1 & E2).
  apply bind_Ret_inv in E2 as ([] & sb & E2 & E3).
  injection E3 as E3.
  (* the first run found no video on Panda: it would have written the key *)
  assert (Hpv : first_video (panda_videos W pandaFolderId ttl) = None).
  { destruct (reads_findPandaVideoByTitle W pandaFolderId ttl (after s1 0 0 [ESelect key]))
      as [_ Hv].
    rewrite E1 in Hv. rewrite <- (Hv pv eq_refl).
    destruct pv as [pv |]; [| reflexivity]. exfalso.
    apply bind_Ret_inv in E2 as ([] & sc & E2 & E4).
    injection E2 as E2. rewrite log_after in E4. injection E4 as E4.
    subst s1' sb sc. simpl in Hk1'.
    rewrite key_exists_insert_mapping, String.eqb_refl, orb_true_r in Hk1'.
    discriminate. }
  (* the second run asks again and is told the same *)
  unfold reconcile_new.
  destruct (reads_findPandaVideoByTitle W pandaFolderId ttl (after s2 0 0 [ESelect key]))
    as [Hst Hv].
  unfold bind at 1.
  destruct (Links.findPandaVideoByTitle W pandaFolderId ttl (after s2 0 0 [ESelect key]))
    as [[pv2 | e |] s2a]; simpl in *.
  - rewrite (Hv pv2 eq_refl), Hpv.
    etransitivity; [| etransitivity; [exact Hst |]].
    + apply still_after. reflexivity.
    + apply (preserves_bind still); [pres_step | intros _; pres_step].
  - etransitivity; [| exact Hst]. apply still_after. reflexivity.
  - etransitivity; [| exact Hst]. apply still_after. reflexivity.
Qed.

Lemma sim_out_of_fuel {A} (c1 : M A) : sim c1 out_of_fuel.
Proof. intros s1 v s1' s2 _ _. split; [reflexivity | intros v' [=]]. Qed.

Lemma sim_still {c : M unit} : preserves still c -> sim c c.
Proof.
  intros H. apply (sim_reads c (fun _ => tt)). intros s. split; [apply H |].
  intros [] _. reflexivity.
Qed.

Lemma throw_never_returns {A} e : never_returns (@throw A e).
Proof. intros s a s'. discriminate. Qed.

Lemma out_of_fuel_never_returns {A} : never_returns (@out_of_fuel A).
Proof. intros s a s'. discriminate. Qed.

(** *** getVimeoPandaLinks.js: the loops *)

Lemma grows_videos_page W next_page pandaFolderId data :
  (forall url, preserves grows (next_page url)) ->
  preserves grows (Links.videos_page W next_page pandaFolderId data).
Proof.
  intros Hn. unfold Links.videos_page.
  destruct (iteration (pg_data data)) as [| videos |]; [pres_step | | pres_step].
  apply (preserves_bind grows).
  - apply (preserves_for_of grows). intros x. apply grows_video_step.
  - intros _. destruct (truthy (pg_next data)); [apply Hn | pres_step].
Qed.

Lemma grows_video_pages W fuel pandaFolderId url :
  preserves grows (Links.video_pages W fuel pandaFolderId url).
Proof.
  revert url. induction fuel as [| fuel IH]; intros url; simpl; [pres_step |].
  apply (preserves_bind grows); [eapply reads_grows, reads_axiosVimeoRetry |].
  intros data. apply grows_videos_page. exact IH.
Qed.

Lemma sim_videos_page W next1 next2 pandaFolderId data :
  (forall url, sim (next1 url) (next2 url)) ->
  (forall url, preserves grows (next1 url)) ->
  sim (Links.videos_page W next1 pandaFolderId data)
      (Links.videos_page W next2 pandaFolderId data).
Proof.
  intros Hn Hg. unfold Links.videos_page.
  destruct (iteration (pg_data data)) as [| videos |];
    [apply sim_ret | | apply sim_no_return, throw_never_returns].
  apply sim_bind.
  - apply sim_for_of; intros x; [apply sim_video_step | apply grows_video_step].
  - intros _. destruct (truthy (pg_next data)); [apply Hn | apply sim_ret].
  - intros _. destruct (truthy (pg_next data)); [apply Hg | pres_step].
Qed.

Lemma sim_video_pages W fuel1 fuel2 pandaFolderId url :
  sim (Links.video_pages W fuel1 pandaFolderId url)
      (Links.video_pages W fuel2 pandaFolderId url).
Proof.
  revert fuel2 url. induction fuel1 as [| fuel1 IH]; intros fuel2 url; simpl.
  - apply sim_no_return, out_of_fuel_never_returns.
  - destruct fuel2 as [| fuel2]; simpl; [apply sim_out_of_fuel |].
    apply sim_bind.
    + eapply sim_reads, reads_axiosVimeoRetry.
    + intros data. apply sim_videos_page; [intros u; apply IH |].
      intros u. apply grows_video_pages.
    + intros data. apply grows_videos_page. intros u. apply grows_video_pages.
Qed.

Lemma grows_processVideosInFolder W fuel folder pandaFolderId :
  preserves grows (Links.processVideosInFolder W fuel folder pandaFolderId).
Proof.
  unfold Links.processVideosInFolder.
  destruct (Links.videos_uri folder); [apply grows_video_pages | pres_step].
Qed.

Lemma sim_processVideosInFolder W fuel1 fuel2 folder pandaFolderId :
  sim (Links.processVideosInFolder W fuel1 folder pandaFolderId)
      (Links.processVideosInFolder W fuel2 folder pandaFolderId).
Proof.
  unfold Links.processVideosInFolder.
  destruct (Links.videos_uri folder); [apply sim_video_pages | apply sim_ret].
Qed.

Lemma grows_folder_step W fuel recurse pandaParentId folder :
  (forall uri parent, preserves grows (recurse uri parent)) ->
  preserves grows (Links.folder_step W fuel recurse pandaParentId folder).
Proof.
  intros Hr. unfold Links.folder_step. cbv zeta.
  destruct (Links.folder_uri folder) as [vimeoUri |]; [| pres_step].
  apply (preserves_bind grows); [eapply reads_grows, reads_findPandaFolder |].
  intros found. destruct (truthy found) as [pandaFolderId |]; [| pres_step].
  apply (preserves_bind grows); [apply grows_processVideosInFolder |]. intros _.
  apply (preserves_bind grows); [| intros _; pres_step].
  destruct (Links.items_uri folder); [apply Hr | pres_step].
Qed.

Lemma sim_folder_step W fuel1 fuel2 rec1 rec2 pandaParentId folder :
  (forall uri parent, sim (rec1 uri parent) (rec2 uri parent)) ->
  (forall uri parent, preserves grows (rec1 uri parent)) ->
  sim (Links.folder_step W fuel1 rec1 pandaParentId folder)
      (Links.folder_step W fuel2 rec2 pandaParentId folder).
Proof.
  intros Hr Hg. unfold Links.folder_step. cbv zeta.
  destruct (Links.folder_uri folder) as [vimeoUri |]; [| apply sim_ret].
  apply sim_bind.
  - eapply sim_reads, reads_findPandaFolder.
  - intros found. destruct (truthy found) as [pandaFolderId |];
      [| apply sim_still; pres_step].
    apply sim_bind; [apply sim_processVideosInFolder | |].
    + intros _. apply sim_bind.
      * destruct (Links.items_uri folder); [apply Hr | apply sim_ret].
      * intros _. apply sim_still. pres_step.
      * intros _. pres_step.
    + intros _. apply (preserves_bind grows); [| intros _; pres_step].
      destruct (Links.items_uri folder); [apply Hg | pres_step].
  - intros found. destruct (truthy found) as [pandaFolderId |]; [| pres_step].
    apply (preserves_bind grows); [apply grows_processVideosInFolder |]. intros _.
    apply (preserves_bind grows); [| intros _; pres_step].
    destruct (Links.items_uri folder); [apply Hg | pres_step].
Qed.

Lemma grows_folders_page W fuel recurse next_page pandaParentId data :
  (forall uri parent, preserves grows (recurse uri parent)) ->
  (forall url, preserves grows (next_page url)) ->
  preserves grows (Links.folders_page W fuel recurse next_page pandaParentId data).
Proof.
  intros Hr Hn. unfold Links.folders_page.
  destruct (iteration (pg_data data)) as [| folders |]; [pres_step | | pres_step].
  apply (preserves_bind grows).
  - apply (preserves_for_of grows). intros x. apply grows_folder_step. exact Hr.
  - intros _. destruct (truthy (pg_next data)); [apply Hn | pres_step].
Qed.

Lemma grows_folder_pages W fuel url pandaParentId :
  preserves grows (Links.folder_pages W fuel url pandaParentId).
Proof.
  revert url pandaParentId. induction fuel as [| fuel IH]; intros url pandaParentId; simpl;
    [pres_step |].
  apply (preserves_bind grows); [eapply reads_grows, reads_axiosVimeoRetry |].
  intros data. apply grows_folders_page; intros; apply IH.
Qed.

Lemma sim_folder_pages W fuel1 fuel2 url pandaParentId :
  sim (Links.folder_pages W fuel1 url pandaParentId)
      (Links.folder_pages W fuel2 url pandaParentId).
Proof.
  revert fuel2 url pandaParentId.
  induction fuel1 as [| fuel1 IH]; intros fuel2 url pandaParentId; simpl.
  - apply sim_no_return, out_of_fuel_never_returns.
  - destruct fuel2 as [| fuel2]; simpl; [apply sim_out_of_fuel |].
    apply sim_bind.
    + eapply sim_reads, reads_axiosVimeoRetry.
    + intros data. unfold Links.folders_page.
      destruct (iteration (pg_data data)) as [| folders |];
        [apply sim_ret | | apply sim_no_return, throw_never_returns].
      apply sim_bind.
      * apply sim_for_of; intros x.
        -- apply sim_folder_step; intros; [apply IH | apply grows_folder_pages].
        -- apply grows_folder_step. intros. apply grows_folder_pages.
      * intros _. destruct (truthy (pg_next data)); [apply IH | apply sim_ret].
      * intros _. destruct (truthy (pg_next data)); [apply grows_folder_pages | pres_step].
    + intros data. apply grows_folders_page; intros; apply grows_folder_pages.
Qed.

Lemma sim_run W fuel1 fuel2 : sim (Links.run W fuel1) (Links.run W fuel2).
Proof.
  unfold Links.run, Links.processFolder.
  apply sim_bind; [apply sim_folder_pages | |].
  - intros _. apply sim_still. repeat pres_step.
  - intros _. repeat pres_step.
Qed.

(** C1, script by script.  In getVimeoPandaLinks.js a video whose reference
    has a row in the table (with a Panda id or not) is skipped after the one
    [SELECT]: no request is made and nothing is written.  When a run of that
    script has gone through to its end, a second run against the same Vimeo
    and Panda data, started from the table the first one left, writes nothing,
    whatever the network does to it.  index.js does not look into the table:
    for a video with a download link it evaluates the unbound
    [findPandaVideoByVimeoUrl] and throws, row or no row.  No run of index.js
    writes to the table. *)
Theorem fast_path_and_second_run (W : World) :
  (forall pandaFolderId video uri key row targetVideoId s,
     it_uri video = Some uri -> Links.formatVimeoUrl uri = Some key ->
     In row (db s) -> vimeo_video_id row = key ->
     panda_video_id row = Some targetVideoId ->
     Links.video_step W pandaFolderId video s
     = (Ret tt,
        after s 0 0 [ESelect key;
                     ELog LLog "[SKIP]" (or_else (it_name video) "sem título")]))
  /\ (forall fuel1 fuel2 s1 s1' s2,
        Links.run W fuel1 s1 = (Ret tt, s1') ->
        db s2 = db s1' -> target s2 = target s1' ->
        db (snd (Links.main W fuel2 s2)) = db s2
        /\ writes (trace (snd (Links.main W fuel2 s2))) = writes (trace s2))
  /\ (forall pandaFolderId video uri key row targetVideoId downloadUrl s,
        it_uri video = Some uri -> Index.formatVimeoUrl uri = inr key ->
        In row (db s) -> vimeo_video_id row = key ->
        panda_video_id row = Some targetVideoId ->
        Index.download_url video = Some downloadUrl ->
        Index.video_step pandaFolderId video s
        = (Throw (ReferenceError "findPandaVideoByVimeoUrl"),
           after s 0 0 [EUnbound "findPandaVideoByVimeoUrl"]))
  /\ (forall fuel s,
        db (snd (Index.run W fuel s)) = db s
        /\ writes (trace (snd (Index.run W fuel s))) = writes (trace s)).
Proof.
  repeat apply conj.
  - intros pandaFolderId video uri key row targetVideoId s Hu Hf Hin Hk _.
    apply (video_step_known W _ _ _ _ _ Hu Hf).
    apply key_exists_spec. unfold keys. apply in_map_iff. exists row. auto.
  - intros fuel1 fuel2 s1 s1' s2 Hrun Hdb Ht.
    destruct (sim_run W fuel1 fuel2 s1 tt s1' s2 Hrun) as [(H1 & _ & H2) _].
    { split; [rewrite Hdb; auto | exact Ht]. }
    unfold Links.main, try_catch.
    destruct (Links.run W fuel2 s2) as [[[] | e |] s2']; simpl in *; auto.
    split; [exact H1 |]. rewrite writes_snoc by reflexivity. exact H2.
  - intros pandaFolderId video uri key row targetVideoId downloadUrl s _ _ _ _ _ Hd.
    unfold Index.video_step. rewrite Hd. cbv zeta.
    unfold Index.findPandaVideoByVimeoUrl, Index.unbound, bind, emit, throw, after.
    simpl. rewrite Z.add_0_r. reflexivity.
  - intros fuel s. apply (readonly_run W fuel s).
Qed.

Lemma fast_path_and_second_run_witness :
  Links.video_step (Demo.world Demo.always_ok) "pa"
    (Demo.video "intro" "/videos/10" []) (Demo.start Demo.mapped Demo.panda_folders)
  = (Ret tt,
     after (Demo.start Demo.mapped Demo.panda_folders) 0 0
       [ESelect "https://player.vimeo.com/video/10"; ELog LLog "[SKIP]" "intro"])
  /\ (db (snd (Links.main (Demo.world Demo.always_ok) 5
                 (Demo.start Demo.mapped Demo.panda_folders))) = Demo.mapped
      /\ writes (trace (snd (Links.main (Demo.world Demo.always_ok) 5
                               (Demo.start Demo.mapped Demo.panda_folders)))) = [])
  /\ Index.video_step "pa"
       (Demo.video "intro" "/videos/10" (Demo.hd_link "https://cdn/10.mp4"))
       (Demo.start Demo.mapped Demo.panda_folders)
     = (Throw (ReferenceError "findPandaVideoByVimeoUrl"),
        after (Demo.start Demo.mapped Demo.panda_folders) 0 0
          [EUnbound "findPandaVideoByVimeoUrl"]).
Proof.
  split; [| split].
  - refine (proj1 (fast_path_and_second_run (Demo.world Demo.always_ok))
              "pa" _ "/videos/10" _ _ _ _ _ _ _ _ _);
      [reflexivity | reflexivity | left; reflexivity | reflexivity | reflexivity].
  - refine (proj1 (proj2 (fast_path_and_second_run (Demo.world Demo.always_ok)))
              5%nat 5%nat (Demo.start [] Demo.panda_folders)
              (snd (Links.run (Demo.world Demo.always_ok) 5
                      (Demo.start [] Demo.panda_folders)))
              (Demo.start Demo.mapped Demo.panda_folders) _ _ _);
      vm_compute; reflexivity.
  - refine (proj1 (proj2 (proj2 (fast_path_and_second_run (Demo.world Demo.always_ok))))
              "pa" _ "/videos/10" _ _ _ "https://cdn/10.mp4" _ _ _ _ _ _ _);
      [reflexivity | reflexivity | left; reflexivity | reflexivity | reflexivity
      | reflexivity].
Defined.

(** * Further properties *)

(** ** The reference of a video *)

Lemma match_videos_path_Some path d :
  match_videos_path path = Some d ->
  path = "/videos/" +:+ d /\ d <> "" /\ all_digits d = true.
Proof.
  unfold match_videos_path.
  destruct (strip_prefix "/videos/" path) as [rest |] eqn:E; [| discriminate].
  apply strip_prefix_Some in E.
  destruct rest as [| c rest]; [discriminate |].
  destruct (all_digits (String c rest)) eqn:Hd; [| discriminate].
  intros [= <-]. repeat split; [exact E | discriminate | exact Hd].
Qed.

Lemma append_inj_r (p a b : string) : p +:+ a = p +:+ b -> a = b.
Proof.
  induction p as [| c p IH]; intros H.
  - exact H.
  - change (String c (p +:+ a) = String c (p +:+ b)) in H.
    injection H as H. apply IH. exact H.
Qed.

(** X1. The reference [formatVimeoUrl] derives determines the Vimeo
    identifier: two identifiers that get the same reference are the same
    identifier, in both scripts, and a reference is always
    [https://player.vimeo.com/video/] followed by a non-empty run of digits.
    Two videos never share a row of the table. *)
Theorem formatVimeoUrl_injective (path1 path2 key : string) :
  (Links.formatVimeoUrl path1 = Some key \/ Index.formatVimeoUrl path1 = inr key) ->
  (Links.formatVimeoUrl path2 = Some key \/ Index.formatVimeoUrl path2 = inr key) ->
  path1 = path2
  /\ exists d, d <> "" /\ all_digits d = true
               /\ path1 = "/videos/" +:+ d
               /\ key = "https://player.vimeo.com/video/" +:+ d.
Proof.
  assert (H : forall path,
             Links.formatVimeoUrl path = Some key \/ Index.formatVimeoUrl path = inr key ->
             exists d, d <> "" /\ all_digits d = true /\ path = "/videos/" +:+ d
                       /\ key = "https://player.vimeo.com/video/" +:+ d).
  { intros path. unfold Links.formatVimeoUrl, Index.formatVimeoUrl.
    destruct (match_videos_path path) as [d |] eqn:E;
      [| intros [[=] | [=]]].
    apply match_videos_path_Some in E as (Hp & Hne & Hd).
    intros [[= <-] | [= <-]]; exists d; auto. }
  intros H1 H2.
  destruct (H path1 H1) as (d1 & Hne & Hd & -> & ->).
  destruct (H path2 H2) as (d2 & _ & _ & -> & E).
  apply append_inj_r in E as <-. split; [reflexivity |]. exists d1. auto.
Qed.

Lemma formatVimeoUrl_injective_witness :
  "/videos/123" = "/videos/123"
  /\ exists d, d <> "" /\ all_digits d = true
               /\ "/videos/123" = "/videos/" +:+ d
               /\ "https://player.vimeo.com/video/123"
                  = "https://player.vimeo.com/video/" +:+ d.
Proof.
  apply (formatVimeoUrl_injective "/videos/123" "/videos/123"
           "https://player.vimeo.com/video/123");
    [left; reflexivity | right; reflexivity].
Defined.

(** ** The download link that index.js picks *)

Lemma insert_by_width_head d l :
  (forall first rest, l = first :: rest ->
                      forall x, In x l -> Index.width_of x <= Index.width_of first) ->
  forall first rest, Index.insert_by_width d l = first :: rest ->
    forall x, x = d \/ In x l -> Index.width_of x <= Index.width_of first.
Proof.
  intros Hl first rest E x Hx. destruct l as [| y l]; simpl in E.
  - injection E as <- <-. destruct Hx as [-> | []]. lia.
  - destruct (Index.width_of d <? Index.width_of y) eqn:Hw.
    + injection E as <- <-. apply Z.ltb_lt in Hw.
      destruct Hx as [-> | Hx]; [lia |]. eapply Hl; [reflexivity | exact Hx].
    + injection E as <- <-. apply Z.ltb_ge in Hw.
      destruct Hx as [-> | Hx]; [lia |].
      specialize (Hl y l eq_refl x Hx). lia.
Qed.

Lemma insert_by_width_keeps d l x : x = d \/ In x l -> In x (Index.insert_by_width d l).
Proof.
  induction l as [| y l IH]; simpl.
  - intros [-> | []]. left. reflexivity.
  - destruct (Index.width_of d <? Index.width_of y); simpl.
    + intros [-> | [-> | H]]; auto.
    + intros [-> | [-> | H]]; auto.
Qed.

Lemma sort_by_width_keeps l x : In x l -> In x (Index.sort_by_width l).
Proof.
  induction l as [| d l IH]; simpl; [auto |].
  intros [-> | H]; apply insert_by_width_keeps; auto.
Qed.

Lemma sort_by_width_head l first rest :
  Index.sort_by_width l = first :: rest ->
  forall x, In x l -> Index.width_of x <= Index.width_of first.
Proof.
  revert first rest. induction l as [| d l IH]; intros first rest E x Hx; [destruct Hx |].
  simpl in E. eapply insert_by_width_head; [| exact E |].
  - intros f r Hf y Hy. eapply IH; [exact Hf |]. apply sort_by_width_In. exact Hy.
  - destruct Hx as [-> | Hx]; [auto |]. right. apply sort_by_width_keeps. exact Hx.
Qed.

(** X2. The download link that the loop of index.js keeps for a video is
    the link of an entry of [video.download] that no other entry exceeds in
    width (an entry without a width counts as 0 wide). *)
Theorem download_url_widest (video : Item) (downloadUrl : string) :
  Index.download_url video = Some downloadUrl ->
  exists links first,
    it_download video = Some links /\ In first links
    /\ truthy (dl_link first) = Some downloadUrl
    /\ forall d, In d links -> Index.width_of d <= Index.width_of first.
Proof.
  unfold Index.download_url.
  destruct (it_download video) as [[| d ds] |]; try discriminate.
  destruct (Index.sort_by_width (d :: ds)) as [| first rest] eqn:E; [discriminate |].
  intros H. exists (d :: ds), first. repeat split; [| exact H |].
  - apply sort_by_width_In. rewrite E. left. reflexivity.
  - intros x Hx. eapply sort_by_width_head; eassumption.
Qed.

Lemma download_url_widest_witness :
  exists links first,
    Some [{| dl_width := Some 640; dl_link := Some "https://cdn/sd.mp4" |};
          {| dl_width := Some 1920; dl_link := Some "https://cdn/hd.mp4" |};
          {| dl_width := None; dl_link := Some "https://cdn/src.mp4" |}] = Some links
    /\ In first links
    /\ truthy (dl_link first) = Some "https://cdn/hd.mp4"
    /\ forall d, In d links -> Index.width_of d <= Index.width_of first.
Proof.
  apply (download_url_widest
           (Demo.video "intro" "/videos/10"
              [{| dl_width := Some 640; dl_link := Some "https://cdn/sd.mp4" |};
               {| dl_width := Some 1920; dl_link := Some "https://cdn/hd.mp4" |};
               {| dl_width := None; dl_link := Some "https://cdn/src.mp4" |}])
           "https://cdn/hd.mp4").
  reflexivity.
Defined.

(** ** [axiosVimeoRetry] over several attempts *)

Lemma failing_from_next W p t k :
  failing_from W p t (S k) ->
  (exists e, net W t = NetFail e /\ p e = true) /\ failing_from W p (S t) k.
Proof.
  intros H. split.
  - destruct (H 0%nat ltac:(lia)) as (e & He & Hp). rewrite Nat.add_0_r in He. eauto.
  - intros i Hi. destruct (H (S i) ltac:(lia)) as (e & He & Hp).
    exists e. rewrite Nat.add_succ_r in He. auto.
Qed.

Lemma total_wait_shift delay k :
  total_wait delay (S k) = timer (delay 0%nat) + total_wait (fun i => delay (S i)) k.
Proof.
  induction k as [| k IH]; [simpl; lia |].
  change (total_wait delay (S (S k)))
    with (total_wait delay (S k) + timer (delay (S k))).
  rewrite IH. simpl. lia.
Qed.

Lemma total_wait_ext f g k : (forall i, f i = g i) -> total_wait f k = total_wait g k.
Proof. intros H. induction k as [| k IH]; simpl; [| rewrite IH, H]; reflexivity. Qed.

(** Waits of [c], [2 c], ..., [k c] ms, while they fit a timer. *)
Lemma total_wait_linear c k :
  1 <= c -> c * Z.of_nat k <= 2147483647 ->
  2 * total_wait (fun i => nmul (Num c) (Z.of_nat i + 1)) k
  = c * Z.of_nat k * (Z.of_nat k + 1).
Proof.
  intros Hc. induction k as [| k IH]; intros Hk; [simpl; lia |].
  cbn [total_wait]. rewrite timer_nmul, timer_in_range by nia.
  rewrite Z.mul_add_distr_l, IH by nia. rewrite !Nat2Z.inj_succ. ring.
Qed.

(** A dropped connection in [axiosVimeoRetry]: warn, wait 2 s times the
    attempt, go round. *)
Lemma retry_loop_reset W url retries left attempt_ s err :
  net W (tick s) = NetFail err -> is_reset err = true ->
  Links.retry_loop W url retries (S left) attempt_ s
  = Links.retry_loop W url retries left (S attempt_)
      (after s 1 (timer (nmul (Num 2000) (Z.of_nat attempt_ + 1)))
         [EGet Vimeo url []; ELog LWarn "[CONN RESET]" "";
          ESleep (nmul (Num 2000) (Z.of_nat attempt_ + 1))]).
Proof.
  intros Hnet Hr. apply andb_true_iff in Hr as [H429 Hcode].
  apply negb_true_iff in H429. cbn [Links.retry_loop]. unfold vimeo_get.
  rewrite (bind_Ret _ _ _ _ _ (attempt_fails W _ _ s err Hnet)).
  rewrite H429, Hcode. cbv zeta.
  rewrite (bind_Ret _ _ _ _ _ (log_after _ _ _ _)).
  rewrite (bind_Ret _ _ _ _ _ (sleep_after _ _)).
  rewrite !after_after. reflexivity.
Qed.

(** [k] dropped connections in a row take the loop [k] turns further, after
    waits of 2 s, 4 s, ... counted from the attempt the loop was at. *)
Lemma retry_loop_resets W url retries k :
  forall left attempt_ s,
    failing_from W is_reset (tick s) k ->
    exists s',
      Links.retry_loop W url retries (k + left) attempt_ s
      = Links.retry_loop W url retries left (k + attempt_) s'
      /\ tick s' = (k + tick s)%nat
      /\ clock s' = clock s
                    + total_wait
                        (fun i => nmul (Num 2000) (Z.of_nat (attempt_ + i) + 1)) k
      /\ same_data s s'.
Proof.
  induction k as [| k IH]; intros left attempt_ s H.
  - exists s. simpl. repeat split. lia.
  - apply failing_from_next in H as [(e & Hnet & Hr) H].
    change (S k + left)%nat with (S (k + left)).
    rewrite (retry_loop_reset W url retries (k + left) attempt_ s e Hnet Hr).
    destruct (IH left (S attempt_)
                (after s 1 (timer (nmul (Num 2000) (Z.of_nat attempt_ + 1)))
                   [EGet Vimeo url []; ELog LWarn "[CONN RESET]" "";
                    ESleep (nmul (Num 2000) (Z.of_nat attempt_ + 1))]))
      as (s' & E & Ht & Hc & Hd); [exact H |].
    exists s'. rewrite E. replace (k + S attempt_)%nat with (S k + attempt_)%nat by lia.
    split; [reflexivity |]. split; [rewrite Ht; simpl; lia |]. split.
    + rewrite Hc, total_wait_shift. cbn [clock after]. rewrite Nat.add_0_r.
      rewrite (total_wait_ext (fun i => nmul (Num 2000) (Z.of_nat (attempt_ + S i) + 1))
                 (fun i => nmul (Num 2000) (Z.of_nat (S attempt_ + i) + 1)))
        by (intros i; rewrite Nat.add_succ_r; reflexivity).
      lia.
    + destruct Hd as (H1 & H2 & H3). repeat split; assumption.
Qed.

(** X3. [axiosVimeoRetry] gets over dropped connections: when the first
    [k] attempts are reset or time out and the next one answers, with [k]
    below [retries], the call returns the page after [k + 1] attempts and
    the waits asked in between, of 2 s, 4 s, ..., [2k] s, leaving table and
    folders alone.  The waits take [k (k + 1)] seconds in all as long as the
    longest fits a timer (2^31 - 1 ms, more than a million attempts away);
    past that the timer cuts a wait to 1 ms. *)
Theorem axiosVimeoRetry_recovers (W : World) (url : string) (retries k : nat) (s : State) :
  (k < retries)%nat -> failing_from W is_reset (tick s) k ->
  net W (k + tick s)%nat = NetOk ->
  exists s',
    Links.axiosVimeoRetry W url retries s = (Ret (source W url), s')
    /\ tick s' = (k + 1 + tick s)%nat
    /\ clock s'
       = clock s + total_wait (fun attempt => nmul (Num 2000) (Z.of_nat attempt + 1)) k
    /\ (2000 * Z.of_nat k <= 2147483647 ->
        clock s' = clock s + 1000 * Z.of_nat k * (Z.of_nat k + 1))
    /\ same_data s s'.
Proof.
  intros Hk Hf Hok. unfold Links.axiosVimeoRetry.
  destruct (retry_loop_resets W url retries k (retries - k) 0 s Hf)
    as (s1 & E & Ht & Hc & Hd).
  replace (k + (retries - k))%nat with retries in E by lia. rewrite E.
  destruct (retries - k)%nat as [| left] eqn:El; [lia |].
  cbn [Links.retry_loop]. unfold vimeo_get, attempt, reading, bind. rewrite Ht, Hok.
  eexists. split; [reflexivity |]. cbn [tick clock].
  split; [lia |]. split; [exact Hc |]. split; [| apply Hd].
  intros Hb. rewrite Hc. cbn [Nat.add].
  pose proof (total_wait_linear 2000 k ltac:(lia) Hb). lia.
Qed.

Lemma axiosVimeoRetry_recovers_witness :
  exists s',
    Links.axiosVimeoRetry (Demo.world (Demo.resets 2)) "/folders/1/videos?per_page=50" 5
      (Demo.start [] Demo.panda_folders)
    = (Ret (Demo.vimeo_data "/folders/1/videos?per_page=50"), s')
    /\ tick s' = 3%nat
    /\ clock s' = 0 + total_wait (fun attempt => nmul (Num 2000) (Z.of_nat attempt + 1)) 2
    /\ (2000 * Z.of_nat 2 <= 2147483647 ->
        clock s' = 0 + 1000 * Z.of_nat 2 * (Z.of_nat 2 + 1))
    /\ same_data (Demo.start [] Demo.panda_folders) s'.
Proof.
  apply (axiosVimeoRetry_recovers (Demo.world (Demo.resets 2))
           "/folders/1/videos?per_page=50" 5 2 (Demo.start [] Demo.panda_folders)).
  - lia.
  - intros i Hi. exists Demo.reset_error. split; [| reflexivity]. simpl.
    destruct i as [| [| i]]; [reflexivity | reflexivity | lia].
  - reflexivity.
Defined.

(** X4. [axiosVimeoRetry] gives up after [retries] dropped connections: it
    throws its own "Falha ao acessar Vimeo" error, having made [retries]
    attempts and waited after each of them, the last one included:
    [retries (retries + 1)] seconds in all (30 s for the default 5), as long
    as the longest wait fits a timer. *)
Theorem axiosVimeoRetry_gives_up (W : World) (url : string) (retries : nat) (s : State) :
  failing_from W is_reset (tick s) retries ->
  exists s',
    Links.axiosVimeoRetry W url retries s = (Throw (RetriesExhausted retries url), s')
    /\ tick s' = (retries + tick s)%nat
    /\ clock s'
       = clock s
         + total_wait (fun attempt => nmul (Num 2000) (Z.of_nat attempt + 1)) retries
    /\ (2000 * Z.of_nat retries <= 2147483647 ->
        clock s' = clock s + 1000 * Z.of_nat retries * (Z.of_nat retries + 1))
    /\ same_data s s'.
Proof.
  intros Hf. unfold Links.axiosVimeoRetry.
  destruct (retry_loop_resets W url retries retries 0 0 s Hf) as (s1 & E & Ht & Hc & Hd).
  rewrite Nat.add_0_r in E. rewrite E. cbn [Links.retry_loop].
  exists s1. split; [reflexivity |]. split; [exact Ht |]. split; [exact Hc |].
  split; [| apply Hd].
  intros Hb. rewrite Hc. cbn [Nat.add].
  pose proof (total_wait_linear 2000 retries ltac:(lia) Hb). lia.
Qed.

Lemma axiosVimeoRetry_gives_up_witness :
  exists s',
    Links.axiosVimeoRetry (Demo.world (Demo.resets 9)) "/folders/1/videos?per_page=50" 5
      (Demo.start [] Demo.panda_folders)
    = (Throw (RetriesExhausted 5 "/folders/1/videos?per_page=50"), s')
    /\ tick s' = 5%nat
    /\ clock s' = 0 + total_wait (fun attempt => nmul (Num 2000) (Z.of_nat attempt + 1)) 5
    /\ (2000 * Z.of_nat 5 <= 2147483647 ->
        clock s' = 0 + 1000 * Z.of_nat 5 * (Z.of_nat 5 + 1))
    /\ same_data (Demo.start [] Demo.panda_folders) s'.
Proof.
  apply (axiosVimeoRetry_gives_up (Demo.world (Demo.resets 9))
           "/folders/1/videos?per_page=50" 5 (Demo.start [] Demo.panda_folders)).
  intros i Hi. exists Demo.reset_error. split; [| reflexivity]. simpl.
  do 5 (destruct i as [| i]; [reflexivity |]). lia.
Defined.

(** X5. [axiosVimeoRetry] does not retry an error that is neither a 429 nor
    a dropped connection (an HTTP 500 or 404, say): after any number of
    dropped connections below [retries], such an error is thrown as it is, at
    once. *)
Theorem axiosVimeoRetry_rethrows (W : World) (url : string) (retries k : nat) (s : State)
  (err : AxiosError) :
  (k < retries)%nat -> failing_from W is_reset (tick s) k ->
  net W (k + tick s)%nat = NetFail err ->
  status_is 429 err = false ->
  code_is "ECONNRESET" err || code_is "ETIMEDOUT" err = false ->
  exists s',
    Links.axiosVimeoRetry W url retries s = (Throw (AxiosExn err url), s')
    /\ tick s' = (k + 1 + tick s)%nat
    /\ clock s'
       = clock s + total_wait (fun attempt => nmul (Num 2000) (Z.of_nat attempt + 1)) k
    /\ (2000 * Z.of_nat k <= 2147483647 ->
        clock s' = clock s + 1000 * Z.of_nat k * (Z.of_nat k + 1)).
Proof.
  intros Hk Hf Hnet H429 Hcode. unfold Links.axiosVimeoRetry.
  destruct (retry_loop_resets W url retries k (retries - k) 0 s Hf)
    as (s1 & E & Ht & Hc & Hd).
  replace (k + (retries - k))%nat with retries in E by lia. rewrite E.
  destruct (retries - k)%nat as [| left] eqn:El; [lia |].
  cbn [Links.retry_loop]. unfold vimeo_get, attempt, reading, bind.
  rewrite Ht, Hnet, H429, Hcode.
  eexists. split; [reflexivity |]. cbn [tick clock]. split; [lia |].
  split; [exact Hc |].
  intros Hb. rewrite Hc. cbn [Nat.add].
  pose proof (total_wait_linear 2000 k ltac:(lia) Hb). lia.
Qed.

Lemma axiosVimeoRetry_rethrows_witness :
  exists s',
    Links.axiosVimeoRetry (Demo.world (Demo.failing 500 0 0)) "/folders/1/videos?per_page=50"
      5 (Demo.start [] Demo.panda_folders)
    = (Throw (AxiosExn (Demo.http_error 500 None) "/folders/1/videos?per_page=50"), s')
    /\ tick s' = 1%nat
    /\ clock s' = 0 + total_wait (fun attempt => nmul (Num 2000) (Z.of_nat attempt + 1)) 0
    /\ (2000 * Z.of_nat 0 <= 2147483647 ->
        clock s' = 0 + 1000 * Z.of_nat 0 * (Z.of_nat 0 + 1)).
Proof.
  apply (axiosVimeoRetry_rethrows (Demo.world (Demo.failing 500 0 0))
           "/folders/1/videos?per_page=50" 5 0 (Demo.start [] Demo.panda_folders)
           (Demo.http_error 500 None)).
  - lia.
  - intros i Hi. lia.
  - reflexivity.
  - reflexivity.
  - reflexivity.
Defined.

(** ** [safeGet] and [safePost] over several attempts *)

(** A failure other than a 429, before the last attempt: log, wait 1 s
    times the attempt, go round. *)
Lemma safe_loop_error {B} W ev (serve : State -> B * State) tag url retry left attempt_ s err :
  net W (tick s) = NetFail err -> not_429 err = true -> attempt_ <> retry ->
  Index.safe_loop (attempt W ev serve) tag url retry (S left) attempt_ s
  = Index.safe_loop (attempt W ev serve) tag url retry left (S attempt_)
      (after s 1 (timer (nmul (Num 1000) (Z.of_nat attempt_)))
         [ev; ELog LError tag url; ESleep (nmul (Num 1000) (Z.of_nat attempt_))]).
Proof.
  intros Hnet H429 Hne. apply negb_true_iff in H429. cbn [Index.safe_loop].
  rewrite (bind_Ret _ _ _ _ _ (attempt_fails W _ _ s err Hnet)).
  rewrite (bind_Ret _ _ _ _ _ (log_after _ _ _ _)).
  rewrite H429. apply Nat.eqb_neq in Hne. rewrite Hne.
  rewrite (bind_Ret _ _ _ _ _ (sleep_after _ _)).
  rewrite !after_after. reflexivity.
Qed.

(** The waits of [safeGet] after its attempts 1 to [k], while they fit a
    timer. *)
Lemma total_wait_safe k :
  1000 * Z.of_nat k <= 2147483647 ->
  total_wait (fun i => nmul (Num 1000) (Z.of_nat (1 + i))) k
  = 500 * Z.of_nat k * (Z.of_nat k + 1).
Proof.
  intros Hk. pose proof (total_wait_linear 1000 k ltac:(lia) Hk) as H.
  rewrite (total_wait_ext _ (fun i => nmul (Num 1000) (Z.of_nat i + 1))).
  - lia.
  - intros i. rewrite Nat2Z.inj_add. f_equal. lia.
Qed.

Lemma safe_loop_errors {B} W ev (serve : State -> B * State) tag url retry k :
  forall left attempt_ s,
    failing_from W not_429 (tick s) k -> (k + attempt_ <= retry)%nat ->
    exists s',
      Index.safe_loop (attempt W ev serve) tag url retry (k + left) attempt_ s
      = Index.safe_loop (attempt W ev serve) tag url retry left (k + attempt_) s'
      /\ tick s' = (k + tick s)%nat
      /\ clock s' = clock s
                    + total_wait (fun i => nmul (Num 1000) (Z.of_nat (attempt_ + i))) k
      /\ same_data s s'.
Proof.
  induction k as [| k IH]; intros left attempt_ s H Hle.
  - exists s. simpl. repeat split. lia.
  - apply failing_from_next in H as [(e & Hnet & Hr) H].
    change (S k + left)%nat with (S (k + left)).
    rewrite (safe_loop_error W ev serve tag url retry (k + left) attempt_ s e Hnet Hr)
      by lia.
    destruct (IH left (S attempt_)
                (after s 1 (timer (nmul (Num 1000) (Z.of_nat attempt_)))
                   [ev; ELog LError tag url;
                    ESleep (nmul (Num 1000) (Z.of_nat attempt_))]))
      as (s' & E & Ht & Hc & Hd); [exact H | lia |].
    exists s'. rewrite E. replace (k + S attempt_)%nat with (S k + attempt_)%nat by lia.
    split; [reflexivity |]. split; [rewrite Ht; simpl; lia |]. split.
    + rewrite Hc, total_wait_shift. cbn [clock after]. rewrite Nat.add_0_r.
      rewrite (total_wait_ext (fun i => nmul (Num 1000) (Z.of_nat (attempt_ + S i)))
                 (fun i => nmul (Num 1000) (Z.of_nat (S attempt_ + i))))
        by (intros i; rewrite Nat.add_succ_r; reflexivity).
      lia.
    + destruct Hd as (H1 & H2 & H3). repeat split; assumption.
Qed.

Lemma safe_loop_recovers {B} W ev (body : State -> B) tag url retry k s :
  (k < retry)%nat -> failing_from W not_429 (tick s) k ->
  net W (k + tick s)%nat = NetOk ->
  exists s',
    Index.safe_loop (attempt W ev (reading body)) tag url retry retry 1 s
    = (Ret (Some (body s')), s')
    /\ tick s' = (k + 1 + tick s)%nat
    /\ clock s' = clock s + total_wait (fun i => nmul (Num 1000) (Z.of_nat (1 + i))) k
    /\ (1000 * Z.of_nat k <= 2147483647 ->
        clock s' = clock s + 500 * Z.of_nat k * (Z.of_nat k + 1))
    /\ same_data s s'.
Proof.
  intros Hk Hf Hok.
  destruct (safe_loop_errors W ev (reading body) tag url retry k (retry - k) 1 s Hf)
    as (s1 & E & Ht & Hc & Hd); [lia |].
  replace (k + (retry - k))%nat with retry in E by lia. rewrite E.
  destruct (retry - k)%nat as [| left] eqn:El; [lia |].
  cbn [Index.safe_loop]. unfold attempt, reading, bind. rewrite Ht, Hok.
  eexists. split; [reflexivity |]. cbn [tick clock].
  split; [lia |]. split; [exact Hc |]. split; [| apply Hd].
  intros Hb. rewrite Hc, (total_wait_safe k Hb). reflexivity.
Qed.

(** X6. [safeGet] and [safePost] get over failures that are not 429s: when
    the first [k] attempts fail and the next one answers, with [k] below
    [retry], the call returns the body after [k + 1] attempts and the waits
    asked in between, of 1 s, 2 s, ..., [k] s, leaving table, folders and
    cache alone.  The waits take [k (k + 1) / 2] seconds in all as long as
    the longest fits a timer (2^31 - 1 ms); past that the timer cuts a wait to
    1 ms. *)
Theorem safeGet_recovers {B} (W : World) (ev : Event) (body : State -> B) (url : string)
  (retry k : nat) (s : State) :
  (k < retry)%nat -> failing_from W not_429 (tick s) k ->
  net W (k + tick s)%nat = NetOk ->
  (exists s',
     Index.safeGet (attempt W ev (reading body)) url retry s = (Ret (Some (body s')), s')
     /\ tick s' = (k + 1 + tick s)%nat
     /\ clock s' = clock s + total_wait (fun i => nmul (Num 1000) (Z.of_nat (1 + i))) k
     /\ (1000 * Z.of_nat k <= 2147483647 ->
         clock s' = clock s + 500 * Z.of_nat k * (Z.of_nat k + 1))
     /\ same_data s s')
  /\ (exists s',
        Index.safePost (attempt W ev (reading body)) url retry s = (Ret (Some (body s')), s')
        /\ tick s' = (k + 1 + tick s)%nat
        /\ clock s' = clock s + total_wait (fun i => nmul (Num 1000) (Z.of_nat (1 + i))) k
        /\ (1000 * Z.of_nat k <= 2147483647 ->
            clock s' = clock s + 500 * Z.of_nat k * (Z.of_nat k + 1))
        /\ same_data s s').
Proof.
  intros Hk Hf Hok. split; apply safe_loop_recovers; assumption.
Qed.

Lemma safeGet_recovers_witness :
  exists s',
    Index.safeGet (vimeo_get (Demo.world (Demo.failing 500 0 1))
                     "/folders/1/videos?per_page=100")
      "/folders/1/videos?per_page=100" 3 (Demo.start [] Demo.panda_folders)
    = (Ret (Some (Demo.vimeo_data "/folders/1/videos?per_page=100")), s')
    /\ tick s' = 3%nat
    /\ clock s' = 0 + total_wait (fun i => nmul (Num 1000) (Z.of_nat (1 + i))) 2
    /\ (1000 * Z.of_nat 2 <= 2147483647 ->
        clock s' = 0 + 500 * Z.of_nat 2 * (Z.of_nat 2 + 1))
    /\ same_data (Demo.start [] Demo.panda_folders) s'.
Proof.
  apply (safeGet_recovers (Demo.world (Demo.failing 500 0 1))
           (EGet Vimeo "/folders/1/videos?per_page=100" [])
           (fun _ => Demo.vimeo_data "/folders/1/videos?per_page=100")
           "/folders/1/videos?per_page=100" 3 2 (Demo.start [] Demo.panda_folders)).
  - lia.
  - intros i Hi. exists (Demo.http_error 500 None). split; [| reflexivity]. simpl.
    destruct i as [| [| i]]; [reflexivity | reflexivity | lia].
  - reflexivity.
Defined.

(** X7. [safeGet] and [safePost] give up on failures that are not 429s:
    when all [retry] attempts fail, the error of the last attempt is thrown as
    it is, after [retry] attempts and waits of 1 s, 2 s, ... asked after each
    attempt but the last (a wait that does not fit a timer is cut to 1 ms). *)
Theorem safeGet_gives_up {B} (W : World) (ev : Event) (serve : State -> B * State)
  (url : string) (n : nat) (s : State) (err : AxiosError) :
  failing_from W not_429 (tick s) (S n) ->
  net W (n + tick s)%nat = NetFail err ->
  (exists s',
     Index.safeGet (attempt W ev serve) url (S n) s = (Throw (AxiosExn err url), s')
     /\ tick s' = (S n + tick s)%nat
     /\ clock s' = clock s + total_wait (fun i => nmul (Num 1000) (Z.of_nat (1 + i))) n
     /\ (1000 * Z.of_nat n <= 2147483647 ->
         clock s' = clock s + 500 * Z.of_nat n * (Z.of_nat n + 1))
     /\ same_data s s')
  /\ (exists s',
        Index.safePost (attempt W ev serve) url (S n) s = (Throw (AxiosExn err url), s')
        /\ tick s' = (S n + tick s)%nat
        /\ clock s' = clock s + total_wait (fun i => nmul (Num 1000) (Z.of_nat (1 + i))) n
        /\ (1000 * Z.of_nat n <= 2147483647 ->
            clock s' = clock s + 500 * Z.of_nat n * (Z.of_nat n + 1))
        /\ same_data s s').
Proof.
  intros Hf Hnet.
  assert (H : forall tag, exists s',
             Index.safe_loop (attempt W ev serve) tag url (S n) (S n) 1 s
             = (Throw (AxiosExn err url), s')
             /\ tick s' = (S n + tick s)%nat
             /\ clock s'
                = clock s + total_wait (fun i => nmul (Num 1000) (Z.of_nat (1 + i))) n
             /\ (1000 * Z.of_nat n <= 2147483647 ->
                 clock s' = clock s + 500 * Z.of_nat n * (Z.of_nat n + 1))
             /\ same_data s s').
  { intros tag.
    assert (Hf' : failing_from W not_429 (tick s) n).
    { intros i Hi. apply Hf. lia. }
    destruct (safe_loop_errors W ev serve tag url (S n) n 1 1 s Hf')
      as (s1 & E & Ht & Hc & Hd); [lia |].
    replace (n + 1)%nat with (S n) in E by lia. rewrite E.
    destruct (Hf n ltac:(lia)) as (e & He & H429).
    rewrite Nat.add_comm, Hnet in He. injection He as <-.
    apply negb_true_iff in H429.
    cbn [Index.safe_loop]. unfold attempt at 1. unfold bind at 1. rewrite Ht, Hnet.
    unfold bind at 1. unfold log, emit. cbn [fst snd]. rewrite H429, Nat.eqb_refl.
    eexists. split; [reflexivity |].
    split; [simpl; lia |]. split; [exact Hc |]. split.
    - intros Hb. cbn [clock]. rewrite Hc, (total_wait_safe n Hb). reflexivity.
    - destruct Hd as (H1 & H2 & H3). repeat split; assumption. }
  split; apply H.
Qed.

Lemma safeGet_gives_up_witness :
  exists s',
    Index.safeGet (vimeo_get (Demo.world (Demo.failing 500 0 9))
                     "/folders/1/videos?per_page=100")
      "/folders/1/videos?per_page=100" 3 (Demo.start [] Demo.panda_folders)
    = (Throw (AxiosExn (Demo.http_error 500 None) "/folders/1/videos?per_page=100"), s')
    /\ tick s' = 3%nat
    /\ clock s' = 0 + total_wait (fun i => nmul (Num 1000) (Z.of_nat (1 + i))) 2
    /\ (1000 * Z.of_nat 2 <= 2147483647 ->
        clock s' = 0 + 500 * Z.of_nat 2 * (Z.of_nat 2 + 1))
    /\ same_data (Demo.start [] Demo.panda_folders) s'.
Proof.
  apply (safeGet_gives_up (Demo.world (Demo.failing 500 0 9))
           (EGet Vimeo "/folders/1/videos?per_page=100" [])
           (reading (fun _ => Demo.vimeo_data "/folders/1/videos?per_page=100"))
           "/folders/1/videos?per_page=100" 2 (Demo.start [] Demo.panda_folders)
           (Demo.http_error 500 None)).
  - intros i Hi. exists (Demo.http_error 500 None). split; [| reflexivity]. simpl.
    do 3 (destruct i as [| i]; [reflexivity |]). lia.
  - reflexivity.
Defined.

(** ** The table under the two statements *)


Lemma upsert_absent k fresh upd t :
  key_exists k t = false -> upsert k fresh upd t = (t ++ [fresh])%list.
Proof.
  unfold key_exists. induction t as [| r t IH]; simpl; [reflexivity |].
  intros H. apply orb_false_iff in H as [H1 H2]. rewrite H1, IH by exact H2. reflexivity.
Qed.

(** X8. A write touches one row only.  Under either statement the keys of
    the table stay in their order, with the written key added at the end when
    it was not there, and the rows under every other key are what they were. *)
Theorem insert_mapping_frame (t : list Row) (k : string) :
  (forall p w ttl n,
     keys (Index.insert_mapping k p w ttl n t)
     = (if key_exists k t then keys t else keys t ++ [k])%list
     /\ forall k', k' <> k ->
                   rows_of k' (Index.insert_mapping k p w ttl n t) = rows_of k' t)
  /\ (forall p ttl n,
        keys (Links.insert_mapping k p ttl n t)
        = (if key_exists k t then keys t else keys t ++ [k])%list
        /\ forall k', k' <> k ->
                      rows_of k' (Links.insert_mapping k p ttl n t) = rows_of k' t).
Proof.
  split; intros; (split; [apply keys_upsert; reflexivity |]);
    intros k' Hk; apply rows_of_upsert_other; auto.
Qed.



(** ** One video in getVimeoPandaLinks.js *)

Lemma video_step_absent (W : World) (pandaFolderId : string) (video : Item)
  (uri key : string) (s : State) :
  it_uri video = Some uri -> Links.formatVimeoUrl uri = Some key ->
  key_exists key (db s) = false ->
  let ttl := or_else (it_name video) "sem título" in
  let asked := [ESelect key;
                EGet Panda "/videos" [("folder_id", pandaFolderId); ("title", ttl)]] in
  Links.video_step W pandaFolderId video s
  = match net W (tick s) with
    | NetFail e => (Throw (AxiosExn e "/videos"), after s 1 0 asked)
    | NetOk =>
        match first_video (panda_videos W pandaFolderId ttl) with
        | None =>
            (Ret tt, after s 1 300 (asked ++ [ELog LWarn "[MISS]" ttl; ESleep (Num 300)]))
        | Some pv =>
            let embed := formatPandaIdToUrl (pv_external_id pv) in
            (Ret tt,
             {| db := db s ++ [{| vimeo_video_id := key; panda_video_id := Some embed;
                                  panda_websocket_url := None; title := Some ttl;
                                  updated_at := clock s |}];
                folderMap := folderMap s; target := target s;
                tick := S (tick s); clock := clock s + 300;
                trace := trace s ++ asked
                         ++ [EUpsert key (Some embed) None (Some ttl);
                             ELog LLog "[MAP]" ttl; ESleep (Num 300)] |})
        end
    end%list.
Proof.
  intros Hu Hf Hk ttl asked.
  rewrite (video_step_new W _ _ _ _ _ Hu Hf Hk). fold ttl.
  unfold reconcile_new, Links.findPandaVideoByTitle, awaited, panda_get_videos,
    attempt, reading, bind.
  change (tick (after s 0 0 [ESelect key])) with (tick s).
  destruct (net W (tick s)) as [| e]; simpl.
  - unfold first_video.
    destruct (panda_videos W pandaFolderId ttl) as [[| pv vs] |]; simpl;
      unfold after, sleep, emit; simpl;
      rewrite ?Z.add_0_r, <- ?app_assoc; simpl; try reflexivity.
    unfold Links.insert_mapping. rewrite upsert_absent by exact Hk. reflexivity.
  - unfold after. simpl. rewrite !Z.add_0_r, <- app_assoc. reflexivity.
Qed.



(** ** [uploadVideoToPanda] *)

Lemma saveVideoMapping_throws id pid ws ttl s :
  (forall path, id = Some path -> match_videos_path path = None) ->
  exists e, Index.saveVideoMapping id pid ws ttl s = (Throw e, s).
Proof.
  intros Hbad. unfold Index.saveVideoMapping. destruct id as [path |].
  - unfold Index.formatVimeoUrl. rewrite (Hbad path eq_refl). eexists. reflexivity.
  - eexists. reflexivity.
Qed.

Lemma upload_turn_failed W ev (serve : State -> option PandaVideo * State) ttl id n s e :
  net W (tick s) = NetFail e ->
  Index.upload_turn (attempt W ev serve) ttl id n s
  = if (n =? 3)%nat
    then (Ret (Some None),
          after s 1 0 [ev; ELog LError "[Panda] Erro upload" ttl;
                       ELog LError "[Panda] Falha definitiva no upload" ttl])
    else (Ret None,
          after s 1 (timer (nmul (Num 1000) (Z.of_nat n)))
            [ev; ELog LError "[Panda] Erro upload" ttl;
             ESleep (nmul (Num 1000) (Z.of_nat n))]).
Proof.
  intros Hnet. unfold Index.upload_turn, try_catch, awaited, bind at 1 2, attempt.
  rewrite Hnet. simpl. unfold bind, log, emit, sleep, ret, after. simpl.
  destruct (n =? 3)%nat; simpl; rewrite <- ?app_assoc; simpl.
  - rewrite Z.add_0_r. reflexivity.
  - reflexivity.
Qed.

Lemma upload_turn_unsaved W ev data ttl id n s :
  net W (tick s) = NetOk ->
  (forall path, id = Some path -> match_videos_path path = None) ->
  Index.upload_turn (attempt W ev (reading (fun _ => data))) ttl id n s
  = let sent := [ev; ELog LLog "[Panda] enviado com sucesso" ttl;
                 ELog LLog "{vimeoVideoId, pandaVideoId, pandaWebsocketUrl, title}" ttl;
                 ELog LError "[Panda] Erro upload" ttl] in
    if (n =? 3)%nat
    then (Ret (Some None),
          after s 1 0 (sent ++ [ELog LError "[Panda] Falha definitiva no upload" ttl]))
    else (Ret None,
          after s 1 (timer (nmul (Num 1000) (Z.of_nat n)))
            (sent ++ [ESleep (nmul (Num 1000) (Z.of_nat n))])).
Proof.
  intros Hnet Hbad. unfold Index.upload_turn, try_catch, awaited, bind at 1 2 3 4, attempt.
  rewrite Hnet. simpl. unfold log at 1 2, emit. simpl.
  unfold bind at 1.
  match goal with |- context [Index.saveVideoMapping ?i ?p ?w ?t ?s0] =>
    destruct (saveVideoMapping_throws i p w t s0 Hbad) as [x ->] end.
  simpl. unfold bind, log, emit, sleep, ret, after. simpl.
  destruct (n =? 3)%nat; simpl; rewrite <- ?app_assoc; simpl.
  - rewrite Z.add_0_r. reflexivity.
  - reflexivity.
Qed.


Lemma total_saveVideoMapping id pid ws ttl : total (Index.saveVideoMapping id pid ws ttl).
Proof.
  unfold Index.saveVideoMapping. destruct id as [path |]; [| apply total_throw].
  destruct (Index.formatVimeoUrl path); [apply total_throw |].
  apply total_bind; [intros s0; discriminate | intros _; apply total_emit].
Qed.

Lemma upload_turn_returns post ttl id n s :
  total post -> exists r s', Index.upload_turn post ttl id n s = (Ret r, s').
Proof.
  intros Hp. apply try_catch_returns.
  - apply total_bind.
    + apply total_bind; [exact Hp |]. intros [e | b]; [apply total_throw | apply total_ret].
    + intros data. apply total_bind; [apply total_emit |]. intros _.
      apply total_bind; [apply total_emit |]. intros _.
      apply total_bind; [apply total_saveVideoMapping |]. intros _. apply total_ret.
  - intros e s0. destruct (n =? 3)%nat; eexists _, _; reflexivity.
Qed.

Lemma upload_turn_bad W ev data ttl id n s :
  (forall path, id = Some path -> match_videos_path path = None) ->
  exists evs,
    Index.upload_turn (attempt W ev (reading (fun _ => data))) ttl id n s
    = if (n =? 3)%nat then (Ret (Some None), after s 1 0 evs)
      else (Ret None, after s 1 (timer (nmul (Num 1000) (Z.of_nat n))) evs).
Proof.
  intros Hbad. destruct (net W (tick s)) as [| e] eqn:Hnet.
  - rewrite (upload_turn_unsaved W ev data ttl id n s Hnet Hbad). cbv zeta.
    destruct (n =? 3)%nat; eexists; reflexivity.
  - rewrite (upload_turn_failed W ev _ ttl id n s e Hnet).
    destruct (n =? 3)%nat; eexists; reflexivity.
Qed.

(** X11. [uploadVideoToPanda] never throws: whatever the request and the
    table do, the call returns, with the body of the response or with
    [null]. *)
Theorem uploadVideoToPanda_returns (post : M (AxiosError + option PandaVideo))
  (ttl : string) (vimeoVideoId : option string) :
  total post ->
  forall s, exists r s', Index.uploadVideoToPanda post ttl vimeoVideoId s = (Ret r, s').
Proof.
  intros Hp. unfold Index.uploadVideoToPanda.
  assert (H : forall left n s, exists r s',
               Index.upload_loop post ttl vimeoVideoId left n s = (Ret r, s'));
    [| intros s; apply H].
  intros left. induction left as [| left IH]; intros n s; simpl.
  - eexists _, _. reflexivity.
  - destruct (upload_turn_returns post ttl vimeoVideoId n s Hp) as (r & s1 & E).
    unfold bind. rewrite E. destruct r as [result |].
    + eexists _, _. reflexivity.
    + apply IH.
Qed.

Lemma uploadVideoToPanda_returns_witness :
  exists r s',
    Index.uploadVideoToPanda (Demo.upload (Demo.world (Demo.resets 1)) "pa" "late") "late"
      None (Demo.start [] Demo.panda_folders) = (Ret r, s').
Proof.
  apply (uploadVideoToPanda_returns
           (Demo.upload (Demo.world (Demo.resets 1)) "pa" "late") "late" None).
  apply total_attempt.
Defined.



(** X13. The reference is checked after the upload, inside the [try].  With
    no reference, or one that is not [/videos/{digits}], every turn of the
    loop ends in the [catch], whether its request failed or was answered: the
    function makes three requests, waits 1000 and 2000 ms between them,
    returns [null] and leaves the table as it was.  A video whose requests are
    all answered is then uploaded three times and mapped never. *)
Theorem uploadVideoToPanda_bad_reference (W : World) (ev : Event)
  (data : option PandaVideo) (ttl : string) (vimeoVideoId : option string) (s : State) :
  (forall path, vimeoVideoId = Some path -> match_videos_path path = None) ->
  exists evs,
    Index.uploadVideoToPanda (attempt W ev (reading (fun _ => data))) ttl vimeoVideoId s
    = (Ret None, after s 3 3000 evs).
Proof.
  intros Hbad. unfold Index.uploadVideoToPanda. simpl. unfold bind.
  destruct (upload_turn_bad W ev data ttl vimeoVideoId 1 s Hbad) as (evs1 & ->). simpl.
  match goal with |- context [Index.upload_turn _ _ _ 2 ?st] =>
    destruct (upload_turn_bad W ev data ttl vimeoVideoId 2 st Hbad) as (evs2 & ->) end.
  simpl.
  match goal with |- context [Index.upload_turn _ _ _ 3 ?st] =>
    destruct (upload_turn_bad W ev data ttl vimeoVideoId 3 st Hbad) as (evs3 & ->) end.
  simpl. rewrite !after_after. eexists. reflexivity.
Qed.

Lemma uploadVideoToPanda_bad_reference_witness :
  exists evs,
    Index.uploadVideoToPanda (Demo.upload (Demo.world Demo.always_ok) "pa" "late") "late"
      (Some "/videos/30?x") (Demo.start Demo.mapped Demo.panda_folders)
    = (Ret None, after (Demo.start Demo.mapped Demo.panda_folders) 3 3000 evs).
Proof.
  apply (uploadVideoToPanda_bad_reference (Demo.world Demo.always_ok)
           (EPost Panda Index.PANDA_UPLOAD_URL "late" (Some "pa")) (Some Demo.uploaded)
           "late" (Some "/videos/30?x") (Demo.start Demo.mapped Demo.panda_folders)).
  intros path E. injection E as <-. reflexivity.
Defined.

(** X14. When the three requests fail, whatever the errors (a 429 is
    treated like any other), [uploadVideoToPanda] returns [null] after three
    requests and 3000 ms; the table is as it was, and the trace is three
    attempts, each followed by the error message, with the two waits between
    them and the final message at the end. *)
Theorem uploadVideoToPanda_gives_up (W : World) (ev : Event)
  (serve : State -> option PandaVideo * State) (ttl : string)
  (vimeoVideoId : option string) (s : State) :
  failing_from W (fun _ => true) (tick s) 3 ->
  let failed := [ev; ELog LError "[Panda] Erro upload" ttl] in
  Index.uploadVideoToPanda (attempt W ev serve) ttl vimeoVideoId s
  = (Ret None,
     after s 3 3000
       (failed ++ [ESleep (Num 1000)] ++ failed ++ [ESleep (Num 2000)] ++ failed
        ++ [ELog LError "[Panda] Falha definitiva no upload" ttl])).
Proof.
  intros Hfail failed. subst failed.
  destruct (Hfail 0%nat ltac:(lia)) as (e0 & H0 & _). rewrite Nat.add_0_r in H0.
  destruct (Hfail 1%nat ltac:(lia)) as (e1 & H1 & _).
  destruct (Hfail 2%nat ltac:(lia)) as (e2 & H2 & _).
  replace (tick s + 1)%nat with (S (tick s)) in H1 by lia.
  replace (tick s + 2)%nat with (S (S (tick s))) in H2 by lia.
  unfold Index.uploadVideoToPanda. simpl. unfold bind.
  rewrite (upload_turn_failed W ev serve ttl vimeoVideoId 1 s e0 H0). simpl.
  match goal with |- context [Index.upload_turn _ _ _ 2 ?st] =>
    rewrite (upload_turn_failed W ev serve ttl vimeoVideoId 2 st e1 H1) end. simpl.
  match goal with |- context [Index.upload_turn _ _ _ 3 ?st] =>
    rewrite (upload_turn_failed W ev serve ttl vimeoVideoId 3 st e2 H2) end. simpl.
  rewrite !after_after. reflexivity.
Qed.

Lemma uploadVideoToPanda_gives_up_witness :
  Index.uploadVideoToPanda (Demo.upload (Demo.world (Demo.resets 3)) "pa" "late")
    "late" (Some "/videos/30") (Demo.start Demo.mapped Demo.panda_folders)
  = (Ret None,
     after (Demo.start Demo.mapped Demo.panda_folders) 3 3000
       [EPost Panda Index.PANDA_UPLOAD_URL "late" (Some "pa");
        ELog LError "[Panda] Erro upload" "late"; ESleep (Num 1000);
        EPost Panda Index.PANDA_UPLOAD_URL "late" (Some "pa");
        ELog LError "[Panda] Erro upload" "late"; ESleep (Num 2000);
        EPost Panda Index.PANDA_UPLOAD_URL "late" (Some "pa");
        ELog LError "[Panda] Erro upload" "late";
        ELog LError "[Panda] Falha definitiva no upload" "late"]).
Proof.
  refine (uploadVideoToPanda_gives_up (Demo.world (Demo.resets 3))
            (EPost Panda Index.PANDA_UPLOAD_URL "late" (Some "pa"))
            (reading (fun _ => Some Demo.uploaded)) "late" (Some "/videos/30")
            (Demo.start Demo.mapped Demo.panda_folders) _).
  intros i Hi. exists Demo.reset_error. split; [| reflexivity].
  destruct i as [| [| [| i]]]; [reflexivity | reflexivity | reflexivity | lia].
Defined.

(** ** C6: the derived reference *)



(** ** What the walk of getVimeoPandaLinks.js keeps

    A relation between states that holds across whatever leaves the table
    and Panda alone, and across the step for one video, holds across the
    whole script. *)

Section Walk.
Context (R : relation State) `{!PreOrder R}.
Variable W : World.
Hypothesis R_still : forall s s', still s s' -> R s s'.
Hypothesis R_video :
  forall pandaFolderId video, preserves R (Links.video_step W pandaFolderId video).

Lemma walk_reads {A} (c : M A) f : reads c f -> preserves R c.
Proof. intros H s. apply R_still, H. Qed.

Lemma walk_still {A} (c : M A) : preserves still c -> preserves R c.
Proof. intros H s. apply R_still, H. Qed.

Lemma walk_videos_page next_page pandaFolderId data :
  (forall url, preserves R (next_page url)) ->
  preserves R (Links.videos_page W next_page pandaFolderId data).
Proof.
  intros Hn. unfold Links.videos_page.
  destruct (iteration (pg_data data)) as [| videos |];
    [apply (preserves_ret R) | | apply (preserves_throw R)].
  apply (preserves_bind R).
  - apply (preserves_for_of R). intros x. apply R_video.
  - intros _. destruct (truthy (pg_next data)); [apply Hn | apply (preserves_ret R)].
Qed.

Lemma walk_video_pages fuel pandaFolderId url :
  preserves R (Links.video_pages W fuel pandaFolderId url).
Proof.
  revert url. induction fuel as [| fuel IH]; intros url; simpl;
    [apply (preserves_out_of_fuel R) |].
  apply (preserves_bind R); [eapply walk_reads, reads_axiosVimeoRetry |].
  intros data. apply walk_videos_page. exact IH.
Qed.

Lemma walk_processVideosInFolder fuel folder pandaFolderId :
  preserves R (Links.processVideosInFolder W fuel folder pandaFolderId).
Proof.
  unfold Links.processVideosInFolder.
  destruct (Links.videos_uri folder); [apply walk_video_pages | apply (preserves_ret R)].
Qed.

Lemma walk_folder_step fuel recurse pandaParentId folder :
  (forall uri parent, preserves R (recurse uri parent)) ->
  preserves R (Links.folder_step W fuel recurse pandaParentId folder).
Proof.
  intros Hr. unfold Links.folder_step. cbv zeta.
  destruct (Links.folder_uri folder) as [vimeoUri |]; [| apply (preserves_ret R)].
  apply (preserves_bind R); [eapply walk_reads, reads_findPandaFolder |].
  intros found. destruct (truthy found) as [pandaFolderId |];
    [| apply walk_still, still_log].
  apply (preserves_bind R); [apply walk_processVideosInFolder |]. intros _.
  apply (preserves_bind R); [| intros _; apply walk_still, still_sleep].
  destruct (Links.items_uri folder); [apply Hr | apply (preserves_ret R)].
Qed.

Lemma walk_folders_page fuel recurse next_page pandaParentId data :
  (forall uri parent, preserves R (recurse uri parent)) ->
  (forall url, preserves R (next_page url)) ->
  preserves R (Links.folders_page W fuel recurse next_page pandaParentId data).
Proof.
  intros Hr Hn. unfold Links.folders_page.
  destruct (iteration (pg_data data)) as [| folders |];
    [apply (preserves_ret R) | | apply (preserves_throw R)].
  apply (preserves_bind R).
  - apply (preserves_for_of R). intros x. apply walk_folder_step. exact Hr.
  - intros _. destruct (truthy (pg_next data)); [apply Hn | apply (preserves_ret R)].
Qed.

Lemma walk_folder_pages fuel url pandaParentId :
  preserves R (Links.folder_pages W fuel url pandaParentId).
Proof.
  revert url pandaParentId. induction fuel as [| fuel IH]; intros url pandaParentId; simpl;
    [apply (preserves_out_of_fuel R) |].
  apply (preserves_bind R); [eapply walk_reads, reads_axiosVimeoRetry |].
  intros data. apply walk_folders_page; intros; apply IH.
Qed.

Lemma walk_main fuel : preserves R (Links.main W fuel).
Proof.
  unfold Links.main, Links.run, Links.processFolder.
  apply (preserves_try_catch R).
  - apply (preserves_bind R); [apply walk_folder_pages |]. intros _.
    apply (preserves_bind R); [apply walk_still, still_emit; reflexivity |]. intros _.
    apply walk_still, still_log.
  - intros e. apply walk_still, still_emit. reflexivity.
Qed.

End Walk.

Lemma key_exists_app k (a b : list Row) :
  key_exists k (a ++ b) = key_exists k a || key_exists k b.
Proof. apply List.existsb_app. Qed.

Lemma key_exists_keys k t : key_exists k t = false <-> ~ In k (keys t).
Proof.
  split.
  - intros H Hin. apply key_exists_spec in Hin. congruence.
  - intros H. destruct (key_exists k t) eqn:E; [| reflexivity].
    apply key_exists_spec in E. contradiction.
Qed.

#[local] Instance appends_preorder : PreOrder appends.
Proof.
  split.
  - intros s. exists []. rewrite !app_nil_r. repeat apply conj; auto.
    + intros r [].
    + constructor.
  - intros a b c (l1 & D1 & F1 & K1 & N1 & T1 & P1) (l2 & D2 & F2 & K2 & N2 & T2 & P2).
    exists (l1 ++ l2)%list. repeat apply conj.
    + rewrite D2, D1. apply eq_sym, app_assoc.
    + apply Forall_app. split; assumption.
    + intros r Hin. apply in_app_iff in Hin as [Hin | Hin]; [apply K1, Hin |].
      specialize (K2 r Hin). rewrite D1, key_exists_app in K2.
      apply orb_false_iff in K2. apply K2.
    + unfold keys. rewrite List.map_app. apply List.NoDup_app; [exact N1 | exact N2 |].
      intros k Hk1 Hk2. apply in_map_iff in Hk2 as (r & <- & Hr).
      specialize (K2 r Hr). rewrite D1, key_exists_app in K2.
      apply orb_false_iff in K2 as [_ K2]. apply key_exists_keys in K2. contradiction.
    + rewrite T2, T1, List.map_app. apply eq_sym, app_assoc.
    + congruence.
Qed.

Lemma still_appends s s' : still s s' -> appends s s'.
Proof.
  intros (H1 & H2 & H3). exists []. rewrite !app_nil_r. repeat apply conj; auto.
  - intros r [].
  - constructor.
Qed.

Lemma or_else_nonempty v d : d <> "" -> or_else v d <> "".
Proof.
  intros Hd. unfold or_else, truthy. destruct v as [x |]; [| exact Hd].
  destruct (String.eqb x "") eqn:E; [exact Hd |]. apply String.eqb_neq. exact E.
Qed.

Lemma appends_video_step W pandaFolderId video :
  preserves appends (Links.video_step W pandaFolderId video).
Proof.
  intros s. destruct (it_uri video) as [uri |] eqn:Hu.
  - destruct (Links.formatVimeoUrl uri) as [key |] eqn:Hf.
    + destruct (key_exists key (db s)) eqn:Hk.
      * rewrite (video_step_known W _ _ _ _ _ Hu Hf Hk).
        apply still_appends, still_after. reflexivity.
      * rewrite (video_step_absent W _ _ _ _ _ Hu Hf Hk). cbv zeta.
        destruct (net W (tick s)); [| apply still_appends, still_after; reflexivity].
        destruct (first_video _) as [pv |];
          [| apply still_appends, still_after; reflexivity].
        simpl. eexists [_]. repeat apply conj; simpl.
        -- reflexivity.
        -- constructor; [| constructor]. repeat apply conj; simpl; eauto.
           eexists. split; [reflexivity |]. apply or_else_nonempty. discriminate.
        -- intros r [<- | []]. exact Hk.
        -- constructor; [intros [] | constructor].
        -- unfold writes. rewrite List.filter_app. reflexivity.
        -- reflexivity.
    + unfold Links.video_step. rewrite Hu, Hf. reflexivity.
  - unfold Links.video_step. rewrite Hu. reflexivity.
Qed.

(** X15. getVimeoPandaLinks.js only adds to the table.  Whatever the
    network and the two services do, and whether the script ends normally, by
    an error or not at all, the table it leaves is the table it found followed
    by new rows: no row that was there is changed or removed (the
    [ON DUPLICATE KEY UPDATE] part of its statement never applies), each new
    row is under a key that was not there, no two of them under the same key,
    each is a player URL with an embed URL, no streaming reference and a
    title, and the statements executed are one per new row, in that order.
    The folders of Panda are as they were. *)
Theorem links_only_appends (W : World) (fuel : nat) (s : State) :
  exists added,
    db (snd (Links.main W fuel s)) = (db s ++ added)%list
    /\ Forall mapped_row added
    /\ (forall r, In r added -> key_exists (vimeo_video_id r) (db s) = false)
    /\ List.NoDup (keys added)
    /\ writes (trace (snd (Links.main W fuel s)))
       = (writes (trace s) ++ List.map statement_of added)%list
    /\ target (snd (Links.main W fuel s)) = target s.
Proof.
  apply (walk_main appends W still_appends (appends_video_step W) fuel s).
Qed.

(** ** C2: two writes under one key *)








(** ** What the walk of index.js keeps *)

Lemma same_data_attempt {B} W ev (body : State -> B) :
  preserves same_data (attempt W ev (reading body)).
Proof.
  intros s. unfold attempt, reading. destruct (net W (tick s)); repeat split.
Qed.

Ltac walk_step H :=
  lazymatch goal with
  | |- preserves ?R _ =>
      first
        [ apply (preserves_ret R) | apply (preserves_throw R)
        | apply (preserves_out_of_fuel R)
        | apply (preserves_weaken same_data R _ H);
          first [ apply same_data_log | apply same_data_sleep | apply same_data_emit
                | apply same_data_attempt ]
        | apply (preserves_bind R); [| intros ?]
        | apply (preserves_try_catch R); [| intros ?]
        | apply (preserves_for_of R); intros ?
        | match goal with
          | |- preserves _ (match ?x with _ => _ end) => destruct x
          end ]
  end.

Section IndexWalk.
Context (R : relation State) `{!PreOrder R}.
Variable W : World.
Hypothesis R_same : forall s s', same_data s s' -> R s s'.

Lemma ix_safe_loop {B} (call : M (AxiosError + B)) tag url retry left attempt_ :
  preserves R call -> preserves R (Index.safe_loop call tag url retry left attempt_).
Proof.
  intros Hc. revert attempt_. induction left as [| left IH]; intros attempt_; simpl.
  - apply (preserves_ret R).
  - apply (preserves_bind R); [exact Hc |]. intros [e | b]; [| apply (preserves_ret R)].
    repeat first [apply IH | walk_step R_same].
Qed.

Lemma ix_findPandaFolder name parent : preserves R (Index.findPandaFolder W name parent).
Proof.
  unfold Index.findPandaFolder, Index.safeGet, panda_get_folders.
  repeat first [apply ix_safe_loop | walk_step R_same].
Qed.

Lemma ix_createPandaFolder name parent :
  (forall n p, preserves R (Index.panda_post_folder W n p)) ->
  preserves R (Index.createPandaFolder W name parent).
Proof.
  intros Hp. unfold Index.createPandaFolder, Index.safePost.
  repeat first [apply ix_safe_loop | apply Hp | walk_step R_same].
Qed.

Lemma ix_video_step pandaFolderId video :
  preserves R (Index.video_step pandaFolderId video).
Proof.
  unfold Index.video_step. cbv zeta.
  destruct (Index.download_url video); [| walk_step R_same].
  apply preserves_bind_never; [apply unbound_never_returns |].
  intros s0. apply R_same. repeat split.
Qed.

Lemma ix_video_pages fuel pandaFolderId url :
  preserves R (Index.video_pages W fuel pandaFolderId url).
Proof.
  revert url. induction fuel as [| fuel IH]; intros url; simpl; [walk_step R_same |].
  apply (preserves_bind R).
  { unfold Index.safeGet, vimeo_get. apply ix_safe_loop. walk_step R_same. }
  intros data. unfold Index.videos_page.
  repeat first [apply IH | apply ix_video_step | walk_step R_same].
Qed.

Lemma ix_visit fuel recurse folder pandaFolderId :
  (forall uri parent, preserves R (recurse uri parent)) ->
  preserves R (Index.visit W fuel recurse folder pandaFolderId).
Proof.
  intros Hr. unfold Index.visit, Index.processVideosInFolder.
  repeat first [apply Hr | apply ix_video_pages | walk_step R_same].
Qed.

End IndexWalk.

#[local] Instance keeps_cache_preorder : PreOrder keeps_cache.
Proof.
  split.
  - intros s. split; [reflexivity |]. exists []. apply eq_sym, app_nil_r.
  - intros a b c (H1 & l1 & T1) (H2 & l2 & T2). split; [congruence |].
    exists (l1 ++ l2)%list. rewrite T2, T1. apply eq_sym, app_assoc.
Qed.

#[local] Instance caches_preorder : PreOrder caches.
Proof.
  split.
  - intros s. split; [reflexivity |]. split; [congruence |].
    exists []. apply eq_sym, app_nil_r.
  - intros a b c (H1 & N1 & l1 & T1) (H2 & N2 & l2 & T2). split; [etrans; eassumption |].
    split.
    + intros uri id Hc Ha. destruct (folderMap b !! uri) as [id' |] eqn:Hb.
      * rewrite (lookup_weaken _ _ _ _ Hb H2) in Hc. injection Hc as <-.
        apply (N1 uri id' Hb Ha).
      * apply (N2 uri id Hc Hb).
    + exists (l1 ++ l2)%list. rewrite T2, T1. apply eq_sym, app_assoc.
Qed.

Lemma same_keeps_cache s s' : same_data s s' -> keeps_cache s s'.
Proof.
  intros (_ & H2 & H3). split; [exact H3 |]. exists []. rewrite H2. apply eq_sym, app_nil_r.
Qed.

Lemma keeps_caches s s' : keeps_cache s s' -> caches s s'.
Proof.
  intros (H1 & H2). split; [rewrite H1; reflexivity |]. split; [| exact H2].
  intros uri id. rewrite H1. congruence.
Qed.

Lemma same_caches s s' : same_data s s' -> caches s s'.
Proof. intros H. apply keeps_caches, same_keeps_cache, H. Qed.

Lemma keeps_cache_post W name parent :
  preserves keeps_cache (Index.panda_post_folder W name parent).
Proof.
  intros s. unfold Index.panda_post_folder, attempt.
  destruct (net W (tick s)); simpl.
  - split; [reflexivity |]. eexists. reflexivity.
  - split; [reflexivity |]. exists []. apply eq_sym, app_nil_r.
Qed.

Lemma truthy_nonempty v id : truthy v = Some id -> id <> "".
Proof.
  unfold truthy. destruct v as [x |]; [| discriminate].
  destruct (String.eqb x "") eqn:E; [discriminate |].
  intros [= <-]. apply String.eqb_neq. exact E.
Qed.

Lemma caches_set_visit (c : M unit) uri id s0 s1 :
  keeps_cache s0 s1 -> folderMap s0 !! uri = None -> id <> "" ->
  preserves caches c ->
  caches s0 (snd ((do _ <- Index.folderMap_set uri id; c) s1)).
Proof.
  intros (H1 & l & T1) Hn Hid Hc. unfold bind, Index.folderMap_set.
  match goal with |- caches _ (snd (c ?st)) =>
    transitivity st; [| apply Hc] end.
  split; simpl.
  - rewrite H1. apply insert_subseteq. exact Hn.
  - split; [| exists l; exact T1].
    intros uri' id'. rewrite H1. intros Hl Ha.
    destruct (decide (uri' = uri)) as [-> | Hne].
    + rewrite lookup_insert_eq in Hl. injection Hl as <-. exact Hid.
    + rewrite lookup_insert_ne in Hl by auto. congruence.
Qed.

Lemma caches_folder_step W fuel recurse pandaParentId folder :
  (forall uri parent, preserves caches (recurse uri parent)) ->
  preserves caches (Index.folder_step W fuel recurse pandaParentId folder).
Proof.
  intros Hr s. unfold Index.folder_step. cbv zeta.
  destruct (Links.folder_uri folder) as [vimeoUri |]; [| reflexivity].
  assert (Hvisit : forall id, preserves caches (Index.visit W fuel recurse folder id)).
  { intros id. apply (ix_visit caches W same_caches). exact Hr. }
  unfold bind at 1, Index.folderMap_get.
  destruct (folderMap s !! vimeoUri) as [pandaFolderId |] eqn:Hget.
  - apply (preserves_bind caches).
    + apply (preserves_weaken same_data caches _ same_caches), same_data_log.
    + intros _. apply Hvisit.
  - pose proof (ix_findPandaFolder keeps_cache W same_keeps_cache
                  (Links.folder_name folder) pandaParentId s) as K1.
    unfold bind at 1.
    destruct (Index.findPandaFolder W (Links.folder_name folder) pandaParentId s)
      as [[found | e |] s1]; simpl in K1; try (apply keeps_caches; exact K1).
    destruct (truthy found) as [id |] eqn:Hfound.
    + unfold bind at 1, ret at 1.
      apply caches_set_visit; [exact K1 | exact Hget | | apply Hvisit].
      apply (truthy_nonempty _ _ Hfound).
    + pose proof (ix_createPandaFolder keeps_cache W same_keeps_cache
                    (Links.folder_name folder) pandaParentId (keeps_cache_post W) s1) as K2.
      unfold bind at 1 2.
      destruct (Index.createPandaFolder W (Links.folder_name folder) pandaParentId s1)
        as [[created | e |] s2]; simpl in K2;
        try (apply keeps_caches; etransitivity; eassumption).
      unfold ret at 1.
      destruct (truthy created) as [id |] eqn:Hcreated.
      * apply caches_set_visit; [| exact Hget | | apply Hvisit].
        -- etransitivity; eassumption.
        -- apply (truthy_nonempty _ _ Hcreated).
      * apply keeps_caches. etransitivity; [exact K1 |]. etransitivity; [exact K2 |].
        apply same_keeps_cache. repeat split.
Qed.

Lemma caches_folder_pages W fuel url pandaParentId :
  preserves caches (Index.folder_pages W fuel url pandaParentId).
Proof.
  revert url pandaParentId. induction fuel as [| fuel IH]; intros url pandaParentId; simpl;
    [apply (preserves_out_of_fuel caches) |].
  apply (preserves_bind caches).
  { unfold Index.safeGet, vimeo_get. apply (ix_safe_loop caches same_caches).
    apply (preserves_weaken same_data caches _ same_caches), same_data_attempt. }
  intros data. unfold Index.folders_page.
  destruct data as [page |]; [| apply (preserves_ret caches)].
  destruct (pg_data page) as [| folders | |];
    [apply (preserves_ret caches) | | apply (preserves_ret caches)
    | apply (preserves_ret caches)].
  apply (preserves_bind caches).
  - apply (preserves_for_of caches). intros x. apply caches_folder_step.
    intros uri parent. apply IH.
  - intros _. destruct (truthy (pg_next page)); [apply IH | apply (preserves_ret caches)].
Qed.

(** X16. The cache of index.js is only added to.  Across a run, whatever
    the network does and however the run ends, an entry of [folderMap] is
    never replaced or removed, an entry that is added never holds the empty
    id, and Panda keeps the folders it had, in their order, new ones coming
    after them. *)
Theorem folderMap_only_grows (W : World) (fuel : nat) (s : State) :
  folderMap s ⊆ folderMap (snd (Index.run W fuel s))
  /\ (forall uri id,
        folderMap (snd (Index.run W fuel s)) !! uri = Some id ->
        folderMap s !! uri = None -> id <> "")
  /\ exists created, target (snd (Index.run W fuel s)) = (target s ++ created)%list.
Proof.
  assert (H : preserves caches (Index.run W fuel)); [| apply H].
  unfold Index.run, Index.processFolder.
  apply (preserves_try_catch caches).
  - apply (preserves_bind caches); [apply caches_folder_pages |]. intros _.
    apply (preserves_weaken same_data caches _ same_caches), same_data_log.
  - intros e. apply (preserves_weaken same_data caches _ same_caches), same_data_emit.
Qed.

(** ** A folder that index.js creates *)

Lemma find_snoc {A} (p : A -> bool) l x :
  List.find p l = None -> List.find p (l ++ [x]) = if p x then Some x else None.
Proof.
  induction l as [| y l IH]; simpl; [reflexivity |].
  destruct (p y); [discriminate | exact IH].
Qed.

Lemma strict_eq_refl a : strict_eq a a = true.
Proof. destruct a; simpl; [apply String.eqb_refl | reflexivity]. Qed.

(** X17. A folder that index.js creates is the one both scripts find
    afterwards.  When no folder of Panda has the name under the parent, the
    parent is not the empty id, and the requests are answered,
    [createPandaFolder] returns the id Panda gives (not empty), Panda has one
    folder more, at the end, with that name and parent, and [findPandaFolder]
    of index.js and of getVimeoPandaLinks.js then return that id. *)
Theorem created_folder_is_found (W : World) (name : string) (parent : option string)
  (s : State) :
  net W (tick s) = NetOk -> net W (S (tick s)) = NetOk ->
  panda_new_id W (target s) <> "" ->
  truthy parent = parent ->
  List.find (folder_matches name parent) (target s) = None ->
  let id := panda_new_id W (target s) in
  exists s1,
    Index.createPandaFolder W name parent s = (Ret (Some id), s1)
    /\ target s1 = (target s ++ [{| pf_id := id; pf_name := name; pf_parent := parent |}])%list
    /\ tick s1 = S (tick s)
    /\ fst (Index.findPandaFolder W name parent s1) = Ret (Some id)
    /\ fst (Links.findPandaFolder W name parent s1) = Ret (Some id).
Proof.
  intros Hn1 Hn2 Hid Hp Hfind id.
  assert (Hm : folder_matches name parent
                 {| pf_id := id; pf_name := name; pf_parent := parent |} = true).
  { unfold folder_matches. simpl. rewrite String.eqb_refl, strict_eq_refl. reflexivity. }
  assert (Ht : String.eqb id "" = false) by (apply String.eqb_neq; exact Hid).
  eexists. split; [| split; [| split; [| split]]].
  - unfold Index.createPandaFolder, try_catch, Index.safePost. simpl.
    unfold bind at 1 2, Index.panda_post_folder, attempt. rewrite Hn1, Hp. simpl.
    fold id. rewrite Ht. unfold bind, log, emit, ret. simpl. reflexivity.
  - simpl. reflexivity.
  - reflexivity.
  - unfold Index.findPandaFolder, try_catch, Index.safeGet. simpl.
    unfold bind at 1 2, panda_get_folders, attempt, reading. simpl. rewrite Hn2. simpl.
    rewrite (find_snoc _ _ _ Hfind), Hm. reflexivity.
  - unfold Links.findPandaFolder, awaited, bind, panda_get_folders, attempt, reading.
    simpl. rewrite Hn2. simpl. rewrite (find_snoc _ _ _ Hfind), Hm. reflexivity.
Qed.

Lemma created_folder_is_found_witness :
  exists s1,
    Index.createPandaFolder (Demo.world Demo.always_ok) "C" (Some "pa")
      (Demo.start [] Demo.panda_folders) = (Ret (Some "new2"), s1)
    /\ target s1
       = (Demo.panda_folders
          ++ [{| pf_id := "new2"; pf_name := "C"; pf_parent := Some "pa" |}])%list
    /\ tick s1 = 1%nat
    /\ fst (Index.findPandaFolder (Demo.world Demo.always_ok) "C" (Some "pa") s1)
       = Ret (Some "new2")
    /\ fst (Links.findPandaFolder (Demo.world Demo.always_ok) "C" (Some "pa") s1)
       = Ret (Some "new2").
Proof.
  apply (created_folder_is_found (Demo.world Demo.always_ok) "C" (Some "pa")
           (Demo.start [] Demo.panda_folders));
    try reflexivity.
  discriminate.
Defined.

(** ** The sync script *)

Section SyncFacts.
Variable W : World.
Variable search : option string -> option (list PandaVideo).
Variable stamp : Z -> Z -> Z.
Variable store : nat -> option string.

Lemma row_step_eq n row s :
  Sync.row_step W search stamp store n row s
  = (let asked := [ELog LLog "[Sync] Buscando vídeo" (Sync.shown (title row));
                   EGet Panda "/videos" (Sync.title_params (title row))] in
     let missed := ELog LLog "[Sync] ainda não encontrado no Panda"
                     (Sync.shown (title row)) in
     match net W (tick s) with
     | NetOk =>
         match search (title row) with
         | Some (pv :: _) =>
             match store n with
             | Some message => (Throw (ErrorExn message), after s 1 0 asked)
             | None =>
                 (Ret tt,
                  {| db := Sync.update_panda_id stamp
                             (formatPandaIdToUrl (pv_external_id pv))
                             (vimeo_video_id row) (clock s) (db s);
                     folderMap := folderMap s; target := target s;
                     tick := S (tick s); clock := clock s + 500;
                     trace := trace s ++ asked
                              ++ [ELog LLog "[Sync] Atualizado com panda_video_id" "";
                                  ESleep (Num 500)] |})
             end
         | _ => (Ret tt, after s 1 500 (asked ++ [missed; ESleep (Num 500)]))
         end
     | NetFail e =>
         (Ret tt,
          after s 1 500
            (asked ++ [ELog LError "[Panda] Erro ao buscar vídeo" (Sync.shown (title row));
                       missed; ESleep (Num 500)]))
     end)%list.
Proof.
  unfold Sync.row_step, Sync.findPandaVideoByTitle, try_catch, awaited,
    Sync.panda_get_by_title, attempt, reading, bind, log, emit, sleep, ret, throw,
    Sync.execute_update, Sync.store_call, after.
  simpl. destruct (net W (tick s)) as [| e]; simpl.
  - destruct (search (title row)) as [[| pv vs] |]; simpl;
      rewrite <- ?app_assoc; try reflexivity.
    destruct (store n); simpl; rewrite ?Z.add_0_r, <- ?app_assoc; reflexivity.
  - rewrite <- !app_assoc. reflexivity.
Qed.

Lemma touched_refl t0 t : Forall2 (touched t0) t t.
Proof. induction t; constructor; [left; reflexivity | assumption]. Qed.

Lemma touched_trans t0 a b c :
  Forall2 (touched t0) a b -> Forall2 (touched t0) b c -> Forall2 (touched t0) a c.
Proof.
  intros Hab. revert c. induction Hab as [| x y a b Hxy Hab IH]; intros c Hbc.
  - inversion Hbc. constructor.
  - inversion Hbc as [| y' z b' c' Hyz Hbc' E1 E2]. subst. constructor; [| apply IH, Hbc'].
    destruct Hxy as [-> | (K1 & P1 & W1 & T1 & p & Hp)]; [exact Hyz |].
    destruct Hyz as [-> | (K2 & P2 & W2 & T2 & _)].
    + right. repeat apply conj; eauto.
    + right. repeat apply conj; try congruence; eauto.
Qed.

Lemma touched_update t0 row videoId now t :
  In row t0 -> Sync.pending row = true ->
  Forall2 (touched t0) t
    (Sync.update_panda_id stamp (formatPandaIdToUrl videoId) (vimeo_video_id row) now t).
Proof.
  intros Hin Hp. induction t as [| r t IH]; simpl; constructor; [| exact IH].
  destruct (has_key (vimeo_video_id row) r) eqn:E; [| left; reflexivity].
  right. simpl. repeat apply conj; eauto.
  exists row. repeat apply conj; auto.
  unfold has_key in E. apply String.eqb_eq in E. auto.
Qed.

Lemma row_step_filled t0 n row s :
  In row t0 -> Sync.pending row = true ->
  filled store t0 1 s (Sync.row_step W search stamp store n row s).
Proof.
  intros Hin Hp. rewrite row_step_eq. cbv zeta. unfold filled.
  assert (Hquiet : forall ms evs,
            Forall2 (touched t0) (db s) (db (after s 1 ms evs))
            /\ (tick (after s 1 ms evs) <= 1 + tick s)%nat
            /\ target (after s 1 ms evs) = target s
            /\ folderMap (after s 1 ms evs) = folderMap s).
  { intros ms evs. split; [apply touched_refl |]. simpl. auto. }
  assert (Hret : forall evs,
            (forall i, store i = None) ->
            @Ret unit tt = Ret tt /\ tick (after s 1 500 evs) = (1 + tick s)%nat
            /\ clock (after s 1 500 evs) = clock s + 500 * Z.of_nat 1).
  { intros evs _. simpl. repeat split; lia. }
  destruct (net W (tick s)).
  - destruct (search (title row)) as [[| pv vs] |].
    + cbn [fst snd]. destruct (Hquiet 500 (
        [ELog LLog "[Sync] Buscando vídeo" (Sync.shown (title row));
         EGet Panda "/videos" (Sync.title_params (title row))]
        ++ [ELog LLog "[Sync] ainda não encontrado no Panda" (Sync.shown (title row));
            ESleep (Num 500)])%list) as (H1 & H2 & H3 & H4).
      split; [exact H1 |]. split; [exact H2 |]. split; [exact H3 |]. split; [exact H4 |].
      split; [left; reflexivity | apply Hret].
    + destruct (store n) as [message |] eqn:Es; cbn [fst snd].
      * destruct (Hquiet 0 [ELog LLog "[Sync] Buscando vídeo" (Sync.shown (title row));
                            EGet Panda "/videos" (Sync.title_params (title row))])
          as (H1 & H2 & H3 & H4).
        split; [exact H1 |]. split; [exact H2 |]. split; [exact H3 |].
        split; [exact H4 |]. split; [right; eauto |].
        intros H. rewrite H in Es. discriminate.
      * split; [apply touched_update; assumption |]. simpl.
        split; [lia |]. split; [reflexivity |]. split; [reflexivity |].
        split; [left; reflexivity |]. intros _. repeat split; lia.
    + cbn [fst snd]. destruct (Hquiet 500 (
        [ELog LLog "[Sync] Buscando vídeo" (Sync.shown (title row));
         EGet Panda "/videos" (Sync.title_params (title row))]
        ++ [ELog LLog "[Sync] ainda não encontrado no Panda" (Sync.shown (title row));
            ESleep (Num 500)])%list) as (H1 & H2 & H3 & H4).
      split; [exact H1 |]. split; [exact H2 |]. split; [exact H3 |]. split; [exact H4 |].
      split; [left; reflexivity | apply Hret].
  - cbn [fst snd]. destruct (Hquiet 500 (
        [ELog LLog "[Sync] Buscando vídeo" (Sync.shown (title row));
         EGet Panda "/videos" (Sync.title_params (title row))]
        ++ [ELog LError "[Panda] Erro ao buscar vídeo" (Sync.shown (title row));
            ELog LLog "[Sync] ainda não encontrado no Panda" (Sync.shown (title row));
            ESleep (Num 500)])%list) as (H1 & H2 & H3 & H4).
    split; [exact H1 |]. split; [exact H2 |]. split; [exact H3 |]. split; [exact H4 |].
    split; [left; reflexivity | apply Hret].
Qed.

Lemma for_rows_filled t0 rows :
  forall n s,
    (forall row, In row rows -> In row t0 /\ Sync.pending row = true) ->
    filled store t0 (length rows) s (Sync.for_rows W search stamp store n rows s).
Proof.
  induction rows as [| row rows IH]; intros n s Hrows.
  - unfold filled. simpl. rewrite Z.add_0_r.
    split; [apply touched_refl |]. repeat split; auto.
  - destruct (Hrows row (or_introl eq_refl)) as [Hin Hp].
    pose proof (row_step_filled t0 n row s Hin Hp) as (F1 & K1 & T1 & M1 & O1 & A1).
    cbn [Sync.for_rows]. unfold bind.
    destruct (Sync.row_step W search stamp store n row s) as [[[] | e |] s1];
      cbn [fst snd] in *.
    + pose proof (IH (S n) s1 (fun r Hr => Hrows r (or_intror Hr)))
        as (F & K & T & M & O & A).
      unfold filled.
      split; [eapply touched_trans; eassumption |].
      split; [cbn [length]; lia |]. split; [congruence |]. split; [congruence |].
      split; [exact O |].
      intros Hs. destruct (A1 Hs) as (_ & K1' & C1'). destruct (A Hs) as (O' & K' & C').
      split; [exact O' |]. cbn [length]. split; lia.
    + unfold filled. cbn [fst snd].
      split; [exact F1 |]. split; [cbn [length]; lia |]. split; [exact T1 |].
      split; [exact M1 |]. split; [exact O1 |].
      intros Hs. destruct (A1 Hs) as ([=] & _).
    + destruct O1 as [[=] | (i & m & _ & [=])].
Qed.

Lemma sync_filled s :
  filled store (db s) (length (List.filter Sync.pending (db s))) s
    (Sync.syncPandaVideoIds W search stamp store s).
Proof.
  assert (Hthrow : forall i m n s',
            store i = Some m -> db s' = db s -> tick s' = tick s ->
            target s' = target s -> folderMap s' = folderMap s ->
            filled store (db s) n s (@Throw unit (ErrorExn m), s')).
  { intros i m n s' Hs Hd Ht Hg Hm. unfold filled. cbn [fst snd]. rewrite Hd.
    split; [apply touched_refl |]. split; [lia |].
    split; [exact Hg |]. split; [exact Hm |]. split; [right; eauto |].
    intros H. rewrite H in Hs. discriminate. }
  unfold Sync.syncPandaVideoIds, Sync.getDbConnection, Sync.select_pending.
  unfold bind at 1, Sync.store_call at 1.
  destruct (store 0%nat) as [m0 |] eqn:E0.
  { unfold throw. apply (Hthrow 0%nat); auto. }
  cbn [ret]. unfold bind at 1 2, Sync.store_call at 1.
  destruct (store 1%nat) as [m1 |] eqn:E1.
  { unfold throw. apply (Hthrow 1%nat); auto. }
  cbn [ret fst snd].
  assert (Hrows : forall r, In r (List.filter Sync.pending (db s)) ->
                            In r (db s) /\ Sync.pending r = true).
  { intros r Hr. apply List.filter_In in Hr. exact Hr. }
  destruct (List.filter Sync.pending (db s)) as [| row rows] eqn:Erows.
  - unfold bind at 1. rewrite log_after. unfold Sync.conn_end, bind, Sync.store_call.
    destruct (store 2%nat) as [m2 |] eqn:E2.
    + unfold throw. apply (Hthrow 2%nat); auto.
    + unfold filled, emit, ret. cbn [fst snd].
      split; [apply touched_refl |]. simpl.
      split; [lia |]. split; [reflexivity |]. split; [reflexivity |].
      split; [left; reflexivity |]. intros _. repeat split; lia.
  - remember (row :: rows) as rs eqn:Ers.
    pose proof (for_rows_filled (db s) rs 2
                  (after s 0 0 [ELog LLog "[Sync] Encontrados" ""]) Hrows)
      as (F & K & T & M & O & A).
    unfold bind at 1. rewrite log_after. unfold bind at 1.
    destruct (Sync.for_rows W search stamp store 2 rs
                (after s 0 0 [ELog LLog "[Sync] Encontrados" ""])) as [[[] | e |] s1];
      cbn [fst snd] in *; simpl tick in K; simpl target in T; simpl folderMap in M;
      simpl db in F.
    + unfold Sync.conn_end, bind, Sync.store_call.
      destruct (store (2 + length rs)%nat) as [m |] eqn:Em; unfold filled, emit, ret, log;
        cbn [fst snd]; simpl.
      * split; [exact F |]. split; [exact K |]. split; [exact T |]. split; [exact M |].
        split; [right; eauto |]. intros H. rewrite H in Em. discriminate.
      * split; [exact F |]. split; [exact K |]. split; [exact T |]. split; [exact M |].
        split; [left; reflexivity |].
        intros H. destruct (A H) as (_ & K' & C'). simpl in K', C'.
        rewrite Z.add_0_r in C'. repeat split; assumption.
    + unfold filled. cbn [fst snd].
      split; [exact F |]. split; [exact K |]. split; [exact T |]. split; [exact M |].
      split; [exact O |]. intros H. destruct (A H) as ([=] & _).
    + destruct O as [[=] | (i & m & _ & [=])].
Qed.

Lemma pending_keys_update videoId key now t k :
  In k (pending_keys (Sync.update_panda_id stamp videoId key now t)) ->
  In k (pending_keys t) /\ k <> key.
Proof.
  unfold pending_keys, keys. induction t as [| r t IH]; simpl; [intros [] |].
  destruct (has_key key r) eqn:E.
  - unfold Sync.pending at 1. simpl. intros H. destruct (IH H) as [H1 H2].
    split; [| exact H2]. destruct (Sync.pending r); [right |]; exact H1.
  - destruct (Sync.pending r) eqn:Ep; simpl.
    + intros [Hk | H].
      * split; [left; exact Hk |]. intros Hkey. unfold has_key in E.
        rewrite Hk, Hkey, String.eqb_refl in E. discriminate.
      * destruct (IH H) as [H1 H2]. split; [right; exact H1 | exact H2].
    + exact IH.
Qed.

Lemma for_rows_completes rows :
  forall n s k,
    (forall i, net W i = NetOk) -> (forall i, store i = None) ->
    (forall row, In row rows -> exists v vs, search (title row) = Some (v :: vs)) ->
    In k (pending_keys (db (snd (Sync.for_rows W search stamp store n rows s)))) ->
    In k (pending_keys (db s)) /\ ~ In k (keys rows).
Proof.
  induction rows as [| row rows IH]; intros n s k Hnet Hstore Hrows Hk.
  - split; [exact Hk | intros []].
  - destruct (Hrows row (or_introl eq_refl)) as (v & vs & Hv).
    cbn [Sync.for_rows] in Hk. unfold bind in Hk. rewrite row_step_eq in Hk.
    cbv zeta in Hk. rewrite Hnet, Hv, Hstore in Hk.
    apply IH in Hk as [Hk Hn]; auto; [| intros r Hr; apply Hrows; right; exact Hr].
    simpl in Hk. apply pending_keys_update in Hk as [Hk Hne].
    split; [exact Hk |]. simpl. intros [Heq | Hin]; [congruence | contradiction].
Qed.

Lemma sync_nothing_pending s :
  (forall i, store i = None) ->
  List.filter Sync.pending (db s) = [] ->
  Sync.syncPandaVideoIds W search stamp store s
  = (Ret tt, after s 0 0 [ELog LLog "Nenhum vídeo pendente de sincronização." "";
                          EPoolEnd]).
Proof.
  intros Hs H. unfold Sync.syncPandaVideoIds, Sync.getDbConnection, Sync.select_pending,
    Sync.conn_end, Sync.store_call.
  rewrite !Hs. unfold bind at 1. cbn [ret]. unfold bind at 1 2. cbn [ret fst snd].
  rewrite H. unfold bind, log, emit, ret, after. simpl.
  rewrite Z.add_0_r, <- app_assoc. reflexivity.
Qed.

End SyncFacts.

Lemma Forall2_In_impl {A B} (P Q : A -> B -> Prop) l l' :
  Forall2 P l l' -> (forall a b, In a l -> P a b -> Q a b) -> Forall2 Q l l'.
Proof.
  intros H. induction H as [| a b l l' Hab H IH]; intros Himp; constructor.
  - apply Himp; [left; reflexivity | exact Hab].
  - apply IH. intros x y Hx. apply Himp. right. exact Hx.
Qed.

Lemma NoDup_keys_inj (t : list Row) a b :
  List.NoDup (keys t) -> In a t -> In b t -> vimeo_video_id a = vimeo_video_id b -> a = b.
Proof.
  unfold keys. induction t as [| r t IH]; simpl; [intros _ [] |].
  intros Hnd Ha Hb E. apply List.NoDup_cons_iff in Hnd as [Hr Hnd].
  destruct Ha as [<- | Ha], Hb as [<- | Hb]; auto.
  - exfalso. apply Hr. rewrite E. apply in_map. exact Hb.
  - exfalso. apply Hr. rewrite <- E. apply in_map. exact Ha.
Qed.

(** X18. The sync script only fills in, and comes to its end unless the
    store rejects a call.  Whatever the network and the store do, the run
    ends by returning or by throwing the error of a call the store rejected
    (opening the connection, the select, an update, closing); it has made at
    most one request for each row that had no Panda id when it started, with
    no retry, a request that fails being logged and its row left for another
    run; and row by row the table it leaves is the table it found: a row is
    either as it was, or has been given an embed URL as Panda id because a row
    under its key had none; no key, title or streaming reference changes, no
    row is added or removed.  When the store rejects nothing, the run returns
    after exactly one request for each such row and 500 ms after each. *)
Theorem sync_only_fills (W : World) (search : option string -> option (list PandaVideo))
  (stamp : Z -> Z -> Z) (store : nat -> option string) (s : State) :
  let n := length (List.filter Sync.pending (db s)) in
  let r := Sync.syncPandaVideoIds W search stamp store s in
  Forall2 (touched (db s)) (db s) (db (snd r))
  /\ (tick (snd r) <= n + tick s)%nat
  /\ target (snd r) = target s /\ folderMap (snd r) = folderMap s
  /\ (fst r = Ret tt
      \/ exists i message, store i = Some message /\ fst r = Throw (ErrorExn message))
  /\ ((forall i, store i = None) ->
      fst r = Ret tt /\ tick (snd r) = (n + tick s)%nat
      /\ clock (snd r) = clock s + 500 * Z.of_nat n).
Proof. apply sync_filled. Qed.

(** X19. When the keys of the table are unique, the sync script leaves
    every row that has a Panda id exactly as it is. *)
Theorem sync_keeps_settled (W : World) (search : option string -> option (list PandaVideo))
  (stamp : Z -> Z -> Z) (store : nat -> option string) (s : State) :
  List.NoDup (keys (db s)) ->
  Forall2 (fun r r' => Sync.pending r = false -> r' = r)
    (db s) (db (snd (Sync.syncPandaVideoIds W search stamp store s))).
Proof.
  intros Hnd. destruct (sync_filled W search stamp store s) as (F & _).
  apply (Forall2_In_impl _ _ _ _ F).
  intros r r' Hin [-> | (_ & _ & _ & _ & p & Hp & Hpend & Hkey)] Hr; [reflexivity |].
  rewrite (NoDup_keys_inj (db s) p r Hnd Hp Hin Hkey) in Hpend. congruence.
Qed.

Lemma sync_keeps_settled_witness :
  Forall2 (fun r r' => Sync.pending r = false -> r' = r)
    Demo.half_mapped
    (db (snd (Sync.syncPandaVideoIds (Demo.world Demo.always_ok) Demo.by_title
                Demo.keep_stamp Demo.store_ok
                (Demo.start Demo.half_mapped Demo.panda_folders)))).
Proof.
  apply (sync_keeps_settled (Demo.world Demo.always_ok) Demo.by_title Demo.keep_stamp
           Demo.store_ok (Demo.start Demo.half_mapped Demo.panda_folders)).
  simpl. repeat constructor; simpl; intuition discriminate.
Defined.

(** X20. When every request is answered, the store rejects no call and
    Panda lists a video for the title of every row that has no Panda id, one
    run of the sync script leaves no row without a Panda id. *)
Theorem sync_completes (W : World) (search : option string -> option (list PandaVideo))
  (stamp : Z -> Z -> Z) (store : nat -> option string) (s : State) :
  (forall i, net W i = NetOk) ->
  (forall i, store i = None) ->
  (forall r, In r (db s) -> Sync.pending r = true ->
             exists v vs, search (title r) = Some (v :: vs)) ->
  List.filter Sync.pending (db (snd (Sync.syncPandaVideoIds W search stamp store s))) = [].
Proof.
  intros Hnet Hstore Hfound.
  destruct (List.filter Sync.pending (db s)) as [| row rows] eqn:Erows.
  - rewrite (sync_nothing_pending W search stamp store s Hstore Erows). exact Erows.
  - unfold Sync.syncPandaVideoIds, Sync.getDbConnection, Sync.select_pending,
      Sync.conn_end, Sync.store_call.
    rewrite !Hstore. unfold bind at 1. cbn [ret]. unfold bind at 1 2. cbn [ret fst snd].
    rewrite Erows.
    assert (Hrows : forall r, In r (row :: rows) ->
                              exists v vs, search (title r) = Some (v :: vs)).
    { intros r Hr. rewrite <- Erows in Hr. apply List.filter_In in Hr as [H1 H2]. auto. }
    assert (Hkeys : pending_keys (db s) = keys (row :: rows)).
    { unfold pending_keys. rewrite Erows. reflexivity. }
    remember (row :: rows) as rs eqn:Ers.
    unfold bind at 1. rewrite log_after.
    pose proof (for_rows_completes W search stamp store rs 2
                  (after s 0 0 [ELog LLog "[Sync] Encontrados" ""])) as Hloop.
    unfold bind at 1.
    destruct (Sync.for_rows W search stamp store 2 rs
                (after s 0 0 [ELog LLog "[Sync] Encontrados" ""])) as [[[] | e |] s1];
      unfold bind, emit, log, ret; rewrite ?Hstore; simpl in *;
      (destruct (List.filter Sync.pending (db s1)) as [| r l] eqn:E; [reflexivity |]);
      exfalso;
      (destruct (Hloop (vimeo_video_id r) Hnet Hstore Hrows) as [H1 H2];
       [unfold pending_keys; rewrite E; left; reflexivity
       | apply H2; rewrite <- Hkeys; exact H1]).
Qed.

Lemma sync_completes_witness :
  List.filter Sync.pending
    (db (snd (Sync.syncPandaVideoIds (Demo.world Demo.always_ok) Demo.by_title
                Demo.keep_stamp Demo.store_ok
                (Demo.start Demo.half_mapped Demo.panda_folders)))) = [].
Proof.
  apply (sync_completes (Demo.world Demo.always_ok) Demo.by_title Demo.keep_stamp
           Demo.store_ok (Demo.start Demo.half_mapped Demo.panda_folders)).
  - reflexivity.
  - reflexivity.
  - simpl. intros r [<- | [<- | []]]; [discriminate |]. intros _.
    eexists _, _. reflexivity.
Defined.

Lemma mapped_row_settled r : mapped_row r -> Sync.pending r = false.
Proof. intros (_ & (v & H) & _). unfold Sync.pending. rewrite H. reflexivity. Qed.

(** X21. After getVimeoPandaLinks.js the sync script has nothing to do.
    The rows that script adds all have a Panda id: on a table where no row
    lacked one, however its run went, the sync script (its store rejecting no
    call) finds no row to look up, makes no request and closes its
    connection. *)
Theorem sync_after_links (W W' : World) (search : option string -> option (list PandaVideo))
  (stamp : Z -> Z -> Z) (store : nat -> option string) (fuel : nat) (s : State) :
  List.filter Sync.pending (db s) = [] ->
  (forall i, store i = None) ->
  let s1 := snd (Links.main W fuel s) in
  Sync.syncPandaVideoIds W' search stamp store s1
  = (Ret tt, after s1 0 0 [ELog LLog "Nenhum vídeo pendente de sincronização." "";
                           EPoolEnd]).
Proof.
  intros Hs Hstore s1. apply sync_nothing_pending; [exact Hstore |]. subst s1.
  destruct (walk_main appends W still_appends (appends_video_step W) fuel s)
    as (added & -> & Hrows & _).
  rewrite List.filter_app, Hs. simpl.
  induction Hrows as [| r l Hr _ IH]; simpl; [reflexivity |].
  rewrite (mapped_row_settled r Hr). exact IH.
Qed.

Lemma sync_after_links_witness :
  Sync.syncPandaVideoIds (Demo.world Demo.always_ok) Demo.by_title Demo.keep_stamp
    Demo.store_ok
    (snd (Links.main (Demo.world Demo.always_ok) 5 (Demo.start [] Demo.panda_folders)))
  = (Ret tt,
     after (snd (Links.main (Demo.world Demo.always_ok) 5
                   (Demo.start [] Demo.panda_folders))) 0 0
       [ELog LLog "Nenhum vídeo pendente de sincronização." ""; EPoolEnd]).
Proof.
  apply (sync_after_links (Demo.world Demo.always_ok) (Demo.world Demo.always_ok)
           Demo.by_title Demo.keep_stamp Demo.store_ok 5
           (Demo.start [] Demo.panda_folders));
    reflexivity.
Defined.

(** ** A listing without an array *)

(** X22. The two scripts differ on a root listing whose [data] is not an
    array.  When it is absent, both end normally after the one request, and
    getVimeoPandaLinks.js closes its pool.  When it is a string, both end
    normally too: index.js leaves its loop at once, getVimeoPandaLinks.js goes
    through the characters, skips each as a folder without a [uri], finds no
    next page to go to and closes its pool.  When it is any other value (an
    object, a number, [true]), index.js still ends normally ([Array.isArray]
    guards its loop), while getVimeoPandaLinks.js throws a [TypeError] from
    its [for ... of], which the [catch] of the script prints: the pool is not
    closed. *)
Theorem listing_without_array (W : World) (fuel : nat) (s : State) :
  net W (tick s) = NetOk ->
  let url := root_uri W "" +:+ "?per_page=50" in
  let url' := root_uri W Index.root_fields +:+ "?per_page=100" in
  ((forall items, pg_data (source W url) <> DataArray items) ->
   (forall more, pg_data (source W url) = DataString more ->
                 truthy (pg_next (source W url)) = None) ->
   Links.main W (S fuel) s
   = (Ret tt,
      after s 1 0
        (EGet Vimeo url []
         :: match pg_data (source W url) with
            | DataOther => [ELogExn "" (TypeError "data.data is not iterable")]
            | _ => [EPoolEnd; ELog LLog "Processo concluído!" ""]
            end)))
  /\ ((forall items, pg_data (source W url') <> DataArray items) ->
      Index.run W (S fuel) s
      = (Ret tt, after s 1 0 [EGet Vimeo url' []; ELog LLog "Processamento finalizado!" ""])).
Proof.
  intros Hnet url url'. split.
  - intros Hdata Hnext.
    unfold Links.main, try_catch, Links.run, Links.processFolder. fold url.
    cbn [Links.folder_pages]. unfold bind at 1 2, Links.axiosVimeoRetry.
    cbn [Links.retry_loop]. unfold bind at 1, vimeo_get, attempt, reading.
    rewrite Hnet. cbn [ret fst snd]. unfold Links.folders_page.
    destruct (pg_data (source W url)) as [| items | | more] eqn:Hd;
      [| destruct (Hdata items eq_refl) | |]; cbn [iteration].
    + unfold ret, throw, bind, emit, log, emit, after; simpl;
        rewrite ?Z.add_0_r, <- ?app_assoc; reflexivity.
    + unfold ret, throw, bind, emit, log, emit, after; simpl;
        rewrite ?Z.add_0_r, <- ?app_assoc; reflexivity.
    + rewrite (Hnext more eq_refl), bind_ret_tt, folder_step_blank.
      unfold ret, throw, bind, emit, log, emit, after; simpl;
        rewrite ?Z.add_0_r, <- ?app_assoc; reflexivity.
  - intros Hdata.
    unfold Index.run, try_catch, Index.processFolder. fold url'.
    cbn [Index.folder_pages]. unfold bind at 1 2, Index.safeGet.
    cbn [Index.safe_loop]. unfold bind at 1, vimeo_get, attempt, reading.
    rewrite Hnet. cbn [ret fst snd]. unfold Index.folders_page.
    destruct (pg_data (source W url')) as [| items | | more];
      [| destruct (Hdata items eq_refl) | |];
      unfold ret, throw, bind, emit, log, emit, after; simpl;
      rewrite ?Z.add_0_r, <- ?app_assoc; reflexivity.
Qed.

Lemma listing_without_array_witness :
  Links.main Demo.odd_world 1 (Demo.start [] Demo.panda_folders)
  = (Ret tt,
     after (Demo.start [] Demo.panda_folders) 1 0
       [EGet Vimeo (root_uri Demo.odd_world "" +:+ "?per_page=50") [];
        ELogExn "" (TypeError "data.data is not iterable")]).
Proof.
  refine (proj1 (listing_without_array Demo.odd_world 0
                   (Demo.start [] Demo.panda_folders) _) _ _).
  - reflexivity.
  - discriminate.
  - discriminate.
Defined.

(** ** A Vimeo folder that Panda does not have *)

(** X23. getVimeoPandaLinks.js skips a folder that has no counterpart on
    Panda (no folder with its name under the parent, or one whose id is
    empty) with everything below it: after the one request to Panda the step
    logs the skip and ends, without fetching the videos or the sub-folders of
    the folder, and without the pause between folders. *)
Theorem unmatched_folder_skipped (W : World) (fuel : nat)
  (recurse : string -> option string -> M unit) (pandaParentId : option string)
  (folder : Item) (vimeoUri : string) (s : State) :
  Links.folder_uri folder = Some vimeoUri ->
  net W (tick s) = NetOk ->
  truthy (found_folder (Links.folder_name folder) pandaParentId (target s)) = None ->
  Links.folder_step W fuel recurse pandaParentId folder s
  = (Ret tt,
     after s 1 0 [EGet Panda "/folders" [];
                  ELog LWarn "[Skip]" (Links.folder_name folder)]).
Proof.
  intros Hu Hnet Hfound. unfold Links.folder_step. cbv zeta. rewrite Hu.
  unfold bind at 1, Links.findPandaFolder, awaited, bind at 1 2, panda_get_folders,
    attempt, reading.
  rewrite Hnet. cbn [ret fst snd target].
  unfold found_folder in Hfound. rewrite Hfound.
  unfold log, emit, after. simpl. rewrite Z.add_0_r, <- app_assoc. reflexivity.
Qed.

Lemma unmatched_folder_skipped_witness :
  Links.folder_step (Demo.world Demo.always_ok) 5 (fun _ _ => ret tt) None
    (Demo.folder "C" "/folders/3" (Some "/folders/3/videos") None)
    (Demo.start [] Demo.panda_folders)
  = (Ret tt,
     after (Demo.start [] Demo.panda_folders) 1 0
       [EGet Panda "/folders" []; ELog LWarn "[Skip]" "C"]).
Proof.
  apply (unmatched_folder_skipped (Demo.world Demo.always_ok) 5 (fun _ _ => ret tt) None
           (Demo.folder "C" "/folders/3" (Some "/folders/3/videos") None) "/folders/3"
           (Demo.start [] Demo.panda_folders));
    reflexivity.
Defined.
